(** * Jupiter trading bot: swap execution and confirmation engine

    A shallow embedding of the TypeScript sources of the bot
    (src/utils/slippage.ts, config.ts, wait.ts, helpers.ts, getSignature.ts,
    transactionSender.ts, tokens.ts, swap.ts and src/trader.ts) together with
    the properties of its slippage policy, confirmation polling, retry loops,
    balance watcher and availability probe.

    Conventions of the embedding.
    - A JavaScript [number] that holds an integer quantity (basis points,
      lamports, block heights, milliseconds, attempt counters) is a [Z];
      where the program obtains it from [parseInt] it may also be [NaN], and
      the type [number] adds that value.  The rounding of the arithmetic on
      these quantities beyond 2^53 is outside the model.
    - Token amounts in display units (the result of [getTokenBalance], the
      amounts to buy and to sell) are doubles, written as the rational [Q]
      they equal; a rational that is no double stands for the double nearest
      to it, as a numeric literal does.  The products that turn an amount
      into base units are rounded as binary64 arithmetic rounds them
      ([Js.binary64]); a product beyond the largest double, which JavaScript
      gives as [Infinity], is outside the model.
    - An [async] function is a computation in the monad [M]: it reads and
      extends the world (clock, [process.env], the history of requests made
      to the collaborators) and either returns a value or throws an [Error].
      [await] is sequencing.
    - The collaborators (Jupiter API, Solana RPC) are deterministic functions
      of the history of requests, which is the most general behaviour a
      single run can observe.
    - [console.log] and friends are not modelled. *)

From Stdlib Require Import ZArith QArith Qround Qpower Qabs Lqa Lia String List Bool.
From stdpp Require Import base gmap strings.

Local Open Scope string_scope.
Local Open Scope Z_scope.

(** ** JavaScript numbers and strings *)

Module Js.

(** An integer-valued JavaScript number, or NaN. *)
Inductive number : Type :=
| NaN
| Int (z : Z).

(** [a * b] *)
Definition mul (a b : number) : number :=
  match a, b with
  | Int x, Int y => Int (x * y)
  | _, _ => NaN
  end.

(** [Math.min(a, b)]: NaN if either argument is NaN. *)
Definition min (a b : number) : number :=
  match a, b with
  | Int x, Int y => if x <=? y then a else b
  | _, _ => NaN
  end.

(** [Math.max(a, b)]: NaN if either argument is NaN. *)
Definition max (a b : number) : number :=
  match a, b with
  | Int x, Int y => if y <=? x then a else b
  | _, _ => NaN
  end.

(** [a < b], [a <= b], [a > b]: every comparison with NaN is false. *)
Definition lt (a b : number) : bool :=
  match a, b with
  | Int x, Int y => x <? y
  | _, _ => false
  end.

Definition le (a b : number) : bool :=
  match a, b with
  | Int x, Int y => x <=? y
  | _, _ => false
  end.

Definition gt (a b : number) : bool := lt b a.

(** The integer nearest to [n / d], for [0 <= n] and [0 < d]; of two nearest
    ones the even one. *)
Definition div_nearest_even (n d : Z) : Z :=
  let q := n / d in
  match 2 * (n mod d) ?= d with
  | Lt => q
  | Eq => if Z.even q then q else q + 1
  | Gt => q + 1
  end.

(** [n / d < 2^e], for an exponent of either sign. *)
Definition below_pow2 (n d e : Z) : bool :=
  if 0 <=? e then n <? d * 2 ^ e else n * 2 ^ (- e) <? d.

(** [m * 2^e], for an exponent of either sign. *)
Definition scaled (m e : Z) : Q :=
  if 0 <=? e then inject_Z (m * 2 ^ e) else (m # Z.to_pos (2 ^ (- e)))%Q.

(** The exponent [e] of [n / d], for [0 < n] and [0 < d]:
    [2^e <= n / d < 2^(e+1)]. *)
Definition exponent (n d : Z) : Z :=
  let e0 := Z.log2 n - Z.log2 d in
  if below_pow2 n d e0 then e0 - 1 else e0.

(** The double nearest to a rational: round to nearest, ties to even, with the
    53 bits of precision and the least exponent (-1074) of binary64.  For
    [|q|] of exponent [e] the result is a multiple [m * 2^s] of the unit in
    the last place [2^s], [s = max (e - 52) (-1074)]. *)
Definition binary64 (q : Q) : Q :=
  let q := Qred q in
  let n := Z.abs (Qnum q) in
  let d := Zpos (Qden q) in
  if n =? 0 then 0%Q
  else
    let s := Z.max (exponent n d - 52) (-1074) in
    let m := if 0 <=? s then div_nearest_even n (d * 2 ^ s)
             else div_nearest_even (n * 2 ^ (- s)) d in
    scaled (Z.sgn (Qnum q) * m) s.

(** [2^e] as a rational. *)
Definition pow2 (e : Z) : Q := Qpower 2 e.

(** The magnitude from which on binary64 arithmetic rounds to [Infinity]:
    half way between the largest double and [2^1024].  Numbers of this
    magnitude are outside the model. *)
Definition overflow_threshold : Q := inject_Z (2 ^ 1024 - 2 ^ 970).

(** [x * y] on doubles. *)
Definition times (x y : Q) : Q := binary64 (binary64 x * binary64 y).

(** Truthiness of a string: only the empty string is falsy. *)
Definition truthy (s : string) : bool :=
  match s with
  | EmptyString => false
  | String _ _ => true
  end.

(** [s || d] for a possibly undefined string [s]. *)
Definition or_else (s : option string) (d : string) : string :=
  match s with
  | Some v => if truthy v then v else d
  | None => d
  end.

(** Truthiness of an optional string ([undefined] and [""] are falsy). *)
Definition defined_truthy (s : option string) : bool :=
  match s with
  | Some v => truthy v
  | None => false
  end.

(** [s.includes(t)] *)
Fixpoint includes (s t : string) : bool :=
  String.prefix t s ||
  match s with
  | EmptyString => false
  | String _ s' => includes s' t
  end.

End Js.

Abbreviation number := Js.number.
Abbreviation NaN := Js.NaN.
Abbreviation Int := Js.Int.

(** ** Errors and results *)

(** A thrown value.  Every [throw] of the program raises an [Error] object,
    and so do the collaborators; it is identified by its message. *)
Record Error : Type := mkError { message : string }.

(** The result of a call that may throw, and the reply of a collaborator:
    a value, or a thrown (rejected) error. *)
Inductive result (A : Type) : Type :=
| Ok (a : A)
| Fail (e : Error).

Arguments Ok {A} a.
Arguments Fail {A} e.

(** The result of running a computation: a value, a thrown error, or
    [OutOfFuel] when a loop of the model was cut before the source loop
    would have ended (shown below never to happen). *)
Inductive outcome (A : Type) : Type :=
| Return (a : A)
| Throw (e : Error)
| OutOfFuel.

Arguments Return {A} a.
Arguments Throw {A} e.
Arguments OutOfFuel {A}.

Definition settle {A} (r : result A) : outcome A :=
  match r with
  | Ok a => Return a
  | Fail e => Throw e
  end.

(** ** Configuration (src/utils/config.ts) *)

Definition SOL_MINT : string := "So11111111111111111111111111111111111111112".
Definition SOL_DECIMALS : Z := 9.

Record EnvConfig : Type := {
  PRIVATE_KEY : string;
  BUY_AMOUNT_SOL : string;
  SLIPPAGE_BPS : string;
  RPC_ENDPOINT : string;
  PRIORITY_FEE_LAMPORTS : option string;
  PRIORITY_LEVEL : option string;
  COMPUTE_UNIT_LIMIT : option string;
  COMPUTE_UNIT_PRICE_MICROLAMPORTS : option string;
  SELL_DELAY_SECONDS : option string;
  BALANCE_RETRY_COUNT : option string;
  BALANCE_RETRY_DELAY_MS : option string;
  MAX_RETRY_DURATION_MS : option string;
  RETRY_DELAY_MS : option string;
  NEW_TOKEN_MODE : option string;
  BASE_SLIPPAGE_BPS : number;
  NEW_TOKEN_SLIPPAGE_MULTIPLIER : number;
  MAX_SLIPPAGE_BPS : number;
  MIN_SLIPPAGE_BPS : number
}.

(** A keypair wallet, identified by the base58 form of its public key. *)
Record Wallet : Type := { publicKey : string }.

(** A versioned transaction: the message bytes, the blockhash it names and
    the base58 forms of its signatures. *)
Record VersionedTransaction : Type := {
  txMessage : string;
  recentBlockhash : string;
  signatures : list string
}.

(** The functions of the JavaScript runtime and of the Solana libraries that
    the program calls and whose results it only passes on.  They are pure;
    the development holds for every choice of them. *)
Record Runtime : Type := {
  (** [parseInt(s)] *)
  parseInt : string -> number;
  (** [parseFloat(s)]; [None] is NaN *)
  parseFloat : string -> option Q;
  (** [x.toString()] for a number [x] *)
  numberToString : Q -> string;
  (** [BigInt(s)]: throws a SyntaxError on a string that is no integer *)
  BigInt : string -> result Z;
  (** [new PublicKey(s).toBase58()]: throws on a malformed address *)
  newPublicKey : string -> result string;
  (** [new Wallet(Keypair.fromSecretKey(bs58.decode(s)))] *)
  walletOfSecret : string -> result Wallet;
  (** [VersionedTransaction.deserialize(Buffer.from(s, "base64"))] *)
  deserialize : string -> result VersionedTransaction;
  (** [transaction.sign([wallet.payer])] *)
  sign : Wallet -> VersionedTransaction -> result VersionedTransaction;
  (** [getAssociatedTokenAddress(mint, owner)] *)
  getAssociatedTokenAddress : string -> string -> result string;
  (** [new Connection(endpoint)]: throws a TypeError on an endpoint that is
      no http(s) URL; it makes no request *)
  newConnection : string -> result unit;
  (** [Math.pow(10, d)] for an exponent outside 0..22, where the power is no
      double and the result is the engine's approximation *)
  Math_pow10 : Z -> Q
}.

(** [Math.pow(10, decimals)]: the exact power when it is a double. *)
Definition pow10 (js : Runtime) (decimals : Z) : Q :=
  if (0 <=? decimals) && (decimals <=? 22) then inject_Z (10 ^ decimals)
  else Math_pow10 js decimals.

(** [toLamports(amount, decimals)]: [Math.round(amount * Math.pow(10, decimals))].
    The product is a product of doubles; [Math.round] rounds it to the
    nearest integer, a half upwards. *)
Definition toLamports (js : Runtime) (amount : option Q) (decimals : Z) : number :=
  match amount with
  | Some a => Int (Qfloor (Js.times a (pow10 js decimals) + (1 # 2)))
  | None => NaN
  end.

(** [getConfig()] as a function of [process.env]. *)
Definition getConfig (js : Runtime) (env : gmap string string) : EnvConfig :=
  {| PRIVATE_KEY := Js.or_else (env !! "PRIVATE_KEY") "";
     BUY_AMOUNT_SOL := Js.or_else (env !! "BUY_AMOUNT_SOL") "";
     SLIPPAGE_BPS := Js.or_else (env !! "SLIPPAGE_BPS") "100";
     RPC_ENDPOINT := Js.or_else (env !! "RPC_ENDPOINT") "https://api.mainnet-beta.solana.com";
     PRIORITY_FEE_LAMPORTS := env !! "PRIORITY_FEE_LAMPORTS";
     PRIORITY_LEVEL := env !! "PRIORITY_LEVEL";
     COMPUTE_UNIT_LIMIT := env !! "COMPUTE_UNIT_LIMIT";
     COMPUTE_UNIT_PRICE_MICROLAMPORTS := env !! "COMPUTE_UNIT_PRICE_MICROLAMPORTS";
     SELL_DELAY_SECONDS := env !! "SELL_DELAY_SECONDS";
     BALANCE_RETRY_COUNT := env !! "BALANCE_RETRY_COUNT";
     BALANCE_RETRY_DELAY_MS := env !! "BALANCE_RETRY_DELAY_MS";
     MAX_RETRY_DURATION_MS := env !! "MAX_RETRY_DURATION_MS";
     RETRY_DELAY_MS := env !! "RETRY_DELAY_MS";
     NEW_TOKEN_MODE := Some (Js.or_else (env !! "NEW_TOKEN_MODE") "false");
     BASE_SLIPPAGE_BPS := parseInt js (Js.or_else (env !! "BASE_SLIPPAGE_BPS") "200");
     NEW_TOKEN_SLIPPAGE_MULTIPLIER :=
       parseInt js (Js.or_else (env !! "NEW_TOKEN_SLIPPAGE_MULTIPLIER") "5");
     MAX_SLIPPAGE_BPS := parseInt js (Js.or_else (env !! "MAX_SLIPPAGE_BPS") "5000");
     MIN_SLIPPAGE_BPS := parseInt js (Js.or_else (env !! "MIN_SLIPPAGE_BPS") "1000") |}.

(** ** Slippage policy (src/utils/slippage.ts) *)

(** [calculateSlippage(isNewToken)], with the configuration it reads made a
    parameter. *)
Definition calculateSlippage (js : Runtime) (config : EnvConfig) (isNewToken : bool) : number :=
  if negb isNewToken then
    parseInt js (if Js.truthy (SLIPPAGE_BPS config) then SLIPPAGE_BPS config else "100")
  else
    let baseSlippage := BASE_SLIPPAGE_BPS config in
    let calculatedSlippage := Js.mul baseSlippage (NEW_TOKEN_SLIPPAGE_MULTIPLIER config) in
    let calculatedSlippage := Js.min calculatedSlippage (MAX_SLIPPAGE_BPS config) in
    let calculatedSlippage := Js.max calculatedSlippage (MIN_SLIPPAGE_BPS config) in
    calculatedSlippage.

(** ** The collaborators and the world *)

(** Request and response shapes of the Jupiter API (@jup-ag/api). *)
Record QuoteGetRequest : Type := {
  inputMint : string;
  outputMint : string;
  amount : number;
  slippageBps : number
}.

Record QuoteResponse : Type := {
  quoteInputMint : string;
  quoteOutputMint : string;
  inAmount : string;
  (** [outAmount] is a string; [undefined] on a malformed reply *)
  outAmount : option string;
  priceImpactPct : string
}.

Record SwapRequest : Type := {
  quoteResponse : QuoteResponse;
  userPublicKey : string;
  dynamicComputeUnitLimit : bool;
  dynamicSlippage : bool;
  asLegacyTransaction : bool;
  wrapAndUnwrapSol : bool;
  maxLamports : number;
  priorityLevel : string;
  computeUnitLimit : option number;
  computeUnitPriceMicroLamports : option number
}.

Record SwapResponse : Type := {
  swapTransaction : string;
  lastValidBlockHeight : Z
}.

(** An execution error reported by the ledger (an object or a name such as
    [BlockhashNotFound]): a truthy value. *)
Inductive TransactionError : Type :=
| TxError (description : string).

(** Replies of the Solana RPC (@solana/web3.js).  [simErr] is the [err]
    field of a simulation, [None] when it is null. *)
Record SimulatedTransactionResponse : Type := {
  simErr : option TransactionError;
  simLogs : list string
}.

Record VersionedTransactionResponse : Type := {
  slot : Z;
  (** [meta?.err]: [None] when [meta] is null or its [err] is null *)
  metaErr : option TransactionError
}.

(** [mintInfo.value] of [getParsedAccountInfo]: [None] is a null value;
    otherwise [data.parsed?.info?.decimals], when present. *)
Record ParsedAccountInfo : Type := {
  parsedDecimals : option Z
}.

(** One request to a collaborator, or one timer. *)
Inductive Event : Type :=
| QuoteGet (params : QuoteGetRequest)
| SwapPost (swapRequest : SwapRequest)
| SimulateTransaction (transaction : VersionedTransaction) (commitment : string)
| SendRawTransaction (serializedTransaction : VersionedTransaction) (skipPreflight : bool)
| GetBlockHeight
| GetTransaction (signature : string)
| GetBalance (owner : string)
| GetTokenAccountBalance (tokenAccount : string)
| GetParsedAccountInfo (mint : string)
| SetTimeout (ms : number).

(** The behaviour of the collaborators during one run: each reply is a
    function of the history of events, most recent first, the request being
    answered at its head.  [latency] is the time the event at the head took
    beyond the delay a timer asked for. *)
Record Network : Type := {
  quoteGet : list Event -> result (option QuoteResponse);
  swapPost : list Event -> result SwapResponse;
  simulateTransaction : list Event -> result SimulatedTransactionResponse;
  sendRawTransaction : list Event -> result string;
  getBlockHeight : list Event -> result Z;
  getTransaction : list Event -> result (option VersionedTransactionResponse);
  getBalance : list Event -> result Z;
  (** [balance.value.uiAmount]: a number or null *)
  getTokenAccountBalance : list Event -> result (option Q);
  getParsedAccountInfo : list Event -> result (option ParsedAccountInfo);
  latency : list Event -> N
}.

(** The state a run threads: the clock read by [Date.now()], the shared
    [process.env], and the history of events. *)
Record World : Type := {
  now : Z;
  env : gmap string string;
  trace : list Event
}.

(** ** The monad of asynchronous computations *)

Definition M (A : Type) : Type := World -> outcome A * World.

Definition ret {A} (a : A) : M A := fun w => (Return a, w).

Definition throw {A} (e : Error) : M A := fun w => (Throw e, w).

Definition bind {A B} (m : M A) (k : A -> M B) : M B :=
  fun w =>
    match m w with
    | (Return a, w') => k a w'
    | (Throw e, w') => (Throw e, w')
    | (OutOfFuel, w') => (OutOfFuel, w')
    end.

(** [try { m } catch (error) { handler error }] *)
Definition try_catch {A} (m : M A) (handler : Error -> M A) : M A :=
  fun w =>
    match m w with
    | (Throw e, w') => handler e w'
    | r => r
    end.

(** Lifting of a pure call that may throw. *)
Definition lift {A} (r : result A) : M A := fun w => (settle r, w).

(** The model's loop was cut. *)
Definition out_of_fuel {A} : M A := fun w => (OutOfFuel, w).

Notation "'let*' x ':=' m 'in' k" := (bind m (fun x => k))
  (at level 10, x name, m at level 100, k at level 200).
Notation "m ';;' k" := (bind m (fun _ => k))
  (at level 100, k at level 200, right associativity).

(** Time taken by a timer armed with [ms]: at least [ms]; Node sets a delay
    that is NaN, below 1 or above 2^31 - 1 to 1. *)
Definition timer_ms (ms : number) : Z :=
  match ms with
  | Int z => if (1 <=? z) && (z <=? 2147483647) then z else 1
  | NaN => 1
  end.

Section Effects.

Context (js : Runtime) (net : Network).

(** Record event [ev], let [base + latency] milliseconds pass, and answer
    with the collaborators' [reply]. *)
Definition perform {A} (ev : Event) (base : Z) (reply : list Event -> result A) : M A :=
  fun w =>
    let tr := ev :: trace w in
    (settle (reply tr),
     {| now := now w + base + Z.of_N (latency net tr); env := env w; trace := tr |}).

(** A request to a collaborator. *)
Definition request {A} (ev : Event) (reply : list Event -> result A) : M A :=
  perform ev 0 reply.

(** [Date.now()] *)
Definition Date_now : M Z := fun w => (Return (now w), w).

(** [process.env] *)
Definition process_env : M (gmap string string) := fun w => (Return (env w), w).

(** [process.env[name] = value] *)
Definition set_process_env (name value : string) : M unit :=
  fun w => (Return tt, {| now := now w; env := <[name := value]> (env w); trace := trace w |}).

(** [await new Promise(resolve => setTimeout(resolve, ms))] *)
Definition sleep (ms : number) : M unit :=
  perform (SetTimeout ms) (timer_ms ms) (fun _ => Ok tt).

(** [wait(ms)] (src/utils/wait.ts) *)
Definition wait (ms : number) : M unit := sleep ms.

(** [delay(ms)] (src/utils/helpers.ts) *)
Definition delay (ms : number) : M unit := sleep ms.

(** [getWallet()] *)
Definition getWallet : M Wallet :=
  let* e := process_env in
  match e !! "PRIVATE_KEY" with
  | Some k =>
      if Js.truthy k then lift (walletOfSecret js k)
      else throw (mkError "PRIVATE_KEY is not set in .env")
  | None => throw (mkError "PRIVATE_KEY is not set in .env")
  end.

End Effects.

(** ** Transaction sender (src/utils/transactionSender.ts) *)

Record BlockhashWithExpiryBlockHeight : Type := {
  blockhash : string;
  expiryBlockHeight : Z      (* the field [lastValidBlockHeight] *)
}.

Record TransactionSenderAndConfirmationWaiterParams : Type := {
  serializedTransaction : VersionedTransaction;
  blockhashWithExpiryBlockHeight : BlockhashWithExpiryBlockHeight;
  timeoutIn : option Z       (* milliseconds; 60000 when absent *)
}.

(** What the body of a loop iteration does to the enclosing function:
    [Stop r] is a [return r] from inside the loop, [Continue s] falls through
    to the next iteration with loop variables [s]. *)
Inductive step (R S : Type) : Type :=
| Stop (r : R)
| Continue (s : S).

Arguments Stop {R S} r.
Arguments Continue {R S} s.

Section TransactionSender.

Context (js : Runtime) (net : Network).

Section Polling.

Context (transactionSignature : string) (lastValidBlockHeight timeoutAt : Z).

(** The body of the [while] loop: the [try] block and its [catch].
    [transactionResponse] is the loop variable of that name; the [catch]
    block is only reached with the variable null, a non-null assignment
    being followed by [return]. *)
Definition pollOnce (transactionResponse : option VersionedTransactionResponse)
  : M (step (option VersionedTransactionResponse) (option VersionedTransactionResponse)) :=
  try_catch
    (let* transactionResponse :=
       request net (GetTransaction transactionSignature) (getTransaction net) in
     match transactionResponse with
     | Some _ => ret (Stop transactionResponse)
     | None =>
         let* currentBlockHeight := request net GetBlockHeight (getBlockHeight net) in
         if lastValidBlockHeight <? currentBlockHeight then ret (Stop None)
         else (wait net (Int 2000);; ret (Continue transactionResponse))
     end)
    (fun error => wait net (Int 2000);; ret (Continue transactionResponse)).

(** [while (!done && Date.now() < timeoutAt) { ... } return transactionResponse].
    [done] is never assigned and stays [false]. *)
Fixpoint pollLoop (fuel : nat) (transactionResponse : option VersionedTransactionResponse)
  : M (option VersionedTransactionResponse) :=
  match fuel with
  | O => out_of_fuel
  | S fuel' =>
      let done := false in
      let* t := Date_now in
      if negb done && (t <? timeoutAt) then
        let* s := pollOnce transactionResponse in
        match s with
        | Stop r => ret r
        | Continue transactionResponse => pollLoop fuel' transactionResponse
        end
      else ret transactionResponse
  end.

End Polling.

(** Every iteration that does not return waits 2000 ms, so the loop body runs
    at most [timeoutIn / 2000 + 1] times before the clock passes [timeoutAt]. *)
Definition pollFuel (timeoutIn : Z) : nat := Z.to_nat (timeoutIn / 2000) + 2.

Definition transactionSenderAndConfirmationWaiter
    (params : TransactionSenderAndConfirmationWaiterParams)
  : M (option VersionedTransactionResponse) :=
  let timeoutIn := match timeoutIn params with Some t => t | None => 60000 end in
  let* transactionSignature :=
    request net (SendRawTransaction (serializedTransaction params) true)
            (sendRawTransaction net) in
  let* t := Date_now in
  let timeoutAt := t + timeoutIn in
  let transactionResponse := None in
  let lastValidBlockHeight := expiryBlockHeight (blockhashWithExpiryBlockHeight params) in
  let* currentBlockHeight := request net GetBlockHeight (getBlockHeight net) in
  pollLoop transactionSignature lastValidBlockHeight timeoutAt
           (pollFuel timeoutIn) transactionResponse.

End TransactionSender.

(** ** Token utilities (src/utils/tokens.ts) *)

Section Tokens.

Context (js : Runtime) (net : Network).

(** [getTokenDecimals(connection, tokenMint)]; [tokenMint] is the base58 form
    of the [PublicKey] argument.  A [decimals] of 0 is falsy and falls to the
    default. *)
Definition getTokenDecimals (tokenMint : string) : M Z :=
  if String.eqb tokenMint SOL_MINT then ret SOL_DECIMALS
  else
    try_catch
      (let* mintInfo := request net (GetParsedAccountInfo tokenMint) (getParsedAccountInfo net) in
       match mintInfo with
       | Some {| parsedDecimals := Some d |} =>
           if d =? 0 then throw (mkError "Could not parse mint info") else ret d
       | _ => throw (mkError "Could not parse mint info")
       end)
      (fun error => ret 9).

(** [parseFloat(uiAmount?.toString() || "0")]: [parseFloat] inverts
    [toString] on every number, and a null [uiAmount] reads as 0. *)
Definition uiAmountOrZero (uiAmount : option Q) : Q :=
  match uiAmount with
  | Some a => a
  | None => 0%Q
  end.

(** [getTokenBalance(connection, wallet, tokenMint)] *)
Definition getTokenBalance (wallet : Wallet) (tokenMint : string) : M Q :=
  try_catch
    (if String.eqb tokenMint SOL_MINT then
       let* solBalance := request net (GetBalance (publicKey wallet)) (getBalance net) in
       ret (Js.binary64 (inject_Z solBalance / Qpower 10 SOL_DECIMALS))
     else
       let* mint := lift (newPublicKey js tokenMint) in
       let* tokenAccount := lift (getAssociatedTokenAddress js mint (publicKey wallet)) in
       try_catch
         (let* balance :=
            request net (GetTokenAccountBalance tokenAccount) (getTokenAccountBalance net) in
          ret (uiAmountOrZero balance))
         (fun error =>
            if Js.includes (message error) "could not find account" then ret 0%Q
            else throw error))
    (fun error => ret 0%Q).

Section BalanceLoop.

Context (wallet : Wallet) (tokenMint : string) (retries delayMs : number) (initialBalance : Q).

(** [while (attempts < retries && currentBalance === initialBalance) { ... }] *)
Fixpoint balanceLoop (fuel : nat) (currentBalance : Q) (attempts : Z) : M Q :=
  match fuel with
  | O => out_of_fuel
  | S fuel' =>
      if Js.lt (Int attempts) retries && Qeq_bool currentBalance initialBalance then
        delay net delayMs;;
        let* currentBalance := getTokenBalance wallet tokenMint in
        balanceLoop fuel' currentBalance (attempts + 1)
      else ret currentBalance
  end.

End BalanceLoop.

(** The loop body runs at most [retries] times. *)
Definition balanceFuel (retries : number) : nat :=
  match retries with
  | Int r => S (Z.to_nat r)
  | NaN => 1%nat
  end.

(** [waitForBalanceChange(connection, wallet, tokenMint, retries = 5, delayMs = 2000)] *)
Definition waitForBalanceChange (wallet : Wallet) (tokenMint : string)
    (retries delayMs : option number) : M Q :=
  let retries := default (Int 5) retries in
  let delayMs := default (Int 2000) delayMs in
  let* initialBalance := getTokenBalance wallet tokenMint in
  let currentBalance := initialBalance in
  let attempts := 0 in
  balanceLoop wallet tokenMint retries delayMs initialBalance
              (balanceFuel retries) currentBalance attempts.

End Tokens.

(** ** Transaction signatures (src/utils/getSignature.ts) *)

(** The argument of [getSignature]: a legacy [Transaction], whose signature
    slots may be empty, or a [VersionedTransaction]. *)
Inductive AnyTransaction : Type :=
| Legacy (signaturePairs : list (option string))
| Versioned (transaction : VersionedTransaction).

Definition getSignature (transaction : AnyTransaction) : result string :=
  match transaction with
  | Legacy pairs =>
      match pairs with
      | [] => Fail (mkError "Cannot read properties of undefined (reading 'signature')")
      | None :: _ => Fail (mkError "Transaction has no signature")
      | Some signature :: _ => Ok signature
      end
  | Versioned transaction =>
      match signatures transaction with
      | [] => Fail (mkError "Transaction has no signatures")
      | signature :: _ => Ok signature
      end
  end.

(** ** Swap utilities (src/utils/swap.ts) *)

Record SwapOptions : Type := {
  isSell : option bool;
  optIsNewToken : option bool     (* the field [isNewToken] *)
}.

Section Swap.

Context (js : Runtime) (net : Network).

(** [executeSwap(connection, swapResponse, wallet)] *)
Definition executeSwap (swapResponse : SwapResponse) (wallet : Wallet) : M string :=
  let* transaction := lift (deserialize js (swapTransaction swapResponse)) in
  let* transaction := lift (sign js wallet transaction) in
  let* signature := lift (getSignature (Versioned transaction)) in
  let* simulatedTransactionResponse :=
    request net (SimulateTransaction transaction "processed") (simulateTransaction net) in
  match simErr simulatedTransactionResponse with
  | Some _ => throw (mkError "Transaction simulation failed")
  | None =>
      let serializedTransaction := transaction in
      let blockhash := recentBlockhash transaction in
      let* transactionResponse :=
        transactionSenderAndConfirmationWaiter net
          {| serializedTransaction := serializedTransaction;
             blockhashWithExpiryBlockHeight :=
               {| blockhash := blockhash;
                  expiryBlockHeight := lastValidBlockHeight swapResponse |};
             timeoutIn := None |} in
      match transactionResponse with
      | None => throw (mkError "Transaction not confirmed")
      | Some response =>
          match metaErr response with
          | Some _ => throw (mkError "Transaction failed")
          | None => ret signature
          end
      end
  end.

(** [getSwapResponse(wallet, quote, options)] *)
Definition getSwapResponse (wallet : Wallet) (quote : QuoteResponse)
    (options : option SwapOptions) : M SwapResponse :=
  let* e := process_env in
  let config := getConfig js e in
  let isNewToken :=
    match options ≫= optIsNewToken with
    | Some b => b
    | None => bool_decide (NEW_TOKEN_MODE config = Some "true")
    end in
  let priorityFeeLamports :=
    match PRIORITY_FEE_LAMPORTS config with
    | Some v => if Js.truthy v then parseInt js v else Int 10000000
    | None => Int 10000000
    end in
  let priorityLevel := Js.or_else (PRIORITY_LEVEL config) "veryHigh" in
  let slippageBps := calculateSlippage js config isNewToken in
  let extendedSwapRequest :=
    {| quoteResponse := quote;
       userPublicKey := publicKey wallet;
       dynamicComputeUnitLimit := true;
       dynamicSlippage := false;
       asLegacyTransaction := false;
       wrapAndUnwrapSol := true;
       maxLamports := priorityFeeLamports;
       priorityLevel := priorityLevel;
       computeUnitLimit :=
         match COMPUTE_UNIT_LIMIT config with
         | Some v => if Js.truthy v then Some (parseInt js v) else None
         | None => None
         end;
       computeUnitPriceMicroLamports :=
         match COMPUTE_UNIT_PRICE_MICROLAMPORTS config with
         | Some v => if Js.truthy v then Some (parseInt js v) else None
         | None => None
         end |} in
  request net (SwapPost extendedSwapRequest) (swapPost net).

(** [simulateSwap(connection, swapResponse, wallet)] *)
Definition simulateSwap (swapResponse : SwapResponse) (wallet : Wallet) : M unit :=
  let* transaction := lift (deserialize js (swapTransaction swapResponse)) in
  let* transaction := lift (sign js wallet transaction) in
  let* simulatedResponse :=
    request net (SimulateTransaction transaction "confirmed") (simulateTransaction net) in
  match simErr simulatedResponse with
  | Some _ => throw (mkError "Transaction simulation failed")
  | None => ret tt
  end.

Section SwapLoop.

Context (quote : QuoteResponse) (wallet : Wallet) (maxRetries : Z).

(** One iteration of the [for] loop of [executeSwapSafely]. *)
Definition swapAttempt (attempt : Z) (lastError : option Error)
  : M (step string (option Error)) :=
  try_catch
    (let* swapResponse := getSwapResponse wallet quote None in
     simulateSwap swapResponse wallet;;
     let* signature := executeSwap swapResponse wallet in
     ret (Stop signature))
    (fun error =>
       let lastError := Some error in
       if attempt <? maxRetries then
         let delayMs := Z.min (500 * 2 ^ attempt) 2000 in
         delay net (Int delayMs);; ret (Continue lastError)
       else ret (Continue lastError)).

(** [for (let attempt = 1; attempt <= maxRetries; attempt++) { ... }
     throw lastError || new Error("Swap failed after all retries")] *)
Fixpoint swapLoop (fuel : nat) (attempt : Z) (lastError : option Error) : M string :=
  match fuel with
  | O => out_of_fuel
  | S fuel' =>
      if attempt <=? maxRetries then
        let* s := swapAttempt attempt lastError in
        match s with
        | Stop signature => ret signature
        | Continue lastError => swapLoop fuel' (attempt + 1) lastError
        end
      else
        throw (default (mkError "Swap failed after all retries") lastError)
  end.

End SwapLoop.

(** [executeSwapSafely(connection, quote, wallet, maxRetries = 2)] *)
Definition executeSwapSafely (quote : QuoteResponse) (wallet : Wallet)
    (maxRetries : option Z) : M string :=
  let maxRetries := default 2 maxRetries in
  let lastError := None in
  swapLoop quote wallet maxRetries (S (Z.to_nat maxRetries)) 1 lastError.

(** [safeSellAndClose(connection, tokenMint, wallet, isNewToken)] *)
Definition safeSellAndClose (tokenMint : string) (wallet : Wallet)
    (isNewToken : option bool) : M string :=
  try_catch
    (let* tokenBalance := getTokenBalance js net wallet tokenMint in
     if Qle_bool tokenBalance 0 then
       throw (mkError ("No balance available for token " ++ tokenMint))
     else
       let* mint := lift (newPublicKey js tokenMint) in
       let* decimals := getTokenDecimals net mint in
       let amount := Int (Qfloor (Js.times tokenBalance (pow10 js decimals))) in
       let* e := process_env in
       let isNewTokenMode :=
         match isNewToken with
         | Some b => b
         | None => bool_decide (NEW_TOKEN_MODE (getConfig js e) = Some "true")
         end in
       let params :=
         {| inputMint := tokenMint;
            outputMint := SOL_MINT;
            amount := amount;
            slippageBps := calculateSlippage js (getConfig js e) isNewTokenMode |} in
       let* quote := request net (QuoteGet params) (quoteGet net) in
       match quote with
       | None => throw (mkError "Failed to get valid quote for selling")
       | Some q =>
           match outAmount q with
           | None => throw (mkError "Failed to get valid quote for selling")
           | Some out =>
               if negb (Js.truthy out) then
                 throw (mkError "Failed to get valid quote for selling")
               else
                 (* the log line evaluates [BigInt(quote.outAmount)] *)
                 lift (BigInt js out);;
                 executeSwapSafely q wallet (Some 3)
           end
       end)
    (fun error => throw error).

End Swap.

(** ** Trader (src/trader.ts) *)

Section Trader.

Context (js : Runtime) (net : Network).

(** [buy(outputMint, isNewToken)] *)
Definition buy (outputMint : string) (isNewToken : option bool) : M string :=
  let* e := process_env in
  let config := getConfig js e in
  let amountLamports :=
    toLamports js (parseFloat js (if Js.truthy (BUY_AMOUNT_SOL config)
                                  then BUY_AMOUNT_SOL config else "0")) SOL_DECIMALS in
  let* wallet := getWallet js in
  try_catch (lift (newPublicKey js outputMint))
            (fun _ => throw (mkError ("Invalid token mint address: " ++ outputMint)));;
  let newTokenMode :=
    match isNewToken with
    | Some b => b
    | None => bool_decide (NEW_TOKEN_MODE config = Some "true")
    end in
  let params :=
    {| inputMint := SOL_MINT;
       outputMint := outputMint;
       amount := amountLamports;
       slippageBps := calculateSlippage js config newTokenMode |} in
  try_catch
    (let* quote := request net (QuoteGet params) (quoteGet net) in
     (* if (!quote || !quote.outAmount || BigInt(quote.outAmount) <= 0) *)
     match quote with
     | None => throw (mkError "Invalid quote received - possible insufficient liquidity")
     | Some q =>
         match outAmount q with
         | None => throw (mkError "Invalid quote received - possible insufficient liquidity")
         | Some out =>
             if negb (Js.truthy out) then throw (mkError "Invalid quote received - possible insufficient liquidity")
             else
               let* n := lift (BigInt js out) in
               if n <=? 0 then throw (mkError "Invalid quote received - possible insufficient liquidity")
               else
                 lift (newConnection js (RPC_ENDPOINT config));;
                 executeSwapSafely js net q wallet None
         end
     end)
    (fun error => throw error).

(** [sell(inputMint, amount, isNewToken)] *)
Definition sell (inputMint : string) (amount : Q) (isNewToken : option bool) : M string :=
  let* e := process_env in
  let config := getConfig js e in
  let* wallet := getWallet js in
  lift (newConnection js (RPC_ENDPOINT config));;
  let* mint := lift (newPublicKey js inputMint) in
  let* decimals := getTokenDecimals net mint in
  let newTokenMode :=
    match isNewToken with
    | Some b => b
    | None => bool_decide (NEW_TOKEN_MODE config = Some "true")
    end in
  let params :=
    {| inputMint := inputMint;
       outputMint := SOL_MINT;
       amount := toLamports js (Some amount) decimals;
       slippageBps := calculateSlippage js config newTokenMode |} in
  try_catch
    (let* quote := request net (QuoteGet params) (quoteGet net) in
     (* if (!quote || !quote.outAmount || BigInt(quote.outAmount) <= 0) *)
     match quote with
     | None => throw (mkError "Invalid sell quote received - possible insufficient liquidity")
     | Some q =>
         match outAmount q with
         | None => throw (mkError "Invalid sell quote received - possible insufficient liquidity")
         | Some out =>
             if negb (Js.truthy out) then throw (mkError "Invalid sell quote received - possible insufficient liquidity")
             else
               let* n := lift (BigInt js out) in
               if n <=? 0 then throw (mkError "Invalid sell quote received - possible insufficient liquidity")
               else executeSwapSafely js net q wallet None
         end
     end)
    (fun error => throw error).

Section Retry.

Context {T : Type} (fn : M T) (operationName : string)
        (maxRetries initialDelay : Z) (useExponentialBackoff : bool).

(** [initialDelay * Math.pow(2, attempt - 1)], or [initialDelay] *)
Definition retryDelayMs (attempt : Z) : Z :=
  if useExponentialBackoff then initialDelay * 2 ^ (attempt - 1) else initialDelay.

(** One iteration of the [for] loop of [withRetry]. *)
Definition retryAttempt (attempt : Z) (lastError : option Error)
  : M (step T (option Error)) :=
  let delayMs := retryDelayMs attempt in
  try_catch
    (let* result := fn in
     ret (Stop result))
    (fun error =>
       let lastError := Some error in
       let willRetry := attempt <? maxRetries in
       if willRetry then
         sleep net (Int delayMs);;
         ret (Continue lastError)
       else ret (Continue lastError)).

(** [for (let attempt = 1; attempt <= maxRetries; attempt++) { ... }
     throw lastError ?? new Error(`${operationName} failed with unknown error`)] *)
Fixpoint retryLoop (fuel : nat) (attempt : Z) (lastError : option Error) : M T :=
  match fuel with
  | O => out_of_fuel
  | S fuel' =>
      if attempt <=? maxRetries then
        let* s := retryAttempt attempt lastError in
        match s with
        | Stop result => ret result
        | Continue lastError => retryLoop fuel' (attempt + 1) lastError
        end
      else
        throw (default (mkError (operationName ++ " failed with unknown error")) lastError)
  end.

End Retry.

(** [withRetry(fn, operationName = 'Operation', maxRetries = 3,
               initialDelay = 1000, useExponentialBackoff = true)] *)
Definition withRetry {T} (fn : M T) (operationName : option string)
    (maxRetries initialDelay : option Z) (useExponentialBackoff : option bool) : M T :=
  let operationName := default "Operation" operationName in
  let maxRetries := default 3 maxRetries in
  let initialDelay := default 1000 initialDelay in
  let useExponentialBackoff := default true useExponentialBackoff in
  let lastError := None in
  retryLoop fn operationName maxRetries initialDelay useExponentialBackoff
            (S (Z.to_nat maxRetries)) 1 lastError.

(** [buyAndSellFlow(tokenMint, buyAmountSOL)] *)
Definition buyAndSellFlow (tokenMint : string) (buyAmountSOL : option Q) : M unit :=
  try_catch
    (let* wallet := getWallet js in
     let* e := process_env in
     let config := getConfig js e in
     lift (newConnection js (RPC_ENDPOINT config));;
     let isNewToken := bool_decide (NEW_TOKEN_MODE config = Some "true") in
     (* 1. Use safe buy *)
     let originalBuyAmount := BUY_AMOUNT_SOL config in
     match buyAmountSOL with
     | Some x => set_process_env "BUY_AMOUNT_SOL" (numberToString js x)
     | None => ret tt
     end;;
     let* buyTx :=
       try_catch
         (withRetry (buy tokenMint (Some isNewToken))
                    (Some "TokenPurchase") (Some 3) (Some 1000) None)
         (fun error => throw error) in
     match buyAmountSOL with
     | Some _ => set_process_env "BUY_AMOUNT_SOL" originalBuyAmount
     | None => ret tt
     end;;
     (* 2. Wait and check balance *)
     let retryCount :=
       match BALANCE_RETRY_COUNT config with
       | Some v => if Js.truthy v then parseInt js v else Int 5
       | None => Int 5
       end in
     let retryDelay :=
       match BALANCE_RETRY_DELAY_MS config with
       | Some v => if Js.truthy v then parseInt js v else Int 2000
       | None => Int 2000
       end in
     let* purchasedAmount :=
       waitForBalanceChange js net wallet tokenMint (Some retryCount) (Some retryDelay) in
     (* 3. Wait for sell delay *)
     let sellDelaySeconds :=
       match SELL_DELAY_SECONDS config with
       | Some v => if Js.truthy v then parseInt js v else Int 60
       | None => Int 60
       end in
     delay net (Js.mul sellDelaySeconds (Int 1000));;
     (* 4. Sell all tokens and close account (with retry) *)
     let* sellTx :=
       try_catch
         (withRetry (safeSellAndClose js net tokenMint wallet (Some isNewToken))
                    (Some "TokenSell") (Some 5) (Some 1000) (Some true))
         (fun error => throw error) in
     ret tt)
    (fun error => throw error).

End Trader.

(** ** Observations on runs *)

(** The result and the final world of a computation started in [w]. *)
Definition result_of {A} (m : M A) (w : World) : outcome A := fst (m w).
Definition world_after {A} (m : M A) (w : World) : World := snd (m w).

Definition is_broadcast (ev : Event) : bool :=
  match ev with
  | SendRawTransaction _ _ => true
  | _ => false
  end.

Definition is_timer (ev : Event) : bool :=
  match ev with
  | SetTimeout _ => true
  | _ => false
  end.

Definition is_quote_request (ev : Event) : bool :=
  match ev with
  | QuoteGet _ => true
  | _ => false
  end.

Definition is_swap_build (ev : Event) : bool :=
  match ev with
  | SwapPost _ => true
  | _ => false
  end.

Definition is_decimals_fetch (ev : Event) : bool :=
  match ev with
  | GetParsedAccountInfo _ => true
  | _ => false
  end.

(** A read of a balance: the only requests [getTokenBalance] makes. *)
Definition is_balance_read (ev : Event) : bool :=
  match ev with
  | GetBalance _ | GetTokenAccountBalance _ => true
  | _ => false
  end.

Definition timer_of (ev : Event) : option number :=
  match ev with
  | SetTimeout ms => Some ms
  | _ => None
  end.

(** The delays of the timers armed in a history, oldest first. *)
Definition timers (tr : list Event) : list number := rev (omap timer_of tr).

(** The broadcasts in a history. *)
Definition broadcasts (tr : list Event) : list Event := filter (fun ev => is_broadcast ev = true) tr.

Section PollingRuns.

Context (net : Network)
        (transactionSignature : string) (lastValidBlockHeight timeoutAt : Z).

(** The state of the polling loop after [k] iterations that each passed the
    loop test and fell through to the next one, if the run goes that way. *)
Fixpoint pollsInconclusive (k : nat)
    (transactionResponse : option VersionedTransactionResponse) (w : World)
  : option (option VersionedTransactionResponse * World) :=
  match k with
  | O => Some (transactionResponse, w)
  | S k' =>
      if now w <? timeoutAt then
        match pollOnce net transactionSignature lastValidBlockHeight transactionResponse w with
        | (Return (Continue r), w') => pollsInconclusive k' r w'
        | _ => None
        end
      else None
  end.

End PollingRuns.

(** The world in which the polling loop of the sender starts: after the
    broadcast and the first reading of the block height. *)
Definition afterBroadcast (net : Network)
    (params : TransactionSenderAndConfirmationWaiterParams) (w : World) : World :=
  world_after (request net GetBlockHeight (getBlockHeight net))
    (world_after (request net (SendRawTransaction (serializedTransaction params) true)
                          (sendRawTransaction net)) w).

(** [timeoutAt] of a call started in [w]: the clock after the broadcast plus
    [timeoutIn]. *)
Definition timeoutAtOf (net : Network)
    (params : TransactionSenderAndConfirmationWaiterParams) (w : World) : Z :=
  now (world_after (request net (SendRawTransaction (serializedTransaction params) true)
                            (sendRawTransaction net)) w)
  + default 60000 (timeoutIn params).

(** The parameters with which [executeSwap] calls the sender for the signed
    transaction [transaction]. *)
Definition senderParamsOf (swapResponse : SwapResponse) (transaction : VersionedTransaction)
  : TransactionSenderAndConfirmationWaiterParams :=
  {| serializedTransaction := transaction;
     blockhashWithExpiryBlockHeight :=
       {| blockhash := recentBlockhash transaction;
          expiryBlockHeight := lastValidBlockHeight swapResponse |};
     timeoutIn := None |}.

(** The quote requests and the fetches of a mint's decimals in a history. *)
Definition quoteRequests (tr : list Event) : list Event :=
  filter (fun ev => is_quote_request ev = true) tr.
Definition decimalsFetches (tr : list Event) : list Event :=
  filter (fun ev => is_decimals_fetch ev = true) tr.
Definition swapBuilds (tr : list Event) : list Event :=
  filter (fun ev => is_swap_build ev = true) tr.

(** The read of the balance that [getTokenBalance] attempts in [w] fails:
    the RPC call rejects (a missing token account is one such rejection), or
    the mint or the token account address cannot be formed. *)
Definition balanceReadFails (js : Runtime) (net : Network) (wallet : Wallet)
    (tokenMint : string) (w : World) : Prop :=
  if String.eqb tokenMint SOL_MINT then
    exists e, getBalance net (GetBalance (publicKey wallet) :: trace w) = Fail e
  else
    match newPublicKey js tokenMint with
    | Fail _ => True
    | Ok mint =>
        match getAssociatedTokenAddress js mint (publicKey wallet) with
        | Fail _ => True
        | Ok tokenAccount =>
            exists e,
              getTokenAccountBalance net (GetTokenAccountBalance tokenAccount :: trace w)
              = Fail e
        end
    end.

(** A computation that leaves [process.env] as it found it. *)
Definition keeps_env {A} (m : M A) : Prop := forall w, env (world_after m w) = env w.

(** A computation whose loops all end within the fuel the model gives them. *)
Definition within_fuel {A} (m : M A) : Prop := forall w, result_of m w <> OutOfFuel.

(** The buy amount that [getConfig] reads in a world. *)
Definition configuredBuyAmount (js : Runtime) (w : World) : string :=
  BUY_AMOUNT_SOL (getConfig js (env w)).

(** The world of the buy step of [buyAndSellFlow] under an override. *)
Definition withBuyAmount (js : Runtime) (buyAmountSOL : Q) (w : World) : World :=
  world_after (set_process_env "BUY_AMOUNT_SOL" (numberToString js buyAmountSOL)) w.

(** The buy step of [buyAndSellFlow] started in [w]: [withRetry] around [buy],
    with the new-token flag read from the configuration of [w]. *)
Definition buyStep (js : Runtime) (net : Network) (tokenMint : string) (w : World) : M string :=
  withRetry net
    (buy js net tokenMint
         (Some (bool_decide (NEW_TOKEN_MODE (getConfig js (env w)) = Some "true"))))
    (Some "TokenPurchase") (Some 3) (Some 1000) None.

(** The quote request of [buy] in a process with environment [e]. *)
Definition buyQuoteRequest (js : Runtime) (e : gmap string string) (outputMint : string)
    (isNewToken : option bool) : QuoteGetRequest :=
  {| inputMint := SOL_MINT;
     outputMint := outputMint;
     amount := toLamports js (parseFloat js (if Js.truthy (BUY_AMOUNT_SOL (getConfig js e))
                                             then BUY_AMOUNT_SOL (getConfig js e) else "0"))
                          SOL_DECIMALS;
     slippageBps :=
       calculateSlippage js (getConfig js e)
         (match isNewToken with
          | Some b => b
          | None => bool_decide (NEW_TOKEN_MODE (getConfig js e) = Some "true")
          end) |}.

(** The sell-all quote request of [safeSellAndClose] for a balance and a
    number of decimals. *)
Definition sellAllQuoteRequest (js : Runtime) (e : gmap string string) (tokenMint : string)
    (isNewToken : option bool) (tokenBalance : Q) (decimals : Z) : QuoteGetRequest :=
  {| inputMint := tokenMint;
     outputMint := SOL_MINT;
     amount := Int (Qfloor (Js.times tokenBalance (pow10 js decimals)));
     slippageBps :=
       calculateSlippage js (getConfig js e)
         (match isNewToken with
          | Some b => b
          | None => bool_decide (NEW_TOKEN_MODE (getConfig js e) = Some "true")
          end) |}.

(** The error with which [buy] rejects a quote. *)
Definition invalidQuote : Error :=
  mkError "Invalid quote received - possible insufficient liquidity".

(** The error with which [safeSellAndClose] rejects an empty holding. *)
Definition noBalance (tokenMint : string) : Error :=
  mkError ("No balance available for token " ++ tokenMint).

(** One more sample of the balance watcher: the delay, then the read. *)
Definition resample (js : Runtime) (net : Network) (wallet : Wallet) (tokenMint : string)
    (delayMs : number) (w : World) : World :=
  world_after (getTokenBalance js net wallet tokenMint) (world_after (delay net delayMs) w).

Section RetryRuns.

Context {T : Type} (net : Network) (fn : M T).

(** The run in which [fn] is invoked once, fails, and then, for each delay of
    [delays] in turn, a timer of that delay is awaited and [fn] is invoked
    again and fails: [length delays + 1] invocations, no wait after the last.
    The result is the list of the errors thrown, in order, and the final
    world; [None] if some invocation does not fail. *)
Fixpoint failingAttempts (delays : list Z) (w : World) : option (list Error * World) :=
  match fn w with
  | (Throw e, w1) =>
      match delays with
      | [] => Some ([e], w1)
      | d :: delays' =>
          match failingAttempts delays' (world_after (sleep net (Int d)) w1) with
          | Some (errors, w') => Some (e :: errors, w')
          | None => None
          end
      end
  | _ => None
  end.

End RetryRuns.

(** The delays [initialDelay * 2^(attempt-1)] for the attempts
    [1 .. maxAttempts - 1]. *)
Definition backoffDelays (initialDelay maxAttempts : Z) : list Z :=
  (fun attempt => initialDelay * 2 ^ (attempt - 1)) <$> seqZ 1 (maxAttempts - 1).

(** The world in which [executeSwap] calls the sender: after the simulation
    of the signed transaction. *)
Definition afterSimulation (net : Network) (transaction : VersionedTransaction) (w : World)
  : World :=
  world_after (request net (SimulateTransaction transaction "processed")
                       (simulateTransaction net)) w.

(** ** Scenarios: concrete configurations, collaborators and worlds *)

(** The token of the scenarios: the mint of USDC, a well-formed address. *)
Definition USDC_MINT : string := "EPjFWdd5AufqSSqeM2qN1xzybapC8G4wEGGkZwyTDt1v".

(** The key pair of the scenarios: the secret key of the seed 01 02 .. 20
    (hexadecimal) in base58, and the address of its public key. *)
Definition TEST_SECRET_KEY : string :=
  "2Ana1pUpv2ZbMVkwF5FXapYeBEjdxDatLn7nvJkhgTSdZd8hbDHTd21as7EAsg7ypityqfsw2pMQKJcVDVcAEsd".
Definition TEST_PUBLIC_KEY : string := "9C6hybhQ6Aycep9jaUnP6uL9ZYvDjUp1aSkFWPUFJtpj".

Module Scenario.

(** A runtime for the scenarios: numerals are read by table, and the only
    addresses and keys it accepts are those of the scenarios. *)
Definition js : Runtime :=
  {| parseInt := fun s =>
       if String.eqb s "100" then Int 100
       else if String.eqb s "200" then Int 200
       else if String.eqb s "5" then Int 5
       else if String.eqb s "500" then Int 500
       else if String.eqb s "1000" then Int 1000
       else if String.eqb s "5000" then Int 5000
       else NaN;
     parseFloat := fun s =>
       if String.eqb s "0.1" then Some (1 # 10)%Q
       else if String.eqb s "0.5" then Some (1 # 2)%Q
       else if String.eqb s "0" then Some 0%Q
       else None;
     numberToString := fun q =>
       if Qeq_bool q (1 # 2) then "0.5"
       else if Qeq_bool q (1 # 10) then "0.1"
       else "0";
     BigInt := fun s =>
       if String.eqb s "0" then Ok 0
       else if String.eqb s "500000" then Ok 500000
       else Fail (mkError "Cannot convert to a BigInt");
     newPublicKey := fun s =>
       if String.eqb s SOL_MINT || String.eqb s USDC_MINT
       then Ok s
       else Fail (mkError "Invalid public key input");
     walletOfSecret := fun s =>
       if String.eqb s TEST_SECRET_KEY then Ok {| publicKey := TEST_PUBLIC_KEY |}
       else Fail (mkError "bad secret key size");
     deserialize := fun s =>
       Ok {| txMessage := s; recentBlockhash := "hash"; signatures := [] |};
     sign := fun wallet tx =>
       Ok {| txMessage := txMessage tx;
                 recentBlockhash := recentBlockhash tx;
                 signatures := ["sig"] |};
     getAssociatedTokenAddress := fun mint owner => Ok (owner ++ "/" ++ mint);
     newConnection := fun endpoint =>
       if String.prefix "http:" endpoint || String.prefix "https:" endpoint then Ok tt
       else Fail (mkError "Endpoint URL must start with `http:` or `https:`.");
     Math_pow10 := fun d => Js.binary64 (Qpower 10 d) |}.

(** Only [MAX_SLIPPAGE_BPS=500] is set: the other slippage values take the
    defaults of [getConfig] (base 200, multiplier 5, minimum 1000). *)
Definition env_max_below_min : gmap string string :=
  {[ "MAX_SLIPPAGE_BPS" := "500" ]}.

(** The defaults of [getConfig]. *)
Definition env_defaults : gmap string string := ∅.

Definition config_max_below_min : EnvConfig := getConfig js env_max_below_min.
Definition config_defaults : EnvConfig := getConfig js env_defaults.

(** Collaborators given by their replies to quotes, simulations, transaction
    lookups, height readings and balance reads; broadcasts and swap builds
    succeed, and every event takes 5 ms beyond its timer. *)
Definition network
    (quote : list Event -> result (option QuoteResponse))
    (simulation : option TransactionError)
    (lookup : list Event -> result (option VersionedTransactionResponse))
    (height : list Event -> result Z)
    (balance : list Event -> result (option Q)) : Network :=
  {| quoteGet := quote;
     swapPost := fun _ => Ok {| swapTransaction := "c3dhcA=="; lastValidBlockHeight := 100 |};
     simulateTransaction := fun _ => Ok {| simErr := simulation; simLogs := [] |};
     sendRawTransaction := fun _ => Ok "5ig";
     getBlockHeight := height;
     getTransaction := lookup;
     getBalance := fun _ => Ok 1000000000;
     getTokenAccountBalance := balance;
     getParsedAccountInfo := fun _ => Ok (Some {| parsedDecimals := Some 6 |});
     latency := fun _ => 5%N |}.

Definition no_quote : list Event -> result (option QuoteResponse) :=
  fun _ => Fail (mkError "Response returned an error code").
Definition never_found : list Event -> result (option VersionedTransactionResponse) :=
  fun _ => Ok None.
Definition no_tokens : list Event -> result (option Q) := fun _ => Ok (Some 0%Q).

(** The ledger is at height [96 + n] after [n] events. *)
Definition rising_height : list Event -> result Z :=
  fun tr => Ok (96 + Z.of_nat (length tr)).
Definition steady_height : list Event -> result Z := fun _ => Ok 90.

(** The transaction is never found and the ledger passes height 100 during
    the second poll. *)
Definition net_expiring : Network :=
  network no_quote None never_found rising_height no_tokens.

(** The transaction is found at the second lookup, failed on chain. *)
Definition failed_on_chain : VersionedTransactionResponse :=
  {| slot := 7; metaErr := Some (TxError "InstructionError") |}.
Definition found_second : list Event -> result (option VersionedTransactionResponse) :=
  fun tr => if (length tr <=? 4)%nat then Ok None else Ok (Some failed_on_chain).
Definition net_failed_on_chain : Network :=
  network no_quote None found_second steady_height no_tokens.

(** The simulation reports an error. *)
Definition net_simulation_error : Network :=
  network no_quote (Some (TxError "InsufficientFundsForFee"))
          never_found steady_height no_tokens.

Definition swap_response : SwapResponse :=
  {| swapTransaction := "c3dhcA=="; lastValidBlockHeight := 100 |}.
Definition unsigned_transaction : VersionedTransaction :=
  {| txMessage := "c3dhcA=="; recentBlockhash := "hash"; signatures := [] |}.
Definition signed_transaction : VersionedTransaction :=
  {| txMessage := "c3dhcA=="; recentBlockhash := "hash"; signatures := ["sig"] |}.
Definition wallet : Wallet := {| publicKey := TEST_PUBLIC_KEY |}.

Definition sender_params : TransactionSenderAndConfirmationWaiterParams :=
  senderParamsOf swap_response signed_transaction.

(** The wallet holds half a token and the balance never changes. *)
Definition half_a_token : list Event -> result (option Q) := fun _ => Ok (Some (1 # 2)%Q).
Definition net_steady_balance : Network :=
  network no_quote None never_found steady_height half_a_token.

(** The balance cannot be read: the RPC endpoint rejects the request. *)
Definition rpc_down : list Event -> result (option Q) :=
  fun _ => Fail (mkError "429 Too Many Requests").
Definition net_balance_unreadable : Network :=
  network no_quote None never_found steady_height rpc_down.

(** A quote whose output amount is zero, and one that pays 500000 units. *)
Definition quote_of (out : string) : QuoteResponse :=
  {| quoteInputMint := USDC_MINT; quoteOutputMint := SOL_MINT; inAmount := "500000";
     outAmount := Some out; priceImpactPct := "0" |}.
Definition zero_quote : list Event -> result (option QuoteResponse) :=
  fun _ => Ok (Some (quote_of "0")).
Definition good_quote : list Event -> result (option QuoteResponse) :=
  fun _ => Ok (Some (quote_of "500000")).

(** Every transaction is found at the first lookup, executed without error. *)
Definition landed : VersionedTransactionResponse := {| slot := 7; metaErr := None |}.
Definition found_at_once : list Event -> result (option VersionedTransactionResponse) :=
  fun _ => Ok (Some landed).

(** The wallet holds half a token, every swap lands, and the quoting service
    answers a sell-all request with an output amount of 0. *)
Definition net_zero_quote : Network :=
  network zero_quote None found_at_once steady_height half_a_token.

(** Everything works: quotes pay, swaps land, the wallet holds half a token. *)
Definition net_working : Network :=
  network good_quote None found_at_once steady_height half_a_token.

(** An operation that fails on every invocation: a quote request to a
    service that rejects every request. *)
Definition quote_params : QuoteGetRequest :=
  {| inputMint := SOL_MINT; outputMint := USDC_MINT; amount := Int 100000000;
     slippageBps := Int 100 |}.
Definition failing_operation : M (option QuoteResponse) :=
  request net_expiring (QuoteGet quote_params) (quoteGet net_expiring).

(** A fresh process at time 0 with a key and a buy amount of 0.1 SOL. *)
Definition world0 : World :=
  {| now := 0;
     env := {[ "PRIVATE_KEY" := TEST_SECRET_KEY; "BUY_AMOUNT_SOL" := "0.1" ]};
     trace := [] |}.

End Scenario.

(** ** Availability probe (src/trader.ts) *)

Section Availability.

Context (js : Runtime) (net : Network).

Definition maxRetryDurationMs : Z := 60 * 1000.
Definition retryIntervalMs : Z := 1000.

(** The quote request of the probe: 0.01 SOL for the mint, with the whole
    price as slippage tolerance. *)
Definition probeRequest (mintAddress : string) : QuoteGetRequest :=
  {| inputMint := SOL_MINT;
     outputMint := mintAddress;
     amount := toLamports js (Some (1 # 100)%Q) SOL_DECIMALS;
     slippageBps := Int 10000 |}.

Section Probing.

Context (mintAddress : string) (startTime : Z).

(** The body of the [while] loop of [checkTokenAvailability]. *)
Definition probeOnce : M (step bool unit) :=
  try_catch
    (let* response := request net (QuoteGet (probeRequest mintAddress)) (quoteGet net) in
     match response with
     | None => ret (Stop false)
     | Some _ => ret (Stop true)
     end)
    (fun error =>
       let* t := Date_now in
       if t - startTime + retryIntervalMs <? maxRetryDurationMs then
         delay net (Int retryIntervalMs);; ret (Continue tt)
       else ret (Continue tt)).

(** [while (Date.now() - startTime < maxRetryDurationMs) { attempt++; ... }
     return false] *)
Fixpoint availabilityLoop (fuel : nat) (attempt : Z) : M bool :=
  match fuel with
  | O => out_of_fuel
  | S fuel' =>
      let* t := Date_now in
      if t - startTime <? maxRetryDurationMs then
        let attempt := attempt + 1 in
        let* s := probeOnce in
        match s with
        | Stop available => ret available
        | Continue _ => availabilityLoop fuel' attempt
        end
      else ret false
  end.

End Probing.

(** Every iteration makes a request; when each request takes at least a
    millisecond the loop body runs at most [maxRetryDurationMs] times. *)
Definition availabilityFuel : nat := S (Z.to_nat maxRetryDurationMs).

(** [checkTokenAvailability(mintAddress)] *)
Definition checkTokenAvailability (mintAddress : string) : M bool :=
  let* startTime := Date_now in
  let attempt := 0 in
  availabilityLoop mintAddress startTime availabilityFuel attempt.

(** [checkAndBuy(newTokenMint)] *)
Definition checkAndBuy (newTokenMint : string) : M unit :=
  try_catch
    (let* isAvailable := checkTokenAvailability newTokenMint in
     if isAvailable then buyAndSellFlow js net newTokenMint None
     else ret tt)
    (fun error => ret tt).

End Availability.

(** ** Further observations on runs *)

(** A computation that leaves every variable of [process.env] other than
    [name] as it was. *)
Definition keeps_env_but (name : string) {A} (m : M A) : Prop :=
  forall w key, key <> name -> env (world_after m w) !! key = env w !! key.

(** A computation that only adds events satisfying [P] to the history. *)
Definition adds_only {A} (P : Event -> bool) (m : M A) : Prop :=
  forall w, exists evs, trace (world_after m w) = (evs ++ trace w)%list
                        /\ Forall (fun ev => P ev = true) evs.

Definition is_lookup (ev : Event) : bool :=
  match ev with
  | GetTransaction _ => true
  | _ => false
  end.

(** The transaction lookups in a history. *)
Definition lookups (tr : list Event) : list Event := filter (fun ev => is_lookup ev = true) tr.

(** The events the sender makes for a transaction. *)
Definition is_sender_event (ev : Event) : bool :=
  match ev with
  | SendRawTransaction _ _ | GetBlockHeight | GetTransaction _ | SetTimeout _ => true
  | _ => false
  end.

(** The events of the sender's polling: everything but the broadcast. *)
Definition is_poll_event (ev : Event) : bool :=
  match ev with
  | GetBlockHeight | GetTransaction _ | SetTimeout _ => true
  | _ => false
  end.

(** The events of one swap attempt: build, simulate, and the sender's. *)
Definition is_swap_event (ev : Event) : bool :=
  match ev with
  | SwapPost _ | SimulateTransaction _ _ => true
  | _ => is_sender_event ev
  end.

(** The events of the balance watcher. *)
Definition is_watch_event (ev : Event) : bool :=
  match ev with
  | SetTimeout _ => true
  | _ => is_balance_read ev
  end.

(** The events of the availability probe for a mint. *)
Definition is_probe_event (mintAddress : string) (ev : Event) : bool :=
  match ev with
  | QuoteGet params =>
      String.eqb (inputMint params) SOL_MINT && String.eqb (outputMint params) mintAddress
      && match amount params, slippageBps params with
         | Int a, Int s => (a =? 10000000) && (s =? 10000)
         | _, _ => false
         end
  | SetTimeout (Int ms) => ms =? 1000
  | _ => false
  end.

(** The body of an attempt of [executeSwapSafely]: a fresh swap response, its
    simulation, its execution. *)
Definition swapTry (js : Runtime) (net : Network) (quote : QuoteResponse) (wallet : Wallet)
  : M string :=
  let* swapResponse := getSwapResponse js net wallet quote None in
  simulateSwap js net swapResponse wallet;;
  executeSwap js net swapResponse wallet.

(** The delays [Math.min(500 * 2^attempt, 2000)] for the attempts
    [1 .. maxRetries - 1]. *)
Definition swapDelays (maxRetries : Z) : list Z :=
  (fun attempt => Z.min (500 * 2 ^ attempt) 2000) <$> seqZ 1 (maxRetries - 1).

Section RetrySuccess.

Context {T : Type} (net : Network) (fn : M T).

(** The run in which, for each delay of [delays] in turn, [fn] is invoked and
    fails and a timer of that delay is awaited, and [fn] is then invoked once
    more and returns: the result is the value returned and the final world. *)
Fixpoint succeedsAfter (delays : list Z) (w : World) : option (T * World) :=
  match delays with
  | [] =>
      match fn w with
      | (Return x, w') => Some (x, w')
      | _ => None
      end
  | d :: delays' =>
      match fn w with
      | (Throw e, w1) => succeedsAfter delays' (world_after (sleep net (Int d)) w1)
      | _ => None
      end
  end.

End RetrySuccess.

Section WatcherRuns.

Context (js : Runtime) (net : Network) (wallet : Wallet) (tokenMint : string)
        (delayMs : number) (initialBalance : Q).

(** The world after [k] further samples of the watcher that each read the
    initial balance again, if the run goes that way. *)
Fixpoint samplesUnchanged (k : nat) (w : World) : option World :=
  match k with
  | O => Some w
  | S k' =>
      match getTokenBalance js net wallet tokenMint (world_after (delay net delayMs) w) with
      | (Return b, w') =>
          if Qeq_bool b initialBalance then samplesUnchanged k' w' else None
      | _ => None
      end
  end.

End WatcherRuns.

Section ProbeRuns.

Context (js : Runtime) (net : Network) (mintAddress : string) (startTime : Z).

(** The world after [k] probes that each passed the loop test and failed, if
    the run goes that way. *)
Fixpoint probesFailed (k : nat) (w : World) : option World :=
  match k with
  | O => Some w
  | S k' =>
      if now w - startTime <? maxRetryDurationMs then
        match probeOnce js net mintAddress startTime w with
        | (Return (Continue _), w') => probesFailed k' w'
        | _ => None
        end
      else None
  end.

End ProbeRuns.

(** A quote reply that [buy] and [sell] reject: no route, no output amount,
    or an output amount that is not positive. *)
Definition quoteRejected (js : Runtime) (quote : option QuoteResponse) : Prop :=
  match quote with
  | None => True
  | Some q =>
      match outAmount q with
      | None => True
      | Some out => Js.truthy out = false \/ exists n, BigInt js out = Ok n /\ n <= 0
      end
  end.

(** A quote reply that [safeSellAndClose] rejects as such: no route, or no
    output amount. *)
Definition quoteMissing (quote : option QuoteResponse) : Prop :=
  match quote with
  | None => True
  | Some q =>
      match outAmount q with
      | None => True
      | Some out => Js.truthy out = false
      end
  end.

(** The quote request of [sell] for an amount and a number of decimals. *)
Definition sellQuoteRequest (js : Runtime) (e : gmap string string) (inputMint : string)
    (isNewToken : option bool) (amount : Q) (decimals : Z) : QuoteGetRequest :=
  {| inputMint := inputMint;
     outputMint := SOL_MINT;
     amount := toLamports js (Some amount) decimals;
     slippageBps :=
       calculateSlippage js (getConfig js e)
         (match isNewToken with
          | Some b => b
          | None => bool_decide (NEW_TOKEN_MODE (getConfig js e) = Some "true")
          end) |}.

(** The error with which [sell] rejects a quote, and the one with which
    [safeSellAndClose] does. *)
Definition invalidSellQuote : Error :=
  mkError "Invalid sell quote received - possible insufficient liquidity".
Definition noSellQuote : Error := mkError "Failed to get valid quote for selling".

(** The error of [getWallet] without a key. *)
Definition noPrivateKey : Error := mkError "PRIVATE_KEY is not set in .env".

(** ** Further scenarios *)

Module Cases.

(** A process without a private key. *)
Definition world_no_key : World := {| now := 0; env := ∅; trace := [] |}.

(** The quoting service finds no route. *)
Definition no_route : list Event -> result (option QuoteResponse) := fun _ => Ok None.
Definition net_no_route : Network :=
  Scenario.network no_route None Scenario.never_found Scenario.steady_height
                   Scenario.half_a_token.

(** The RPC endpoint accepts broadcasts but rejects height readings. *)
Definition height_unreadable : list Event -> result Z :=
  fun _ => Fail (mkError "503 Service Unavailable").
Definition net_height_unreadable : Network :=
  Scenario.network Scenario.no_quote None Scenario.never_found height_unreadable
                   Scenario.no_tokens.

(** The RPC endpoint rejects the broadcast. *)
Definition net_broadcast_rejected : Network :=
  {| quoteGet := Scenario.no_quote;
     swapPost := fun _ => Ok Scenario.swap_response;
     simulateTransaction := fun _ => Ok {| simErr := None; simLogs := [] |};
     sendRawTransaction := fun _ => Fail (mkError "Transaction too large");
     getBlockHeight := Scenario.steady_height;
     getTransaction := Scenario.never_found;
     getBalance := fun _ => Ok 0;
     getTokenAccountBalance := Scenario.no_tokens;
     getParsedAccountInfo := fun _ => Ok None;
     latency := fun _ => 5%N |}.

(** The quoting service rejects the first request and answers the later
    ones. *)
Definition flaky_quote : list Event -> result (option QuoteResponse) :=
  fun tr => if (length tr <=? 1)%nat then Fail (mkError "Response returned an error code")
            else Ok (Some (Scenario.quote_of "500000")).
Definition net_flaky_quote : Network :=
  Scenario.network flaky_quote None Scenario.found_at_once Scenario.steady_height
                   Scenario.half_a_token.
Definition flaky_operation : M (option QuoteResponse) :=
  request net_flaky_quote (QuoteGet Scenario.quote_params) (quoteGet net_flaky_quote).

(** A runtime whose [sign] leaves the transaction without a signature. *)
Definition js_unsigned : Runtime :=
  {| parseInt := parseInt Scenario.js;
     parseFloat := parseFloat Scenario.js;
     numberToString := numberToString Scenario.js;
     BigInt := BigInt Scenario.js;
     newPublicKey := newPublicKey Scenario.js;
     walletOfSecret := walletOfSecret Scenario.js;
     deserialize := deserialize Scenario.js;
     sign := fun wallet tx => Ok tx;
     getAssociatedTokenAddress := getAssociatedTokenAddress Scenario.js;
     newConnection := newConnection Scenario.js;
     Math_pow10 := Math_pow10 Scenario.js |}.

(** The buy amount is no numeral. *)
Definition world_bad_amount : World :=
  {| now := 0;
     env := {[ "PRIVATE_KEY" := TEST_SECRET_KEY; "BUY_AMOUNT_SOL" := "a lot" ]};
     trace := [] |}.

(** The purchased half token shows up at the third read of the balance. *)
Definition arriving : list Event -> result (option Q) :=
  fun tr => if (length tr <=? 3)%nat then Ok (Some 0%Q) else Ok (Some (1 # 2)%Q).
Definition net_arriving : Network :=
  Scenario.network Scenario.no_quote None Scenario.never_found Scenario.steady_height arriving.

End Cases.

(** * Properties *)

Local Open Scope list_scope.

(** ** Slippage policy *)

(** The two clamping orders agree when the bounds are ordered. *)
Lemma clamp_orders_agree (p lo hi : number) :
  Js.le lo hi = true ->
  Js.max (Js.min p hi) lo = Js.min (Js.max p lo) hi.
Proof.
  destruct p as [|p], lo as [|lo], hi as [|hi]; simpl; try discriminate; try reflexivity.
  intros H%Z.leb_le.
  destruct (Z.leb_spec p hi), (Z.leb_spec lo p); simpl;
    repeat match goal with
           | |- context [Z.leb ?a ?b] => destruct (Z.leb_spec a b)
           end; try reflexivity; try lia; f_equal; lia.
Qed.

Lemma clamp_above (p lo hi : number) :
  Js.le lo hi = true -> Js.gt p hi = true -> Js.max (Js.min p hi) lo = hi.
Proof.
  destruct p as [|p], lo as [|lo], hi as [|hi]; simpl; try discriminate.
  intros H1%Z.leb_le H2%Z.ltb_lt.
  destruct (Z.leb_spec p hi); [lia|]. simpl.
  destruct (Z.leb_spec lo hi); [reflexivity | lia].
Qed.

Lemma clamp_below (p lo hi : number) :
  Js.le lo hi = true -> Js.lt p lo = true -> Js.max (Js.min p hi) lo = lo.
Proof.
  destruct p as [|p], lo as [|lo], hi as [|hi]; simpl; try discriminate.
  intros H1%Z.leb_le H2%Z.ltb_lt.
  destruct (Z.leb_spec p hi); simpl.
  - destruct (Z.leb_spec lo p); [lia | reflexivity].
  - lia.
Qed.

Lemma clamp_within (p lo hi : number) :
  Js.le lo hi = true -> Js.gt p hi = false -> Js.lt p lo = false ->
  Js.max (Js.min p hi) lo = p.
Proof.
  destruct p as [|p], lo as [|lo], hi as [|hi]; simpl; try discriminate; try reflexivity.
  intros H1%Z.leb_le H2%Z.ltb_ge H3%Z.ltb_ge.
  destruct (Z.leb_spec p hi); [|lia]. simpl.
  destruct (Z.leb_spec lo p); [reflexivity | lia].
Qed.

(** C4, as amended.  In new-token mode [calculateSlippage] is the product
    [BASE_SLIPPAGE_BPS * NEW_TOKEN_SLIPPAGE_MULTIPLIER] clamped with the upper
    bound applied first and the lower bound second,
    [max(min(product, MAX_SLIPPAGE_BPS), MIN_SLIPPAGE_BPS)].  Whenever
    [MIN_SLIPPAGE_BPS <= MAX_SLIPPAGE_BPS] this is the clamp
    [min(max(product, MIN_SLIPPAGE_BPS), MAX_SLIPPAGE_BPS)]: the result is
    [MAX_SLIPPAGE_BPS] when the product exceeds it, [MIN_SLIPPAGE_BPS] when the
    product is below it, and the product itself otherwise. *)
Theorem calculateSlippage_new_token_clamp (js : Runtime) (config : EnvConfig) :
  calculateSlippage js config true
  = Js.max (Js.min (Js.mul (BASE_SLIPPAGE_BPS config) (NEW_TOKEN_SLIPPAGE_MULTIPLIER config))
                   (MAX_SLIPPAGE_BPS config))
           (MIN_SLIPPAGE_BPS config)
  /\ (Js.le (MIN_SLIPPAGE_BPS config) (MAX_SLIPPAGE_BPS config) = true ->
      calculateSlippage js config true
      = Js.min (Js.max (Js.mul (BASE_SLIPPAGE_BPS config) (NEW_TOKEN_SLIPPAGE_MULTIPLIER config))
                       (MIN_SLIPPAGE_BPS config))
               (MAX_SLIPPAGE_BPS config)
      /\ (Js.gt (Js.mul (BASE_SLIPPAGE_BPS config) (NEW_TOKEN_SLIPPAGE_MULTIPLIER config))
                (MAX_SLIPPAGE_BPS config) = true ->
          calculateSlippage js config true = MAX_SLIPPAGE_BPS config)
      /\ (Js.lt (Js.mul (BASE_SLIPPAGE_BPS config) (NEW_TOKEN_SLIPPAGE_MULTIPLIER config))
                (MIN_SLIPPAGE_BPS config) = true ->
          calculateSlippage js config true = MIN_SLIPPAGE_BPS config)
      /\ (Js.gt (Js.mul (BASE_SLIPPAGE_BPS config) (NEW_TOKEN_SLIPPAGE_MULTIPLIER config))
                (MAX_SLIPPAGE_BPS config) = false ->
          Js.lt (Js.mul (BASE_SLIPPAGE_BPS config) (NEW_TOKEN_SLIPPAGE_MULTIPLIER config))
                (MIN_SLIPPAGE_BPS config) = false ->
          calculateSlippage js config true
          = Js.mul (BASE_SLIPPAGE_BPS config) (NEW_TOKEN_SLIPPAGE_MULTIPLIER config))).
Proof.
  split; [reflexivity|].
  intros Hbounds. change (calculateSlippage js config true) with
    (Js.max (Js.min (Js.mul (BASE_SLIPPAGE_BPS config) (NEW_TOKEN_SLIPPAGE_MULTIPLIER config))
                    (MAX_SLIPPAGE_BPS config))
            (MIN_SLIPPAGE_BPS config)).
  repeat split.
  - now apply clamp_orders_agree.
  - now apply clamp_above.
  - now apply clamp_below.
  - now apply clamp_within.
Qed.

(** With the defaults (base 200, multiplier 5, bounds 1000 and 5000) the
    bounds are ordered and the result is the product, 1000. *)
Lemma calculateSlippage_new_token_clamp_witness :
  Js.le (MIN_SLIPPAGE_BPS Scenario.config_defaults)
        (MAX_SLIPPAGE_BPS Scenario.config_defaults) = true
  /\ calculateSlippage Scenario.js Scenario.config_defaults true = Int 1000.
Proof.
  split; [reflexivity|].
  destruct (calculateSlippage_new_token_clamp Scenario.js Scenario.config_defaults)
    as [_ H].
  destruct (H eq_refl) as (_ & _ & _ & Hwithin).
  rewrite Hwithin; reflexivity.
Defined.

(** C4 as stated fails: with [MAX_SLIPPAGE_BPS=500] and every other value at
    its default, the product 1000 exceeds the maximum, the code answers the
    minimum 1000, and the clamp of the claim would answer 500. *)
Lemma calculateSlippage_lower_then_upper_counterexample :
  calculateSlippage Scenario.js Scenario.config_max_below_min true
  <> Js.min (Js.max (Js.mul (BASE_SLIPPAGE_BPS Scenario.config_max_below_min)
                            (NEW_TOKEN_SLIPPAGE_MULTIPLIER Scenario.config_max_below_min))
                    (MIN_SLIPPAGE_BPS Scenario.config_max_below_min))
            (MAX_SLIPPAGE_BPS Scenario.config_max_below_min).
Proof. vm_compute. discriminate. Qed.

Example calculateSlippage_max_below_min_values :
  calculateSlippage Scenario.js Scenario.config_max_below_min true = Int 1000
  /\ MAX_SLIPPAGE_BPS Scenario.config_max_below_min = Int 500
  /\ Js.gt (Js.mul (BASE_SLIPPAGE_BPS Scenario.config_max_below_min)
                   (NEW_TOKEN_SLIPPAGE_MULTIPLIER Scenario.config_max_below_min))
           (MAX_SLIPPAGE_BPS Scenario.config_max_below_min) = true.
Proof. vm_compute. repeat split. Qed.

(** Outside new-token mode the configured value is passed through. *)
Lemma calculateSlippage_flat (js : Runtime) (config : EnvConfig) :
  calculateSlippage js config false
  = parseInt js (if Js.truthy (SLIPPAGE_BPS config) then SLIPPAGE_BPS config else "100").
Proof. reflexivity. Qed.

(** ** Running computations *)

Lemma request_run {A} (net : Network) (ev : Event) (reply : list Event -> result A) (w : World) :
  request net ev reply w
  = (settle (reply (ev :: trace w)), world_after (request net ev reply) w).
Proof. reflexivity. Qed.

Lemma request_trace {A} (net : Network) (ev : Event) (reply : list Event -> result A) (w : World) :
  trace (world_after (request net ev reply) w) = ev :: trace w.
Proof. reflexivity. Qed.

Lemma request_now {A} (net : Network) (ev : Event) (reply : list Event -> result A) (w : World) :
  now w <= now (world_after (request net ev reply) w).
Proof. unfold world_after, request, perform; simpl. lia. Qed.

Lemma request_env {A} (net : Network) (ev : Event) (reply : list Event -> result A) (w : World) :
  env (world_after (request net ev reply) w) = env w.
Proof. reflexivity. Qed.

Lemma sleep_now (net : Network) (ms : Z) (w : World) :
  1 <= ms <= 2147483647 ->
  now w + ms <= now (world_after (sleep net (Int ms)) w).
Proof.
  intros Hms. unfold world_after, sleep, perform, timer_ms. cbn [snd now].
  destruct (Z.leb_spec 1 ms); [|lia]. destruct (Z.leb_spec ms 2147483647); [|lia].
  cbn [andb]. lia.
Qed.

(** ** The confirmation polling loop *)

Section PollingFacts.

Context (net : Network) (sig : string) (lvbh timeoutAt : Z).

Abbreviation poll1 := (pollOnce net sig lvbh).
Abbreviation askTransaction := (request net (GetTransaction sig) (getTransaction net)).
Abbreviation askHeight := (request net GetBlockHeight (getBlockHeight net)).

(** A poll that finds the transaction returns it at once. *)
Lemma pollOnce_confirmed r w response :
  getTransaction net (GetTransaction sig :: trace w) = Ok (Some response) ->
  poll1 r w = (Return (Stop (Some response)), world_after askTransaction w).
Proof.
  intros H. unfold pollOnce, try_catch, bind. rewrite request_run, H. reflexivity.
Qed.

(** A poll that does not find the transaction and reads a height beyond the
    last valid one returns null at once. *)
Lemma pollOnce_expired r w h :
  getTransaction net (GetTransaction sig :: trace w) = Ok None ->
  getBlockHeight net (GetBlockHeight :: GetTransaction sig :: trace w) = Ok h ->
  lvbh < h ->
  poll1 r w = (Return (Stop None), world_after askHeight (world_after askTransaction w)).
Proof.
  intros Ht Hh Hlt. unfold pollOnce, try_catch, bind.
  rewrite request_run, Ht. cbn [settle]. rewrite request_run, request_trace, Hh.
  cbn [settle]. apply Z.ltb_lt in Hlt. rewrite Hlt. reflexivity.
Qed.

(** The loop body never throws: its [catch] absorbs every error. *)
Lemma pollOnce_returns r w : exists s w', poll1 r w = (Return s, w').
Proof.
  unfold pollOnce, try_catch, bind. rewrite request_run.
  destruct (getTransaction net _) as [[response|]|e]; simpl; eauto.
  destruct (getBlockHeight net _) as [h|e]; simpl; eauto.
  destruct (lvbh <? h); simpl; eauto.
Qed.

(** An iteration that falls through has waited 2000 ms and leaves the loop
    variable as it was. *)
Lemma pollOnce_continue r w r' w' :
  poll1 r w = (Return (Continue r'), w') ->
  now w + 2000 <= now w' /\ (r = None -> r' = None).
Proof.
  unfold pollOnce, try_catch, bind. rewrite request_run.
  pose proof (request_now net (GetTransaction sig) (getTransaction net) w) as Hn1.
  set (w1 := world_after askTransaction w) in *.
  destruct (getTransaction net _) as [[response|]|e]; simpl.
  - discriminate.
  - pose proof (request_now net GetBlockHeight (getBlockHeight net) w1) as Hn2.
    set (w2 := world_after askHeight w1) in *.
    destruct (getBlockHeight net _) as [h|e]; simpl.
    + destruct (lvbh <? h); simpl; [discriminate|].
      intros [= <- <-]. pose proof (sleep_now net 2000 w2 ltac:(lia)). unfold wait.
      split; [ unfold world_after in *; simpl in *; lia | reflexivity ].
    + intros [= <- <-]. pose proof (sleep_now net 2000 w2 ltac:(lia)).
      split; [ unfold world_after in *; simpl in *; lia | tauto ].
  - intros [= <- <-]. pose proof (sleep_now net 2000 w1 ltac:(lia)).
    split; [ unfold world_after in *; simpl in *; lia | tauto ].
Qed.

Abbreviation inconclusive := (pollsInconclusive net sig lvbh timeoutAt).
Abbreviation loop := (pollLoop net sig lvbh timeoutAt).

(** One unrolling of the loop. *)
Lemma pollLoop_unfold fuel r w :
  loop (S fuel) r w
  = if now w <? timeoutAt then
      match poll1 r w with
      | (Return (Stop x), w') => (Return x, w')
      | (Return (Continue r'), w') => loop fuel r' w'
      | (Throw e, w') => (Throw e, w')
      | (OutOfFuel, w') => (OutOfFuel, w')
      end
    else (Return r, w).
Proof.
  simpl. unfold bind, Date_now. simpl.
  destruct (now w <? timeoutAt); [|reflexivity].
  destruct (poll1 r w) as [[[x|r']|e|] w']; reflexivity.
Qed.

(** [k] inconclusive iterations take at least [2000 * k] ms. *)
Lemma pollsInconclusive_clock k : forall r w r' wk,
  inconclusive k r w = Some (r', wk) ->
  now w + 2000 * Z.of_nat k <= now wk /\ (r = None -> r' = None).
Proof.
  induction k as [|k IH]; intros r w r' wk; simpl.
  - intros [= <- <-]. split; [lia | tauto].
  - destruct (now w <? timeoutAt); [|discriminate].
    destruct (poll1 r w) as [[[r1|r1]| |] w1] eqn:Hp; try discriminate.
    intros Hk. apply pollOnce_continue in Hp as [Hc Hr]. apply IH in Hk as [Hk Hr'].
    split; [lia | tauto].
Qed.

(** The loop follows the inconclusive iterations. *)
Lemma pollLoop_skip k : forall fuel r w r' wk,
  inconclusive k r w = Some (r', wk) ->
  loop (k + fuel) r w = loop fuel r' wk.
Proof.
  induction k as [|k IH]; intros fuel r w r' wk.
  - simpl. now intros [= <- <-].
  - change (S k + fuel)%nat with (S (k + fuel)). rewrite pollLoop_unfold. simpl.
    destruct (now w <? timeoutAt) eqn:Hlt; [|discriminate].
    destruct (poll1 r w) as [[[r1|r1]| |] w1] eqn:Hp; try discriminate.
    apply IH.
Qed.

(** With fuel left, a confirmed poll ends the loop. *)
Lemma pollLoop_confirmed fuel r w response :
  now w < timeoutAt ->
  getTransaction net (GetTransaction sig :: trace w) = Ok (Some response) ->
  loop (S fuel) r w = (Return (Some response), world_after askTransaction w).
Proof.
  intros Hlt%Z.ltb_lt H. rewrite pollLoop_unfold, Hlt.
  now rewrite (pollOnce_confirmed r w response H).
Qed.

Lemma pollLoop_expired fuel r w h :
  now w < timeoutAt ->
  getTransaction net (GetTransaction sig :: trace w) = Ok None ->
  getBlockHeight net (GetBlockHeight :: GetTransaction sig :: trace w) = Ok h ->
  lvbh < h ->
  loop (S fuel) r w
  = (Return None, world_after askHeight (world_after askTransaction w)).
Proof.
  intros Hlt%Z.ltb_lt Ht Hh Hexp. rewrite pollLoop_unfold, Hlt.
  now rewrite (pollOnce_expired r w h Ht Hh Hexp).
Qed.

(** The loop ends within its fuel: it never stops for lack of it, and it
    never throws. *)
Lemma pollLoop_total fuel : forall r w,
  (1 <= fuel)%nat ->
  timeoutAt - now w <= 2000 * (Z.of_nat fuel - 1) ->
  exists x w', loop fuel r w = (Return x, w').
Proof.
  induction fuel as [|fuel IH]; intros r w Hf Hb; [lia|].
  rewrite pollLoop_unfold.
  destruct (Z.ltb_spec (now w) timeoutAt) as [Hlt|Hge]; [|eauto].
  destruct (pollOnce_returns r w) as (s & w1 & Hp). rewrite Hp.
  destruct s as [x|r1]; [eauto|].
  apply pollOnce_continue in Hp as [Hc _].
  apply IH; lia.
Qed.

End PollingFacts.

(** ** What polling adds to the history *)

Lemma timers_app (evs tr : list Event) : timers (evs ++ tr) = timers tr ++ timers evs.
Proof. unfold timers. now rewrite omap_app, rev_app_distr. Qed.

Lemma broadcasts_app (evs tr : list Event) :
  broadcasts (evs ++ tr) = broadcasts evs ++ broadcasts tr.
Proof. unfold broadcasts. apply filter_app. Qed.

Section PollingTraces.

Context (net : Network) (sig : string) (lvbh timeoutAt : Z).

(** One iteration adds lookups, height readings and timers only: no
    broadcast; and it arms one timer of 2000 ms exactly when it falls
    through. *)
Lemma pollOnce_trace r w o w' :
  pollOnce net sig lvbh r w = (o, w') ->
  exists evs, trace w' = evs ++ trace w
           /\ broadcasts evs = []
           /\ timers evs = match o with
                           | Return (Continue _) => [Int 2000]
                           | _ => []
                           end.
Proof.
  unfold pollOnce, try_catch, bind. rewrite request_run.
  destruct (getTransaction net _) as [[response|]|e]; cbn [settle].
  - intros [= <- <-]. exists [GetTransaction sig]. now rewrite request_trace.
  - rewrite request_run.
    destruct (getBlockHeight net _) as [h|e]; cbn [settle].
    + destruct (lvbh <? h).
      * intros [= <- <-]. exists [GetBlockHeight; GetTransaction sig].
        now rewrite !request_trace.
      * intros [= <- <-]. exists [SetTimeout (Int 2000); GetBlockHeight; GetTransaction sig].
        repeat split.
    + intros [= <- <-]. exists [SetTimeout (Int 2000); GetBlockHeight; GetTransaction sig].
      repeat split.
  - intros [= <- <-]. exists [SetTimeout (Int 2000); GetTransaction sig].
    repeat split.
Qed.

(** [k] inconclusive iterations add no broadcast and arm [k] timers of
    2000 ms. *)
Lemma pollsInconclusive_trace k : forall r w r' wk,
  pollsInconclusive net sig lvbh timeoutAt k r w = Some (r', wk) ->
  exists evs, trace wk = evs ++ trace w
           /\ broadcasts evs = []
           /\ timers evs = repeat (Int 2000) k.
Proof.
  induction k as [|k IH]; intros r w r' wk; simpl.
  - intros [= <- <-]. now exists [].
  - destruct (now w <? timeoutAt); [|discriminate].
    destruct (pollOnce net sig lvbh r w) as [[[r1|r1]| |] w1] eqn:Hp; try discriminate.
    intros Hk. apply pollOnce_trace in Hp as (evs1 & T1 & B1 & S1).
    apply IH in Hk as (evs2 & T2 & B2 & S2).
    exists (evs2 ++ evs1). rewrite T2, T1, app_assoc. split; [reflexivity|].
    rewrite broadcasts_app, B1, B2, timers_app, S1, S2. split; [reflexivity|].
    simpl. now rewrite repeat_cons.
Qed.

End PollingTraces.

(** ** The sender as a whole *)

Section SenderFacts.

Context (net : Network) (params : TransactionSenderAndConfirmationWaiterParams).

Abbreviation broadcastEvent := (SendRawTransaction (serializedTransaction params) true).
Abbreviation lastValid := (expiryBlockHeight (blockhashWithExpiryBlockHeight params)).

(** After a successful broadcast and first height reading the sender is its
    polling loop. *)
Lemma sender_is_pollLoop w sig h0 :
  sendRawTransaction net (broadcastEvent :: trace w) = Ok sig ->
  getBlockHeight net (GetBlockHeight :: broadcastEvent :: trace w) = Ok h0 ->
  transactionSenderAndConfirmationWaiter net params w
  = pollLoop net sig lastValid (timeoutAtOf net params w)
             (pollFuel (default 60000 (timeoutIn params))) None
             (afterBroadcast net params w).
Proof.
  intros Hs Hh. unfold transactionSenderAndConfirmationWaiter.
  unfold bind at 1. rewrite request_run, Hs. cbn [settle].
  unfold bind at 1, Date_now. unfold bind at 1. rewrite request_run, request_trace, Hh.
  cbn [settle]. unfold timeoutAtOf, afterBroadcast. now destruct (timeoutIn params).
Qed.

(** The fuel of the sender covers every run of inconclusive polls that ends
    before [timeoutAt]. *)
Lemma pollFuel_covers w sig k r wk :
  pollsInconclusive net sig lastValid (timeoutAtOf net params w) k None
                    (afterBroadcast net params w) = Some (r, wk) ->
  now wk < timeoutAtOf net params w ->
  exists fuel, pollFuel (default 60000 (timeoutIn params)) = (k + S fuel)%nat.
Proof.
  intros Hk Hlt. apply pollsInconclusive_clock in Hk as [Hk _].
  assert (Hb : now (afterBroadcast net params w) + 2000 * Z.of_nat k
               < now (afterBroadcast net params w) + default 60000 (timeoutIn params)).
  { unfold timeoutAtOf in Hlt. unfold afterBroadcast in *.
    pose proof (request_now net GetBlockHeight (getBlockHeight net)
                  (world_after (request net broadcastEvent (sendRawTransaction net)) w)).
    lia. }
  set (T := default 60000 (timeoutIn params)) in *.
  assert (Z.of_nat k <= T / 2000).
  { apply Z.div_le_lower_bound; lia. }
  exists (pollFuel T - k - 1)%nat. unfold pollFuel. lia.
Qed.

(** The sender always returns: it never throws once the broadcast and the
    first height reading succeeded, and its loop never runs out of fuel. *)
Lemma sender_total w sig h0 :
  sendRawTransaction net (broadcastEvent :: trace w) = Ok sig ->
  getBlockHeight net (GetBlockHeight :: broadcastEvent :: trace w) = Ok h0 ->
  exists x w', transactionSenderAndConfirmationWaiter net params w = (Return x, w').
Proof.
  intros Hs Hh. rewrite (sender_is_pollLoop w sig h0 Hs Hh).
  set (T := default 60000 (timeoutIn params)).
  apply pollLoop_total; [unfold pollFuel; lia|].
  unfold timeoutAtOf, afterBroadcast. fold T.
  pose proof (request_now net GetBlockHeight (getBlockHeight net)
                (world_after (request net broadcastEvent (sendRawTransaction net)) w)).
  unfold pollFuel.
  destruct (Z.le_gt_cases 0 T) as [Hpos|Hneg].
  - pose proof (Z.mul_succ_div_gt T 2000 ltac:(lia)).
    rewrite Nat2Z.inj_add, Z2Nat.id by (apply Z.div_pos; lia). lia.
  - lia.
Qed.

End SenderFacts.

(** ** Expiry of the blockhash *)

(** C1.  Take any call of the sender whose broadcast and first height reading
    succeed, and any number [k] of polls that each passed the loop test
    (the clock was before [timeoutAt]) and ended without a confirmation.  If
    the next poll starts before [timeoutAt] (the clock after the broadcast
    plus [timeoutIn], 60000 ms by default), does not find the transaction,
    and reads a block height above [lastValidBlockHeight], then the sender
    returns null at once: its last event is that height reading, the clock
    has advanced by the two requests only, and the only timers armed during
    the call are the [k] waits of 2000 ms between the earlier polls. *)
Theorem expiry_before_confirmation_returns_null
    (net : Network) (params : TransactionSenderAndConfirmationWaiterParams)
    (w : World) (sig : string) (h0 : Z) (k : nat)
    (r : option VersionedTransactionResponse) (wk : World) (h : Z) :
  sendRawTransaction net (SendRawTransaction (serializedTransaction params) true :: trace w)
    = Ok sig ->
  getBlockHeight net
      (GetBlockHeight :: SendRawTransaction (serializedTransaction params) true :: trace w)
    = Ok h0 ->
  pollsInconclusive net sig (expiryBlockHeight (blockhashWithExpiryBlockHeight params))
                    (timeoutAtOf net params w) k None (afterBroadcast net params w)
    = Some (r, wk) ->
  now wk < timeoutAtOf net params w ->
  getTransaction net (GetTransaction sig :: trace wk) = Ok None ->
  getBlockHeight net (GetBlockHeight :: GetTransaction sig :: trace wk) = Ok h ->
  expiryBlockHeight (blockhashWithExpiryBlockHeight params) < h ->
  exists w',
    transactionSenderAndConfirmationWaiter net params w = (Return None, w')
    /\ trace w' = GetBlockHeight :: GetTransaction sig :: trace wk
    /\ now w' = now wk
                + Z.of_N (latency net (GetTransaction sig :: trace wk))
                + Z.of_N (latency net (GetBlockHeight :: GetTransaction sig :: trace wk))
    /\ timers (trace w') = timers (trace w) ++ repeat (Int 2000) k.
Proof.
  intros Hs Hh0 Hk Hlt Ht Hh Hexp.
  destruct (pollFuel_covers net params w sig k r wk Hk Hlt) as [fuel Hfuel].
  eexists. split; [|split; [|split]].
  - rewrite (sender_is_pollLoop net params w sig h0 Hs Hh0), Hfuel.
    rewrite (pollLoop_skip _ _ _ _ k _ _ _ _ _ Hk).
    apply (pollLoop_expired _ _ _ _ fuel r wk h Hlt Ht Hh Hexp).
  - reflexivity.
  - unfold world_after, request, perform; simpl. lia.
  - apply pollsInconclusive_trace in Hk as (evs & Htr & _ & Htm).
    rewrite !request_trace, Htr.
    change (GetBlockHeight :: GetTransaction sig :: evs ++ trace (afterBroadcast net params w))
      with (([GetBlockHeight; GetTransaction sig] ++ evs)
            ++ [GetBlockHeight; SendRawTransaction (serializedTransaction params) true]
            ++ trace w).
    rewrite !timers_app, Htm. simpl. now rewrite !app_nil_r.
Qed.

(** The height read before the loop is not compared with
    [lastValidBlockHeight]: whatever it is, the first lookup is made, and a
    transaction that it finds is returned. *)
Lemma first_height_reading_is_not_compared
    (net : Network) (params : TransactionSenderAndConfirmationWaiterParams)
    (w : World) (sig : string) (h0 : Z) (response : VersionedTransactionResponse) :
  sendRawTransaction net (SendRawTransaction (serializedTransaction params) true :: trace w)
    = Ok sig ->
  getBlockHeight net
      (GetBlockHeight :: SendRawTransaction (serializedTransaction params) true :: trace w)
    = Ok h0 ->
  now (afterBroadcast net params w) < timeoutAtOf net params w ->
  getTransaction net (GetTransaction sig :: trace (afterBroadcast net params w))
    = Ok (Some response) ->
  result_of (transactionSenderAndConfirmationWaiter net params) w = Return (Some response).
Proof.
  intros Hs Hh0 Hlt Hfound. unfold result_of.
  rewrite (sender_is_pollLoop net params w sig h0 Hs Hh0).
  unfold pollFuel. rewrite Nat.add_comm. cbn [Nat.add].
  now rewrite (pollLoop_confirmed _ _ _ _ _ None _ response Hlt Hfound).
Qed.

(** The ledger passes height 100, the last valid one, during the second
    poll: the sender returns null after a single wait of 2000 ms, 2035 ms
    into a timeout of 60000 ms. *)
Lemma expiry_before_confirmation_returns_null_witness :
  exists w',
    transactionSenderAndConfirmationWaiter Scenario.net_expiring Scenario.sender_params
                                           Scenario.world0 = (Return None, w')
    /\ timers (trace w') = [Int 2000]
    /\ now w' = 2035.
Proof.
  destruct (expiry_before_confirmation_returns_null
              Scenario.net_expiring Scenario.sender_params Scenario.world0
              "5ig" 98 1%nat None
              {| now := 2025; env := env Scenario.world0;
                 trace := [SetTimeout (Int 2000); GetBlockHeight; GetTransaction "5ig";
                           GetBlockHeight;
                           SendRawTransaction Scenario.signed_transaction true] |}
              103)
    as (w' & Hrun & Htrace & Hnow & Htimers);
    [ reflexivity | reflexivity | reflexivity | reflexivity
    | reflexivity | reflexivity | reflexivity | ].
  exists w'. split; [exact Hrun|]. split; [exact Htimers | exact Hnow].
Defined.

(** ** Executing a swap *)

Section ExecuteSwapFacts.

Context (js : Runtime) (net : Network) (swapResponse : SwapResponse) (wallet : Wallet)
        (w : World) (tx0 tx : VersionedTransaction) (signature : string)
        (sim : SimulatedTransactionResponse).

Hypothesis Hdeserialize : deserialize js (swapTransaction swapResponse) = Ok tx0.
Hypothesis Hsign : sign js wallet tx0 = Ok tx.
Hypothesis Hsignature : getSignature (Versioned tx) = Ok signature.
Hypothesis Hsimulate :
  simulateTransaction net (SimulateTransaction tx "processed" :: trace w) = Ok sim.

(** [executeSwap] once the transaction is signed and simulated. *)
Lemma executeSwap_after_simulation :
  executeSwap js net swapResponse wallet w
  = match simErr sim with
    | Some _ => (Throw (mkError "Transaction simulation failed"), afterSimulation net tx w)
    | None =>
        match transactionSenderAndConfirmationWaiter net (senderParamsOf swapResponse tx)
                (afterSimulation net tx w) with
        | (Return None, w') => (Throw (mkError "Transaction not confirmed"), w')
        | (Return (Some response), w') =>
            match metaErr response with
            | Some _ => (Throw (mkError "Transaction failed"), w')
            | None => (Return signature, w')
            end
        | (Throw e, w') => (Throw e, w')
        | (OutOfFuel, w') => (OutOfFuel, w')
        end
    end.
Proof.
  unfold executeSwap, lift.
  unfold bind at 1. rewrite Hdeserialize. cbn [settle].
  unfold bind at 1. rewrite Hsign. cbn [settle].
  unfold bind at 1. rewrite Hsignature. cbn [settle].
  unfold bind at 1. rewrite request_run, Hsimulate. cbn [settle].
  fold (afterSimulation net tx w).
  destruct (simErr sim); [reflexivity|].
  unfold bind at 1. fold (senderParamsOf swapResponse tx).
  destruct (transactionSenderAndConfirmationWaiter _ _ _) as [[[response|]|e|] w']; try reflexivity.
  destruct (metaErr response); reflexivity.
Qed.

End ExecuteSwapFacts.

(** In every run of [executeSwap], a broadcast is made only after a
    simulation that reported no error. *)
Lemma executeSwap_broadcasts_only_after_clean_simulation
    (js : Runtime) (net : Network) (swapResponse : SwapResponse) (wallet : Wallet)
    (w : World) :
  broadcasts (trace (world_after (executeSwap js net swapResponse wallet) w))
    <> broadcasts (trace w) ->
  exists tx0 tx sim,
    deserialize js (swapTransaction swapResponse) = Ok tx0
    /\ sign js wallet tx0 = Ok tx
    /\ simulateTransaction net (SimulateTransaction tx "processed" :: trace w) = Ok sim
    /\ simErr sim = None.
Proof.
  unfold world_after, executeSwap, lift.
  unfold bind at 1.
  destruct (deserialize js (swapTransaction swapResponse)) as [tx0|e] eqn:Hd; cbn [settle];
    [|intros H; now elim H].
  unfold bind at 1.
  destruct (sign js wallet tx0) as [tx|e] eqn:Hs; cbn [settle]; [|intros H; now elim H].
  unfold bind at 1.
  destruct (getSignature (Versioned tx)) as [signature|e]; cbn [settle];
    [|intros H; now elim H].
  unfold bind at 1. rewrite request_run.
  destruct (simulateTransaction net _) as [sim|e] eqn:Hsim; cbn [settle];
    [|intros H; now elim H].
  destruct (simErr sim) eqn:Herr; [intros H; now elim H|].
  intros _. now exists tx0, tx, sim.
Qed.

(** C2.  Whenever the simulation that [executeSwap] runs on the signed
    transaction reports an error, [executeSwap] throws "Transaction simulation
    failed" and the simulation request is the only event of the call: the
    transaction is not broadcast. *)
Theorem simulation_error_aborts_before_broadcast
    (js : Runtime) (net : Network) (swapResponse : SwapResponse) (wallet : Wallet)
    (w : World) (tx0 tx : VersionedTransaction) (signature : string)
    (sim : SimulatedTransactionResponse) (err : TransactionError) :
  deserialize js (swapTransaction swapResponse) = Ok tx0 ->
  sign js wallet tx0 = Ok tx ->
  getSignature (Versioned tx) = Ok signature ->
  simulateTransaction net (SimulateTransaction tx "processed" :: trace w) = Ok sim ->
  simErr sim = Some err ->
  exists w',
    executeSwap js net swapResponse wallet w
      = (Throw (mkError "Transaction simulation failed"), w')
    /\ trace w' = SimulateTransaction tx "processed" :: trace w
    /\ broadcasts (trace w') = broadcasts (trace w).
Proof.
  intros Hd Hs Hg Hsim Herr.
  exists (afterSimulation net tx w).
  rewrite (executeSwap_after_simulation js net swapResponse wallet w tx0 tx signature sim
             Hd Hs Hg Hsim), Herr.
  repeat split.
Qed.

(** The simulation reports insufficient funds: nothing is broadcast. *)
Lemma simulation_error_aborts_before_broadcast_witness :
  exists w',
    executeSwap Scenario.js Scenario.net_simulation_error Scenario.swap_response
                Scenario.wallet Scenario.world0
      = (Throw (mkError "Transaction simulation failed"), w')
    /\ trace w' = [SimulateTransaction Scenario.signed_transaction "processed"]
    /\ broadcasts (trace w') = [].
Proof.
  exact (simulation_error_aborts_before_broadcast
           Scenario.js Scenario.net_simulation_error Scenario.swap_response
           Scenario.wallet Scenario.world0
           Scenario.unsigned_transaction Scenario.signed_transaction "sig"
           {| simErr := Some (TxError "InsufficientFundsForFee"); simLogs := [] |}
           (TxError "InsufficientFundsForFee")
           eq_refl eq_refl eq_refl eq_refl eq_refl).
Defined.

(** The same holds for the simulation that [executeSwapSafely] runs before
    [executeSwap]: an attempt whose first simulation reports an error ends
    without a broadcast. *)
Lemma swapAttempt_simulation_error_no_broadcast
    (js : Runtime) (net : Network) (quote : QuoteResponse) (wallet : Wallet)
    (maxRetries attempt : Z) (lastError : option Error) (w w1 : World)
    (swapResponse : SwapResponse) (tx0 tx : VersionedTransaction)
    (sim : SimulatedTransactionResponse) (err : TransactionError) :
  getSwapResponse js net wallet quote None w = (Return swapResponse, w1) ->
  deserialize js (swapTransaction swapResponse) = Ok tx0 ->
  sign js wallet tx0 = Ok tx ->
  simulateTransaction net (SimulateTransaction tx "confirmed" :: trace w1) = Ok sim ->
  simErr sim = Some err ->
  exists w',
    swapAttempt js net quote wallet maxRetries attempt lastError w
    = (Return (Continue (Some (mkError "Transaction simulation failed"))), w')
    /\ broadcasts (trace w') = broadcasts (trace w1).
Proof.
  intros Hswap Hd Hs Hsim Herr.
  unfold swapAttempt, try_catch. unfold bind at 1. rewrite Hswap.
  unfold bind at 1, simulateSwap, lift. unfold bind at 1. rewrite Hd. cbn [settle].
  unfold bind at 1. rewrite Hs. cbn [settle].
  unfold bind at 1. rewrite request_run, Hsim. cbn [settle]. rewrite Herr.
  unfold throw. destruct (attempt <? maxRetries); eexists; split; reflexivity.
Qed.

(** C3.  Take any call of [executeSwap] whose simulation passes and whose
    broadcast and first height reading succeed, and any number [k] of polls
    that ended without a confirmation.  If the next poll starts before
    [timeoutAt] and finds the transaction with an on-chain error in its
    metadata, the sender returns that response at once, having broadcast
    exactly once, and [executeSwap] throws "Transaction failed". *)
Theorem confirmed_with_error_fails_without_retry
    (js : Runtime) (net : Network) (swapResponse : SwapResponse) (wallet : Wallet)
    (w : World) (tx0 tx : VersionedTransaction) (signature : string)
    (sim : SimulatedTransactionResponse) (sig : string) (h0 : Z) (k : nat)
    (r : option VersionedTransactionResponse) (wk : World)
    (response : VersionedTransactionResponse) (err : TransactionError) :
  deserialize js (swapTransaction swapResponse) = Ok tx0 ->
  sign js wallet tx0 = Ok tx ->
  getSignature (Versioned tx) = Ok signature ->
  simulateTransaction net (SimulateTransaction tx "processed" :: trace w) = Ok sim ->
  simErr sim = None ->
  sendRawTransaction net (SendRawTransaction tx true :: trace (afterSimulation net tx w))
    = Ok sig ->
  getBlockHeight net
      (GetBlockHeight :: SendRawTransaction tx true :: trace (afterSimulation net tx w))
    = Ok h0 ->
  pollsInconclusive net sig (lastValidBlockHeight swapResponse)
      (timeoutAtOf net (senderParamsOf swapResponse tx) (afterSimulation net tx w)) k None
      (afterBroadcast net (senderParamsOf swapResponse tx) (afterSimulation net tx w))
    = Some (r, wk) ->
  now wk < timeoutAtOf net (senderParamsOf swapResponse tx) (afterSimulation net tx w) ->
  getTransaction net (GetTransaction sig :: trace wk) = Ok (Some response) ->
  metaErr response = Some err ->
  exists w',
    transactionSenderAndConfirmationWaiter net (senderParamsOf swapResponse tx)
        (afterSimulation net tx w)
      = (Return (Some response), w')
    /\ executeSwap js net swapResponse wallet w = (Throw (mkError "Transaction failed"), w')
    /\ trace w' = GetTransaction sig :: trace wk
    /\ broadcasts (trace w') = SendRawTransaction tx true :: broadcasts (trace w).
Proof.
  intros Hd Hs Hg Hsim Hok Hsend Hh0 Hk Hlt Hfound Herr.
  set (params := senderParamsOf swapResponse tx) in *.
  set (w1 := afterSimulation net tx w) in *.
  destruct (pollFuel_covers net params w1 sig k r wk Hk Hlt) as [fuel Hfuel].
  assert (Hrun : transactionSenderAndConfirmationWaiter net params w1
                 = (Return (Some response),
                    world_after (request net (GetTransaction sig) (getTransaction net)) wk)).
  { rewrite (sender_is_pollLoop net params w1 sig h0 Hsend Hh0), Hfuel.
    change (expiryBlockHeight (blockhashWithExpiryBlockHeight params))
      with (lastValidBlockHeight swapResponse).
    rewrite (pollLoop_skip _ _ _ _ k _ _ _ _ _ Hk).
    apply (pollLoop_confirmed _ _ _ _ fuel r wk response Hlt Hfound). }
  eexists. split; [exact Hrun|]. split; [|split].
  - rewrite (executeSwap_after_simulation js net swapResponse wallet w tx0 tx signature sim
               Hd Hs Hg Hsim), Hok.
    fold params w1. now rewrite Hrun, Herr.
  - reflexivity.
  - apply pollsInconclusive_trace in Hk as (evs & Htr & Hb & _).
    rewrite request_trace, Htr.
    change (GetTransaction sig :: evs ++ trace (afterBroadcast net params w1))
      with (([GetTransaction sig] ++ evs)
            ++ [GetBlockHeight; SendRawTransaction tx true]
            ++ [SimulateTransaction tx "processed"] ++ trace w).
    rewrite !broadcasts_app, Hb. reflexivity.
Qed.

(** The transaction is found at the second lookup, failed on chain: one
    broadcast, two lookups, and [executeSwap] throws. *)
Lemma confirmed_with_error_fails_without_retry_witness :
  exists w',
    executeSwap Scenario.js Scenario.net_failed_on_chain Scenario.swap_response
                Scenario.wallet Scenario.world0
      = (Throw (mkError "Transaction failed"), w')
    /\ broadcasts (trace w') = [SendRawTransaction Scenario.signed_transaction true].
Proof.
  destruct (confirmed_with_error_fails_without_retry
              Scenario.js Scenario.net_failed_on_chain Scenario.swap_response
              Scenario.wallet Scenario.world0
              Scenario.unsigned_transaction Scenario.signed_transaction "sig"
              {| simErr := None; simLogs := [] |} "5ig" 90 1%nat None
              {| now := 2030; env := env Scenario.world0;
                 trace := [SetTimeout (Int 2000); GetBlockHeight; GetTransaction "5ig";
                           GetBlockHeight;
                           SendRawTransaction Scenario.signed_transaction true;
                           SimulateTransaction Scenario.signed_transaction "processed"] |}
              Scenario.failed_on_chain (TxError "InstructionError"))
    as (w' & _ & Hswap & _ & Hb);
    [ reflexivity | reflexivity | reflexivity | reflexivity | reflexivity | reflexivity
    | reflexivity | reflexivity | reflexivity | reflexivity | reflexivity | ].
  exists w'. split; [exact Hswap | exact Hb].
Defined.

(** ** Bounded retry *)

Section RetryFacts.

Context {T : Type} (net : Network) (fn : M T) (operationName : string)
        (maxRetries initialDelay : Z) (useExponentialBackoff : bool).

Abbreviation retry := (retryLoop net fn operationName maxRetries initialDelay useExponentialBackoff).
Abbreviation delayOf := (retryDelayMs initialDelay useExponentialBackoff).

(** Past the last attempt the loop throws the last error, or the generic one
    if no attempt was made. *)
Lemma retryLoop_exit fuel attempt lastError w :
  maxRetries < attempt ->
  retry (S fuel) attempt lastError w
  = (Throw (default (mkError (operationName ++ " failed with unknown error")%string) lastError), w).
Proof.
  intros H. simpl. destruct (Z.leb_spec attempt maxRetries); [lia | reflexivity].
Qed.

(** A failed attempt records its error, waits if another attempt follows,
    and goes on. *)
Lemma retryLoop_failed fuel attempt lastError w e w1 :
  attempt <= maxRetries ->
  fn w = (Throw e, w1) ->
  retry (S fuel) attempt lastError w
  = retry fuel (attempt + 1) (Some e)
          (if attempt <? maxRetries
           then world_after (sleep net (Int (delayOf attempt))) w1
           else w1).
Proof.
  intros Hle Hfn. simpl. destruct (Z.leb_spec attempt maxRetries); [|lia].
  unfold bind at 1, retryAttempt, try_catch, bind at 1. rewrite Hfn.
  destruct (attempt <? maxRetries); reflexivity.
Qed.

(** A successful attempt returns its result at once. *)
Lemma retryLoop_succeeded fuel attempt lastError w x w1 :
  attempt <= maxRetries ->
  fn w = (Return x, w1) ->
  retry (S fuel) attempt lastError w = (Return x, w1).
Proof.
  intros Hle Hfn. simpl. destruct (Z.leb_spec attempt maxRetries); [|lia].
  unfold bind at 1, retryAttempt, try_catch, bind at 1. now rewrite Hfn.
Qed.

Hypothesis fn_fails : forall w, exists e w1, fn w = (Throw e, w1).

(** From attempt [attempt] with [n] waits to go, the loop makes [n + 1]
    failing invocations with the scheduled waits between them and throws the
    last error. *)
Lemma retryLoop_all_fail n : forall attempt fuel lastError w,
  maxRetries - attempt = Z.of_nat n ->
  (n + 2 <= fuel)%nat ->
  exists errors e w',
    failingAttempts net fn (delayOf <$> seqZ attempt (Z.of_nat n)) w = Some (errors, w')
    /\ last errors = Some e
    /\ length errors = S n
    /\ retry fuel attempt lastError w = (Throw e, w').
Proof.
  induction n as [|n IH]; intros attempt fuel lastError w Hn Hfuel.
  - destruct fuel as [|[|fuel]]; try lia.
    destruct (fn_fails w) as (e & w1 & Hfn).
    exists [e], e, w1. split; [simpl; now rewrite Hfn|]. do 2 (split; [reflexivity|]).
    rewrite (retryLoop_failed _ attempt lastError w e w1) by (lia || assumption).
    destruct (Z.ltb_spec attempt maxRetries); [lia|].
    now rewrite retryLoop_exit by lia.
  - destruct fuel as [|fuel]; try lia.
    destruct (fn_fails w) as (e & w1 & Hfn).
    rewrite seqZ_cons by lia. rewrite fmap_cons.
    replace (Z.pred (Z.of_nat (S n))) with (Z.of_nat n) by lia.
    destruct (IH (Z.succ attempt) fuel (Some e)
                 (world_after (sleep net (Int (delayOf attempt))) w1))
      as (errors & e' & w' & Hrun & Hlast & Hlen & Hloop); [lia | lia |].
    exists (e :: errors), e', w'. cbn [failingAttempts]. rewrite Hfn, Hrun.
    split; [reflexivity|]. split.
    { destruct errors; [discriminate | exact Hlast]. }
    split; [simpl; now rewrite Hlen|].
    rewrite (retryLoop_failed _ attempt lastError w e w1) by (lia || assumption).
    destruct (Z.ltb_spec attempt maxRetries); [|lia].
    exact Hloop.
Qed.

End RetryFacts.

(** The backoff schedule of three attempts from 1000 ms. *)
Example backoffDelays_3_1000 : backoffDelays 1000 3 = [1000; 2000].
Proof. reflexivity. Qed.

(** An omitted [useExponentialBackoff] is [true]. *)
Lemma withRetry_default_backoff {T} (net : Network) (fn : M T) name maxRetries initialDelay :
  withRetry net fn name maxRetries initialDelay None
  = withRetry net fn name maxRetries initialDelay (Some true).
Proof. reflexivity. Qed.

(** C5.  For every [maxAttempts >= 1] and every operation that fails on every
    invocation, [withRetry] with exponential backoff runs as follows: the
    operation is invoked, and after each failure but the last a timer of
    [initialDelay * 2^(attempt-1)] ms is awaited before the next invocation;
    there are exactly [maxAttempts] invocations, and [withRetry] then throws
    the error of the last one. *)
Theorem withRetry_exhausts_attempts {T : Type}
    (net : Network) (fn : M T) (operationName : string)
    (maxAttempts initialDelay : Z) (w : World) :
  1 <= maxAttempts ->
  (forall w0, exists e w1, fn w0 = (Throw e, w1)) ->
  exists errors e w',
    failingAttempts net fn (backoffDelays initialDelay maxAttempts) w = Some (errors, w')
    /\ length errors = Z.to_nat maxAttempts
    /\ last errors = Some e
    /\ withRetry net fn (Some operationName) (Some maxAttempts) (Some initialDelay) (Some true) w
       = (Throw e, w').
Proof.
  intros Hmax Hfails.
  destruct (retryLoop_all_fail net fn operationName maxAttempts initialDelay true Hfails
              (Z.to_nat (maxAttempts - 1)) 1 (S (Z.to_nat maxAttempts)) None w)
    as (errors & e & w' & Hrun & Hlast & Hlen & Hloop); [lia | lia |].
  exists errors, e, w'. rewrite Z2Nat.id in Hrun by lia.
  split; [exact Hrun|]. split; [lia|]. split; [exact Hlast | exact Hloop].
Qed.

(** Three attempts from 1000 ms on a quote service that rejects every
    request: three requests, a wait of 1000 ms and one of 2000 ms between
    them, none after the last, and the service's error is thrown. *)
Lemma withRetry_exhausts_attempts_witness :
  exists w',
    withRetry Scenario.net_expiring Scenario.failing_operation
              (Some "Quote") (Some 3) (Some 1000) (Some true) Scenario.world0
      = (Throw (mkError "Response returned an error code"), w')
    /\ trace w' = [QuoteGet Scenario.quote_params; SetTimeout (Int 2000);
                   QuoteGet Scenario.quote_params; SetTimeout (Int 1000);
                   QuoteGet Scenario.quote_params].
Proof.
  destruct (withRetry_exhausts_attempts Scenario.net_expiring Scenario.failing_operation
              "Quote" 3 1000 Scenario.world0)
    as (errors & e & w' & Hrun & _ & Hlast & Hretry).
  - lia.
  - intros w0. eexists _, _. reflexivity.
  - exists w'. vm_compute in Hrun. injection Hrun as <- <-.
    injection Hlast as <-. split; [exact Hretry | reflexivity].
Defined.

(** ** Token balances *)

Section BalanceFacts.

Context (js : Runtime) (net : Network) (wallet : Wallet) (tokenMint : string).

Abbreviation readBalance := (getTokenBalance js net wallet tokenMint).

(** [getTokenBalance] case by case: every failure reads as 0. *)
Lemma getTokenBalance_cases w :
  readBalance w
  = if String.eqb tokenMint SOL_MINT then
      (match getBalance net (GetBalance (publicKey wallet) :: trace w) with
       | Ok solBalance => Return (Js.binary64 (inject_Z solBalance / Qpower 10 SOL_DECIMALS))
       | Fail _ => Return 0%Q
       end,
       world_after (request net (GetBalance (publicKey wallet)) (getBalance net)) w)
    else
      match newPublicKey js tokenMint with
      | Fail _ => (Return 0%Q, w)
      | Ok mint =>
          match getAssociatedTokenAddress js mint (publicKey wallet) with
          | Fail _ => (Return 0%Q, w)
          | Ok tokenAccount =>
              (match getTokenAccountBalance net
                       (GetTokenAccountBalance tokenAccount :: trace w) with
               | Ok uiAmount => Return (uiAmountOrZero uiAmount)
               | Fail _ => Return 0%Q
               end,
               world_after (request net (GetTokenAccountBalance tokenAccount)
                                    (getTokenAccountBalance net)) w)
          end
      end.
Proof.
  unfold getTokenBalance, try_catch.
  destruct (String.eqb tokenMint SOL_MINT).
  - unfold bind. rewrite request_run.
    destruct (getBalance net _); reflexivity.
  - unfold bind at 1, lift.
    destruct (newPublicKey js tokenMint) as [mint|e]; cbn [settle]; [|reflexivity].
    unfold bind at 1.
    destruct (getAssociatedTokenAddress js mint (publicKey wallet)) as [account|e];
      cbn [settle]; [|reflexivity].
    unfold bind. rewrite request_run.
    destruct (getTokenAccountBalance net _) as [u|e]; cbn [settle]; [reflexivity|].
    destruct (Js.includes (message e) "could not find account"); reflexivity.
Qed.

(** [getTokenBalance] always returns. *)
Lemma getTokenBalance_returns w : exists b w', readBalance w = (Return b, w').
Proof.
  rewrite getTokenBalance_cases.
  destruct (String.eqb tokenMint SOL_MINT).
  - destruct (getBalance net _); eauto.
  - destruct (newPublicKey js tokenMint) as [mint|e]; [|eauto].
    destruct (getAssociatedTokenAddress js mint (publicKey wallet)) as [account|e]; [|eauto].
    destruct (getTokenAccountBalance net _); eauto.
Qed.

(** A failed read is reported as a balance of 0. *)
Lemma getTokenBalance_failure w :
  balanceReadFails js net wallet tokenMint w ->
  exists w', readBalance w = (Return 0%Q, w').
Proof.
  unfold balanceReadFails. rewrite getTokenBalance_cases.
  destruct (String.eqb tokenMint SOL_MINT).
  - intros [e ->]. eauto.
  - destruct (newPublicKey js tokenMint) as [mint|e]; [|eauto].
    destruct (getAssociatedTokenAddress js mint (publicKey wallet)) as [account|e]; [|eauto].
    intros [e ->]. eauto.
Qed.

(** What a read adds to the history: at most one balance request; it leaves
    [process.env] alone. *)
Lemma getTokenBalance_trace w o w' :
  readBalance w = (o, w') ->
  env w' = env w
  /\ exists evs, trace w' = evs ++ trace w
              /\ Forall (fun ev => is_balance_read ev = true) evs.
Proof.
  rewrite getTokenBalance_cases.
  destruct (String.eqb tokenMint SOL_MINT).
  - intros [= <- <-]. split; [reflexivity|].
    exists [GetBalance (publicKey wallet)]. split; [reflexivity | repeat constructor].
  - destruct (newPublicKey js tokenMint) as [mint|e].
    + destruct (getAssociatedTokenAddress js mint (publicKey wallet)) as [account|e].
      * intros [= <- <-]. split; [reflexivity|].
        exists [GetTokenAccountBalance account]. split; [reflexivity | repeat constructor].
      * intros [= <- <-]. split; [reflexivity|]. exists []. split; [reflexivity | constructor].
    + intros [= <- <-]. split; [reflexivity|]. exists []. split; [reflexivity | constructor].
Qed.

End BalanceFacts.

Lemma balance_reads_only (evs : list Event) :
  Forall (fun ev => is_balance_read ev = true) evs ->
  quoteRequests evs = [] /\ decimalsFetches evs = [] /\ timers evs = [].
Proof.
  induction 1 as [|ev evs Hev _ (IH1 & IH2 & IH3)]; [repeat split|].
  change (ev :: evs) with ([ev] ++ evs).
  unfold quoteRequests, decimalsFetches in *.
  rewrite !filter_app, timers_app, IH1, IH2, IH3.
  destruct ev; try discriminate; repeat split.
Qed.

Lemma balance_reads_are_no_quotes (evs tr : list Event) :
  Forall (fun ev => is_balance_read ev = true) evs ->
  quoteRequests (evs ++ tr) = quoteRequests tr
  /\ decimalsFetches (evs ++ tr) = decimalsFetches tr
  /\ timers (evs ++ tr) = timers tr.
Proof.
  intros (H1 & H2 & H3)%balance_reads_only.
  unfold quoteRequests, decimalsFetches in *.
  rewrite !filter_app, timers_app, H1, H2, H3, app_nil_r. repeat split.
Qed.

(** ** Selling an empty balance *)

Section SellFacts.

Context (js : Runtime) (net : Network) (tokenMint : string) (wallet : Wallet)
        (isNewToken : option bool).

(** A sample that is not positive makes [safeSellAndClose] throw in the world
    of the sample. *)
Lemma safeSellAndClose_no_balance w b w1 :
  getTokenBalance js net wallet tokenMint w = (Return b, w1) ->
  (b <= 0)%Q ->
  safeSellAndClose js net tokenMint wallet isNewToken w = (Throw (noBalance tokenMint), w1).
Proof.
  intros Hb Hle%Qle_bool_iff.
  unfold safeSellAndClose, try_catch. unfold bind at 1. rewrite Hb, Hle. reflexivity.
Qed.

End SellFacts.

(** C6.  Whenever the balance sampled by [safeSellAndClose] is not positive
    (zero included), it throws the no-balance error in the world of the
    sample: the call has made no quote request and no fetch of the mint's
    decimals. *)
Theorem safeSellAndClose_rejects_empty_balance
    (js : Runtime) (net : Network) (tokenMint : string) (wallet : Wallet)
    (isNewToken : option bool) (w : World) (b : Q) (w1 : World) :
  getTokenBalance js net wallet tokenMint w = (Return b, w1) ->
  (b <= 0)%Q ->
  safeSellAndClose js net tokenMint wallet isNewToken w = (Throw (noBalance tokenMint), w1)
  /\ quoteRequests (trace w1) = quoteRequests (trace w)
  /\ decimalsFetches (trace w1) = decimalsFetches (trace w).
Proof.
  intros Hb Hle. split.
  - now apply (safeSellAndClose_no_balance js net tokenMint wallet isNewToken w b w1).
  - apply getTokenBalance_trace in Hb as (_ & evs & -> & Hevs).
    apply (balance_reads_are_no_quotes evs (trace w)) in Hevs as (H1 & H2 & _).
    now split.
Qed.

(** The token account holds exactly 0: the sell is rejected after the single
    balance request. *)
Lemma safeSellAndClose_rejects_empty_balance_witness :
  exists w1,
    safeSellAndClose Scenario.js Scenario.net_expiring USDC_MINT Scenario.wallet None
                     Scenario.world0
      = (Throw (noBalance USDC_MINT), w1)
    /\ trace w1 = [GetTokenAccountBalance (TEST_PUBLIC_KEY ++ "/" ++ USDC_MINT)].
Proof.
  eexists. split.
  - apply (safeSellAndClose_rejects_empty_balance
             Scenario.js Scenario.net_expiring USDC_MINT Scenario.wallet None
             Scenario.world0 0%Q);
      [ reflexivity | discriminate ].
  - reflexivity.
Defined.

(** C10.  [getTokenBalance] never throws; when the read of the balance fails
    (the RPC call rejects, for a missing token account or for any other
    reason, or the addresses cannot be formed) it returns 0, and
    [safeSellAndClose] then rejects with the no-balance error, the very error
    with which it rejects every sample of 0, a genuinely empty holding
    included. *)
Theorem getTokenBalance_absorbs_failures
    (js : Runtime) (net : Network) (wallet : Wallet) (tokenMint : string)
    (isNewToken : option bool) (w : World) :
  (exists b w', getTokenBalance js net wallet tokenMint w = (Return b, w'))
  /\ (balanceReadFails js net wallet tokenMint w ->
      exists w',
        getTokenBalance js net wallet tokenMint w = (Return 0%Q, w')
        /\ safeSellAndClose js net tokenMint wallet isNewToken w
           = (Throw (noBalance tokenMint), w'))
  /\ (forall w',
        getTokenBalance js net wallet tokenMint w = (Return 0%Q, w') ->
        safeSellAndClose js net tokenMint wallet isNewToken w
        = (Throw (noBalance tokenMint), w')).
Proof.
  split; [apply getTokenBalance_returns|]. split.
  - intros (w' & Hb)%getTokenBalance_failure. exists w'. split; [exact Hb|].
    apply (safeSellAndClose_no_balance js net tokenMint wallet isNewToken w 0%Q w' Hb).
    apply Qle_refl.
  - intros w' Hb.
    apply (safeSellAndClose_no_balance js net tokenMint wallet isNewToken w 0%Q w' Hb).
    apply Qle_refl.
Qed.

(** The RPC endpoint rejects the balance request with a rate limit error:
    the balance reads as 0 and the sell is rejected for lack of balance. *)
Lemma getTokenBalance_absorbs_failures_witness :
  balanceReadFails Scenario.js Scenario.net_balance_unreadable Scenario.wallet USDC_MINT
                   Scenario.world0
  /\ exists w',
       getTokenBalance Scenario.js Scenario.net_balance_unreadable Scenario.wallet USDC_MINT
                       Scenario.world0 = (Return 0%Q, w')
       /\ safeSellAndClose Scenario.js Scenario.net_balance_unreadable USDC_MINT
                           Scenario.wallet None Scenario.world0
          = (Throw (noBalance USDC_MINT), w').
Proof.
  assert (Hfails : balanceReadFails Scenario.js Scenario.net_balance_unreadable
                     Scenario.wallet USDC_MINT Scenario.world0).
  { exists (mkError "429 Too Many Requests"). reflexivity. }
  split; [exact Hfails|].
  exact (proj1 (proj2 (getTokenBalance_absorbs_failures
                         Scenario.js Scenario.net_balance_unreadable Scenario.wallet
                         USDC_MINT None Scenario.world0)) Hfails).
Defined.

(** ** The balance watcher *)

(** One unrolling of the watcher's loop. *)
Lemma balanceLoop_unfold (js : Runtime) (net : Network) (wallet : Wallet) (tokenMint : string)
    (retries delayMs : number) (initialBalance : Q) fuel currentBalance attempts w :
  balanceLoop js net wallet tokenMint retries delayMs initialBalance
              (S fuel) currentBalance attempts w
  = if Js.lt (Int attempts) retries && Qeq_bool currentBalance initialBalance then
      match getTokenBalance js net wallet tokenMint (world_after (delay net delayMs) w) with
      | (Return c, w') =>
          balanceLoop js net wallet tokenMint retries delayMs initialBalance
                      fuel c (attempts + 1) w'
      | (Throw e, w') => (Throw e, w')
      | (OutOfFuel, w') => (OutOfFuel, w')
      end
    else (Return currentBalance, w).
Proof.
  cbn [balanceLoop].
  destruct (Js.lt (Int attempts) retries && Qeq_bool currentBalance initialBalance);
    [|reflexivity].
  unfold bind at 1. unfold delay at 1, sleep at 1, perform at 1. cbn [settle].
  unfold bind. unfold world_after, delay, sleep, perform. simpl.
  destruct (getTokenBalance js net wallet tokenMint _) as [[c|e|] w']; reflexivity.
Qed.

Section WatcherFacts.

Context (js : Runtime) (net : Network) (wallet : Wallet) (tokenMint : string)
        (retries : Z) (delayMs : number) (b : Q).

Hypothesis steady : forall w, result_of (getTokenBalance js net wallet tokenMint) w = Return b.

Lemma steady_run w :
  getTokenBalance js net wallet tokenMint w
  = (Return b, world_after (getTokenBalance js net wallet tokenMint) w).
Proof.
  specialize (steady w). unfold result_of, world_after in *.
  destruct (getTokenBalance js net wallet tokenMint w). simpl in *. now subst.
Qed.

(** With [n] attempts to go and a balance that stays at the initial one, the
    loop samples [n] more times and returns the unchanged balance. *)
Lemma balanceLoop_steady n : forall attempts fuel w,
  retries - attempts = Z.of_nat n ->
  (n + 1 <= fuel)%nat ->
  balanceLoop js net wallet tokenMint (Int retries) delayMs b fuel b attempts w
  = (Return b, Nat.iter n (resample js net wallet tokenMint delayMs) w).
Proof.
  induction n as [|n IH]; intros attempts fuel w Hn Hfuel;
    (destruct fuel as [|fuel]; [lia|]); rewrite balanceLoop_unfold; cbn [Js.lt].
  - destruct (Z.ltb_spec attempts retries); [lia | reflexivity].
  - destruct (Z.ltb_spec attempts retries); [|lia].
    rewrite (proj2 (Qeq_bool_iff b b) (Qeq_refl b)). cbn [andb].
    rewrite steady_run, IH by lia. now rewrite Nat.iter_succ_r.
Qed.

(** Each further sample arms one timer of [delayMs]. *)
Lemma resample_timers n : forall w,
  timers (trace (Nat.iter n (resample js net wallet tokenMint delayMs) w))
  = timers (trace w) ++ repeat delayMs n.
Proof.
  induction n as [|n IH]; intros w; [now rewrite app_nil_r|].
  rewrite Nat.iter_succ_r, IH. unfold resample.
  destruct (getTokenBalance js net wallet tokenMint (world_after (delay net delayMs) w))
    as [o w'] eqn:Hb.
  unfold world_after at 1. rewrite Hb. simpl snd.
  apply getTokenBalance_trace in Hb as (_ & evs & -> & Hevs).
  apply (balance_reads_are_no_quotes evs (trace (world_after (delay net delayMs) w)))
    in Hevs as (_ & _ & ->).
  change (trace (world_after (delay net delayMs) w)) with ([SetTimeout delayMs] ++ trace w).
  rewrite timers_app. simpl. now rewrite <- app_assoc.
Qed.

End WatcherFacts.

(** C9.  Over a balance source that returns the same amount on every sample,
    [waitForBalanceChange] with [retries = 5] never throws: it takes the
    initial sample, then exactly 5 more, each after one delay, and returns
    the unchanged amount. *)
Theorem waitForBalanceChange_steady_balance
    (js : Runtime) (net : Network) (wallet : Wallet) (tokenMint : string)
    (delayMs : option number) (b : Q) (w : World) :
  (forall w0, result_of (getTokenBalance js net wallet tokenMint) w0 = Return b) ->
  exists w',
    waitForBalanceChange js net wallet tokenMint (Some (Int 5)) delayMs w = (Return b, w')
    /\ w' = Nat.iter 5 (resample js net wallet tokenMint (default (Int 2000) delayMs))
                     (world_after (getTokenBalance js net wallet tokenMint) w)
    /\ timers (trace w') = timers (trace w) ++ repeat (default (Int 2000) delayMs) 5.
Proof.
  intros Hsteady. eexists. split; [|split; [reflexivity|]].
  - unfold waitForBalanceChange. unfold bind at 1.
    rewrite (steady_run js net wallet tokenMint b Hsteady w).
    apply (balanceLoop_steady js net wallet tokenMint 5 _ b Hsteady 5); simpl; lia.
  - rewrite resample_timers. f_equal.
    destruct (getTokenBalance js net wallet tokenMint w) as [o w1] eqn:Hb.
    unfold world_after. rewrite Hb. simpl snd.
    apply getTokenBalance_trace in Hb as (_ & evs & -> & Hevs).
    now apply (balance_reads_are_no_quotes evs (trace w)) in Hevs as (_ & _ & ->).
Qed.

(** The omitted [retries] is 5. *)
Lemma waitForBalanceChange_default_retries
    (js : Runtime) (net : Network) (wallet : Wallet) (tokenMint : string)
    (delayMs : option number) :
  waitForBalanceChange js net wallet tokenMint None delayMs
  = waitForBalanceChange js net wallet tokenMint (Some (Int 5)) delayMs.
Proof. reflexivity. Qed.

(** The wallet holds half a token throughout: six balance requests, five
    delays of 2000 ms, and the result is the half token. *)
Lemma waitForBalanceChange_steady_balance_witness :
  exists w',
    waitForBalanceChange Scenario.js Scenario.net_steady_balance Scenario.wallet USDC_MINT
                         (Some (Int 5)) (Some (Int 2000)) Scenario.world0
      = (Return (1 # 2)%Q, w')
    /\ timers (trace w') = repeat (Int 2000) 5
    /\ length (filter (fun ev => is_balance_read ev = true) (trace w')) = 6%nat.
Proof.
  destruct (waitForBalanceChange_steady_balance
              Scenario.js Scenario.net_steady_balance Scenario.wallet USDC_MINT
              (Some (Int 2000)) (1 # 2)%Q Scenario.world0)
    as (w' & Hrun & Hw' & Htimers).
  - intros w0. reflexivity.
  - exists w'. split; [exact Hrun|]. split; [exact Htimers|].
    rewrite Hw'. reflexivity.
Defined.

(** ** The frame of [process.env] *)

Lemma keeps_env_ret {A} (a : A) : keeps_env (ret a).
Proof. now intros w. Qed.

Lemma keeps_env_throw {A} (e : Error) : keeps_env (@throw A e).
Proof. now intros w. Qed.

Lemma keeps_env_lift {A} (r : result A) : keeps_env (lift r).
Proof. now intros w. Qed.

Lemma keeps_env_out_of_fuel {A} : keeps_env (@out_of_fuel A).
Proof. now intros w. Qed.

Lemma keeps_env_Date_now : keeps_env Date_now.
Proof. now intros w. Qed.

Lemma keeps_env_process_env : keeps_env process_env.
Proof. now intros w. Qed.

Lemma keeps_env_perform {A} net ev base (reply : list Event -> result A) :
  keeps_env (perform net ev base reply).
Proof. now intros w. Qed.

Lemma keeps_env_request {A} net ev (reply : list Event -> result A) :
  keeps_env (request net ev reply).
Proof. now intros w. Qed.

Lemma keeps_env_sleep net ms : keeps_env (sleep net ms).
Proof. now intros w. Qed.

Lemma keeps_env_wait net ms : keeps_env (wait net ms).
Proof. now intros w. Qed.

Lemma keeps_env_delay net ms : keeps_env (delay net ms).
Proof. now intros w. Qed.

Lemma keeps_env_bind {A B} (m : M A) (k : A -> M B) :
  keeps_env m -> (forall a, keeps_env (k a)) -> keeps_env (bind m k).
Proof.
  intros Hm Hk w. specialize (Hm w). unfold world_after, bind in *.
  destruct (m w) as [[a|e|] w1]; simpl in *; [|assumption..].
  specialize (Hk a w1). unfold world_after in Hk. congruence.
Qed.

Lemma keeps_env_try_catch {A} (m : M A) (handler : Error -> M A) :
  keeps_env m -> (forall e, keeps_env (handler e)) -> keeps_env (try_catch m handler).
Proof.
  intros Hm Hh w. specialize (Hm w). unfold world_after, try_catch in *.
  destruct (m w) as [[a|e|] w1]; simpl in *; [assumption| |assumption].
  specialize (Hh e w1). unfold world_after in Hh. congruence.
Qed.

Create HintDb env_frame discriminated.

#[export] Hint Resolve keeps_env_ret keeps_env_throw keeps_env_lift keeps_env_out_of_fuel
  keeps_env_Date_now keeps_env_process_env keeps_env_perform keeps_env_request
  keeps_env_sleep keeps_env_wait keeps_env_delay : env_frame.

(** Decompose a computation along its binds, handlers and case analyses. *)
Ltac env_frame :=
  repeat first
    [ match goal with |- forall _, _ => intro end
    | solve [ auto with env_frame ]
    | apply keeps_env_bind
    | apply keeps_env_try_catch
    | match goal with
      | |- keeps_env (match ?x with _ => _ end) => destruct x
      | |- keeps_env (let _ := _ in _) => cbv zeta
      end ].

Lemma keeps_env_getWallet js : keeps_env (getWallet js).
Proof. unfold getWallet. env_frame. Qed.

Lemma keeps_env_pollLoop net sig lvbh timeoutAt fuel :
  forall r, keeps_env (pollLoop net sig lvbh timeoutAt fuel r).
Proof.
  induction fuel as [|fuel IH]; intros r; simpl; [auto with env_frame|].
  unfold pollOnce. env_frame.
Qed.

#[export] Hint Resolve keeps_env_pollLoop : env_frame.

Lemma keeps_env_sender net params :
  keeps_env (transactionSenderAndConfirmationWaiter net params).
Proof.
  unfold transactionSenderAndConfirmationWaiter. env_frame.
Qed.

Lemma keeps_env_getTokenDecimals net tokenMint : keeps_env (getTokenDecimals net tokenMint).
Proof. unfold getTokenDecimals. env_frame. Qed.

Lemma keeps_env_getTokenBalance js net wallet tokenMint :
  keeps_env (getTokenBalance js net wallet tokenMint).
Proof. unfold getTokenBalance. env_frame. Qed.

Lemma keeps_env_balanceLoop js net wallet tokenMint retries delayMs initialBalance fuel :
  forall currentBalance attempts,
    keeps_env (balanceLoop js net wallet tokenMint retries delayMs initialBalance
                           fuel currentBalance attempts).
Proof.
  induction fuel as [|fuel IH]; intros c a; simpl; [auto with env_frame|].
  env_frame.
Qed.

#[export] Hint Resolve keeps_env_getTokenBalance keeps_env_balanceLoop : env_frame.

Lemma keeps_env_waitForBalanceChange js net wallet tokenMint retries delayMs :
  keeps_env (waitForBalanceChange js net wallet tokenMint retries delayMs).
Proof.
  unfold waitForBalanceChange. env_frame.
Qed.

Lemma keeps_env_executeSwap js net swapResponse wallet :
  keeps_env (executeSwap js net swapResponse wallet).
Proof. unfold executeSwap. pose proof (keeps_env_sender net). env_frame. Qed.

Lemma keeps_env_getSwapResponse js net wallet quote options :
  keeps_env (getSwapResponse js net wallet quote options).
Proof. unfold getSwapResponse. env_frame. Qed.

Lemma keeps_env_simulateSwap js net swapResponse wallet :
  keeps_env (simulateSwap js net swapResponse wallet).
Proof. unfold simulateSwap. env_frame. Qed.

#[export] Hint Resolve keeps_env_getWallet keeps_env_sender keeps_env_getTokenDecimals
  keeps_env_waitForBalanceChange keeps_env_executeSwap
  keeps_env_getSwapResponse keeps_env_simulateSwap : env_frame.

Lemma keeps_env_swapLoop js net quote wallet maxRetries fuel :
  forall attempt lastError,
    keeps_env (swapLoop js net quote wallet maxRetries fuel attempt lastError).
Proof.
  induction fuel as [|fuel IH]; intros a l; simpl; [auto with env_frame|].
  unfold swapAttempt. env_frame.
Qed.

Lemma keeps_env_executeSwapSafely js net quote wallet maxRetries :
  keeps_env (executeSwapSafely js net quote wallet maxRetries).
Proof. unfold executeSwapSafely. apply keeps_env_swapLoop. Qed.

#[export] Hint Resolve keeps_env_executeSwapSafely : env_frame.

Lemma keeps_env_safeSellAndClose js net tokenMint wallet isNewToken :
  keeps_env (safeSellAndClose js net tokenMint wallet isNewToken).
Proof. unfold safeSellAndClose. env_frame. Qed.

Lemma keeps_env_buy js net outputMint isNewToken : keeps_env (buy js net outputMint isNewToken).
Proof. unfold buy. env_frame. Qed.

Lemma keeps_env_sell js net inputMint amount isNewToken :
  keeps_env (sell js net inputMint amount isNewToken).
Proof. unfold sell. env_frame. Qed.

Lemma keeps_env_retryLoop {T} net (fn : M T) name maxRetries initialDelay exponential fuel :
  keeps_env fn ->
  forall attempt lastError,
    keeps_env (retryLoop net fn name maxRetries initialDelay exponential fuel attempt lastError).
Proof.
  intros Hfn. induction fuel as [|fuel IH]; intros a l; simpl; [auto with env_frame|].
  unfold retryAttempt. env_frame.
Qed.

Lemma keeps_env_withRetry {T} net (fn : M T) name maxRetries initialDelay exponential :
  keeps_env fn -> keeps_env (withRetry net fn name maxRetries initialDelay exponential).
Proof. intros Hfn. unfold withRetry. now apply keeps_env_retryLoop. Qed.

#[export] Hint Resolve keeps_env_safeSellAndClose keeps_env_buy keeps_env_sell
  keeps_env_withRetry : env_frame.

(** ** The buy-amount override of [buyAndSellFlow] *)

Lemma getWallet_world js w o w' : getWallet js w = (o, w') -> w' = w.
Proof.
  unfold getWallet, bind, process_env, lift, throw.
  destruct (env w !! "PRIVATE_KEY") as [k|]; [destruct (Js.truthy k)|]; now intros [= _ <-].
Qed.

Lemma world_after_bind {A B} (m : M A) (k : A -> M B) w a w1 :
  m w = (Return a, w1) -> world_after (bind m k) w = world_after (k a) w1.
Proof. intros H. unfold world_after, bind. now rewrite H. Qed.

Lemma world_after_rethrow {A} (m : M A) w :
  world_after (try_catch m (fun error => throw error)) w = world_after m w.
Proof. unfold world_after, try_catch, throw. now destruct (m w) as [[a|e|] w1]. Qed.

Lemma or_else_empty_idempotent (s : option string) :
  Js.or_else (Some (Js.or_else s "")) "" = Js.or_else s "".
Proof. destruct s as [[|c s]|]; reflexivity. Qed.

Section OverrideFacts.

Context (js : Runtime) (net : Network) (tokenMint : string) (buyAmountSOL : Q)
        (w : World) (wallet : Wallet).

Hypothesis Hwallet : getWallet js w = (Return wallet, w).
Hypothesis Hconnection : newConnection js (RPC_ENDPOINT (getConfig js (env w))) = Ok tt.

(** When every attempt of the buy fails, the flow rethrows the last error
    from the world the buy step ended in: the assignment that restores
    [process.env.BUY_AMOUNT_SOL] is not reached. *)
Lemma buyAndSellFlow_buy_fails e w1 :
  buyStep js net tokenMint w (withBuyAmount js buyAmountSOL w) = (Throw e, w1) ->
  buyAndSellFlow js net tokenMint (Some buyAmountSOL) w = (Throw e, w1)
  /\ env w1 !! "BUY_AMOUNT_SOL" = Some (numberToString js buyAmountSOL).
Proof.
  intros Hbuy. split.
  - unfold buyAndSellFlow. unfold try_catch at 1. unfold bind at 1. rewrite Hwallet.
    unfold bind at 1, process_env. cbv zeta.
    unfold bind at 1, lift at 1. rewrite Hconnection. cbn [settle].
    unfold bind at 1, set_process_env at 1.
    unfold bind at 1, try_catch at 1.
    change (withRetry net _ _ _ _ _ _)
      with (buyStep js net tokenMint w (withBuyAmount js buyAmountSOL w)).
    now rewrite Hbuy.
  - assert (Henv : env w1 = env (withBuyAmount js buyAmountSOL w)).
    { pose proof (keeps_env_withRetry net
                    (buy js net tokenMint
                       (Some (bool_decide (NEW_TOKEN_MODE (getConfig js (env w)) = Some "true"))))
                    (Some "TokenPurchase") (Some 3) (Some 1000) None
                    (keeps_env_buy js net tokenMint _) (withBuyAmount js buyAmountSOL w)) as H.
      unfold world_after at 1 in H. unfold buyStep in Hbuy. now rewrite Hbuy in H. }
    rewrite Henv. unfold withBuyAmount, world_after, set_process_env. simpl.
    apply lookup_insert_eq.
Qed.

(** When the buy succeeds, the flow writes the original amount back, and
    nothing after that touches [process.env]: at the end of the flow, however
    it ends, the configured buy amount is the original one. *)
Lemma buyAndSellFlow_buy_succeeds buyTx w1 :
  buyStep js net tokenMint w (withBuyAmount js buyAmountSOL w) = (Return buyTx, w1) ->
  env (world_after (buyAndSellFlow js net tokenMint (Some buyAmountSOL)) w)
    = <["BUY_AMOUNT_SOL" := configuredBuyAmount js w]> (env w)
  /\ configuredBuyAmount js (world_after (buyAndSellFlow js net tokenMint (Some buyAmountSOL)) w)
     = configuredBuyAmount js w.
Proof.
  intros Hbuy.
  assert (Henv1 : env w1 = <["BUY_AMOUNT_SOL" := numberToString js buyAmountSOL]> (env w)).
  { pose proof (keeps_env_withRetry net
                  (buy js net tokenMint
                     (Some (bool_decide (NEW_TOKEN_MODE (getConfig js (env w)) = Some "true"))))
                  (Some "TokenPurchase") (Some 3) (Some 1000) None
                  (keeps_env_buy js net tokenMint _) (withBuyAmount js buyAmountSOL w)) as H.
    unfold world_after at 1 in H. unfold buyStep in Hbuy. now rewrite Hbuy in H. }
  assert (Henv : env (world_after (buyAndSellFlow js net tokenMint (Some buyAmountSOL)) w)
                 = <["BUY_AMOUNT_SOL" := configuredBuyAmount js w]> (env w)).
  { unfold buyAndSellFlow. rewrite world_after_rethrow.
    rewrite (world_after_bind _ _ w wallet w Hwallet).
    rewrite (world_after_bind process_env _ w (env w) w eq_refl). cbv zeta.
    rewrite (world_after_bind
               (lift (newConnection js (RPC_ENDPOINT (getConfig js (env w))))) _ w tt w
               ltac:(unfold lift; now rewrite Hconnection)).
    rewrite (world_after_bind (set_process_env _ _) _ w tt
               (withBuyAmount js buyAmountSOL w) eq_refl).
    rewrite (world_after_bind _ _ (withBuyAmount js buyAmountSOL w) buyTx w1).
    2:{ unfold try_catch. unfold buyStep in Hbuy. now rewrite Hbuy. }
    rewrite (world_after_bind (set_process_env _ _) _ w1 tt
               (world_after (set_process_env "BUY_AMOUNT_SOL" (configuredBuyAmount js w)) w1)
               eq_refl).
    match goal with
    | |- env (world_after ?m ?w2) = _ =>
        assert (Hrest : keeps_env m) by env_frame; rewrite (Hrest w2)
    end.
    unfold world_after, set_process_env. simpl. rewrite Henv1.
    apply insert_insert_eq. }
  split; [exact Henv|].
  unfold configuredBuyAmount at 1. rewrite Henv. unfold getConfig at 1. simpl.
  rewrite lookup_insert_eq. unfold configuredBuyAmount, getConfig. simpl.
  apply or_else_empty_idempotent.
Qed.

End OverrideFacts.

(** ** Validation of quotes *)

(** [buy] rejects a quote whose output amount is not positive before any swap
    is built. *)
Lemma buy_rejects_nonpositive_quote
    (js : Runtime) (net : Network) (outputMint : string) (isNewToken : option bool)
    (w : World) (wallet : Wallet) (mint : string) (q : QuoteResponse) (out : string) (n : Z) :
  getWallet js w = (Return wallet, w) ->
  newPublicKey js outputMint = Ok mint ->
  quoteGet net (QuoteGet (buyQuoteRequest js (env w) outputMint isNewToken) :: trace w)
    = Ok (Some q) ->
  outAmount q = Some out ->
  Js.truthy out = true ->
  BigInt js out = Ok n ->
  n <= 0 ->
  buy js net outputMint isNewToken w
  = (Throw invalidQuote,
     world_after (request net (QuoteGet (buyQuoteRequest js (env w) outputMint isNewToken))
                          (quoteGet net)) w).
Proof.
  intros Hwallet Hmint Hquote Hout Htruthy Hbig Hn.
  unfold buy. unfold bind at 1, process_env. cbv zeta.
  unfold bind at 1. rewrite Hwallet.
  unfold bind at 1, try_catch at 1, lift at 1. rewrite Hmint. cbn [settle].
  fold (buyQuoteRequest js (env w) outputMint isNewToken).
  unfold try_catch. unfold bind at 1. rewrite request_run, Hquote. cbn [settle].
  rewrite Hout, Htruthy. cbn [negb]. unfold bind, lift. rewrite Hbig. cbn [settle].
  apply Z.leb_le in Hn. now rewrite Hn.
Qed.

(** [safeSellAndClose] hands every quote whose [outAmount] is a non-empty
    numeral to [executeSwapSafely], whatever its sign. *)
Lemma safeSellAndClose_accepts_any_amount
    (js : Runtime) (net : Network) (tokenMint : string) (wallet : Wallet)
    (isNewToken : option bool) (w w1 w2 : World) (b : Q) (mint : string) (decimals : Z)
    (q : QuoteResponse) (out : string) (n : Z) :
  getTokenBalance js net wallet tokenMint w = (Return b, w1) ->
  (0 < b)%Q ->
  newPublicKey js tokenMint = Ok mint ->
  getTokenDecimals net mint w1 = (Return decimals, w2) ->
  quoteGet net (QuoteGet (sellAllQuoteRequest js (env w2) tokenMint isNewToken b decimals)
                  :: trace w2) = Ok (Some q) ->
  outAmount q = Some out ->
  Js.truthy out = true ->
  BigInt js out = Ok n ->
  safeSellAndClose js net tokenMint wallet isNewToken w
  = try_catch (executeSwapSafely js net q wallet (Some 3)) (fun error => throw error)
      (world_after
         (request net (QuoteGet (sellAllQuoteRequest js (env w2) tokenMint isNewToken b decimals))
                  (quoteGet net)) w2).
Proof.
  intros Hb Hpos Hmint Hdec Hquote Hout Htruthy Hbig.
  assert (Hle : Qle_bool b 0 = false).
  { destruct (Qle_bool b 0) eqn:E; [|reflexivity].
    apply Qle_bool_iff in E. exfalso. apply (Qlt_not_le _ _ Hpos E). }
  unfold safeSellAndClose. unfold try_catch at 1. unfold bind at 1. rewrite Hb, Hle.
  unfold bind at 1, lift at 1. rewrite Hmint. cbn [settle].
  unfold bind at 1. rewrite Hdec.
  unfold bind at 1, process_env. cbv zeta.
  fold (sellAllQuoteRequest js (env w2) tokenMint isNewToken b decimals).
  unfold bind at 1. rewrite request_run, Hquote. cbn [settle].
  rewrite Hout, Htruthy. cbn [negb].
  unfold bind at 1, lift at 1. rewrite Hbig. cbn [settle].
  reflexivity.
Qed.

(** C8, at the input on which the code departs from the claim.  The token
    is USDC, whose mint the [PublicKey] constructor accepts; the wallet holds
    half a token and the quoting service answers the sell-all request with
    [outAmount = "0"]: [safeSellAndClose] builds a swap, broadcasts it
    and returns its signature, while [buy] and [sell] reject the same quote
    before any swap is built. *)
Theorem safeSellAndClose_swaps_on_zero_output_quote :
  result_of (safeSellAndClose Scenario.js Scenario.net_zero_quote USDC_MINT Scenario.wallet None)
            Scenario.world0 = Return "sig"
  /\ length (swapBuilds (trace (world_after
               (safeSellAndClose Scenario.js Scenario.net_zero_quote USDC_MINT Scenario.wallet None)
               Scenario.world0))) = 1%nat
  /\ length (broadcasts (trace (world_after
               (safeSellAndClose Scenario.js Scenario.net_zero_quote USDC_MINT Scenario.wallet None)
               Scenario.world0))) = 1%nat
  /\ result_of (buy Scenario.js Scenario.net_zero_quote USDC_MINT None) Scenario.world0
     = Throw invalidQuote
  /\ swapBuilds (trace (world_after (buy Scenario.js Scenario.net_zero_quote USDC_MINT None)
                                    Scenario.world0)) = []
  /\ result_of (sell Scenario.js Scenario.net_zero_quote USDC_MINT (1 # 2) None) Scenario.world0
     = Throw (mkError "Invalid sell quote received - possible insufficient liquidity")
  /\ swapBuilds (trace (world_after (sell Scenario.js Scenario.net_zero_quote USDC_MINT (1 # 2) None)
                                    Scenario.world0)) = [].
Proof. repeat split; vm_compute; reflexivity. Qed.

(** C7, at the input on which the code departs from the claim.  The buy
    amount is configured as 0.1 SOL, the flow is started with an override of
    0.5 SOL, and the quoting service rejects every request: the three
    attempts of the buy fail, the flow rethrows, and the configured buy
    amount is left at the override. *)
Theorem buyAndSellFlow_failed_buy_leaves_override :
  configuredBuyAmount Scenario.js Scenario.world0 = "0.1"
  /\ result_of (buyAndSellFlow Scenario.js Scenario.net_expiring USDC_MINT (Some (1 # 2)%Q))
               Scenario.world0
     = Throw (mkError "Response returned an error code")
  /\ configuredBuyAmount Scenario.js
       (world_after (buyAndSellFlow Scenario.js Scenario.net_expiring USDC_MINT (Some (1 # 2)%Q))
                    Scenario.world0)
     = "0.5".
Proof. repeat split; vm_compute; reflexivity. Qed.

(** When every step works the same override is undone: the flow completes
    and the configured buy amount is 0.1 SOL again. *)
Example buyAndSellFlow_completed_restores_amount :
  result_of (buyAndSellFlow Scenario.js Scenario.net_working USDC_MINT (Some (1 # 2)%Q))
            Scenario.world0 = Return tt
  /\ configuredBuyAmount Scenario.js
       (world_after (buyAndSellFlow Scenario.js Scenario.net_working USDC_MINT (Some (1 # 2)%Q))
                    Scenario.world0)
     = "0.1".
Proof. repeat split; vm_compute; reflexivity. Qed.

(** ** The loops end within their fuel *)

Lemma within_fuel_ret {A} (a : A) : within_fuel (ret a).
Proof. now intros w. Qed.

Lemma within_fuel_throw {A} (e : Error) : within_fuel (@throw A e).
Proof. now intros w. Qed.

Lemma within_fuel_lift {A} (r : result A) : within_fuel (lift r).
Proof. intros w. unfold result_of, lift. now destruct r. Qed.

Lemma within_fuel_process_env : within_fuel process_env.
Proof. now intros w. Qed.

Lemma within_fuel_set_process_env name value : within_fuel (set_process_env name value).
Proof. now intros w. Qed.

Lemma within_fuel_request {A} net ev (reply : list Event -> result A) :
  within_fuel (request net ev reply).
Proof. intros w. unfold result_of, request, perform. simpl. now destruct (reply _). Qed.

Lemma within_fuel_sleep net ms : within_fuel (sleep net ms).
Proof. now intros w. Qed.

Lemma within_fuel_delay net ms : within_fuel (delay net ms).
Proof. now intros w. Qed.

Lemma within_fuel_bind {A B} (m : M A) (k : A -> M B) :
  within_fuel m -> (forall a, within_fuel (k a)) -> within_fuel (bind m k).
Proof.
  intros Hm Hk w. specialize (Hm w). unfold result_of, bind in *.
  destruct (m w) as [[a|e|] w1]; simpl in *; [apply Hk | discriminate | contradiction].
Qed.

Lemma within_fuel_try_catch {A} (m : M A) (handler : Error -> M A) :
  within_fuel m -> (forall e, within_fuel (handler e)) -> within_fuel (try_catch m handler).
Proof.
  intros Hm Hh w. specialize (Hm w). unfold result_of, try_catch in *.
  destruct (m w) as [[a|e|] w1]; simpl in *; [discriminate | apply Hh | contradiction].
Qed.

Create HintDb fuel discriminated.

#[export] Hint Resolve within_fuel_ret within_fuel_throw within_fuel_lift
  within_fuel_process_env within_fuel_set_process_env within_fuel_request
  within_fuel_sleep within_fuel_delay : fuel.

(** Decompose a computation along its binds, handlers and case analyses. *)
Ltac fuel_frame :=
  repeat first
    [ match goal with |- forall _, _ => intro end
    | solve [ auto with fuel ]
    | apply within_fuel_bind
    | apply within_fuel_try_catch
    | match goal with
      | |- within_fuel (match ?x with _ => _ end) => destruct x
      | |- within_fuel (let _ := _ in _) => cbv zeta
      | |- within_fuel (fun w => (Return _, _)) => now intros ?
      | |- within_fuel (fun w => (Throw _, _)) => now intros ?
      end ].

(** The sender: its polling loop is covered by [pollFuel]. *)
Lemma within_fuel_sender net params :
  within_fuel (transactionSenderAndConfirmationWaiter net params).
Proof.
  intros w. unfold result_of.
  destruct (sendRawTransaction net
              (SendRawTransaction (serializedTransaction params) true :: trace w))
    as [sig|e] eqn:Hs.
  - destruct (getBlockHeight net
                (GetBlockHeight :: SendRawTransaction (serializedTransaction params) true
                   :: trace w)) as [h0|e] eqn:Hh.
    + destruct (sender_total net params w sig h0 Hs Hh) as (x & w' & ->). discriminate.
    + unfold transactionSenderAndConfirmationWaiter.
      unfold bind at 1. rewrite request_run, Hs. cbn [settle].
      unfold bind at 1, Date_now. unfold bind at 1. rewrite request_run, request_trace, Hh.
      discriminate.
  - unfold transactionSenderAndConfirmationWaiter.
    unfold bind at 1. rewrite request_run, Hs. discriminate.
Qed.

#[export] Hint Resolve within_fuel_sender : fuel.

Lemma within_fuel_getWallet js : within_fuel (getWallet js).
Proof. unfold getWallet. fuel_frame. Qed.

Lemma within_fuel_getTokenDecimals net tokenMint : within_fuel (getTokenDecimals net tokenMint).
Proof. unfold getTokenDecimals. fuel_frame. Qed.

Lemma within_fuel_getTokenBalance js net wallet tokenMint :
  within_fuel (getTokenBalance js net wallet tokenMint).
Proof. unfold getTokenBalance. fuel_frame. Qed.

#[export] Hint Resolve within_fuel_getWallet within_fuel_getTokenDecimals
  within_fuel_getTokenBalance : fuel.

Lemma within_fuel_balanceLoop js net wallet tokenMint retries delayMs initialBalance fuel :
  forall currentBalance attempts,
    (match retries with
     | Int r => Z.to_nat (r - attempts) < fuel
     | NaN => 0 < fuel
     end)%nat ->
    within_fuel (balanceLoop js net wallet tokenMint retries delayMs initialBalance
                             fuel currentBalance attempts).
Proof.
  induction fuel as [|fuel IH]; intros c a Hfuel; [destruct retries; lia|].
  cbn [balanceLoop].
  destruct (Js.lt (Int a) retries) eqn:Hlt; cbn [andb]; [|auto with fuel].
  destruct (Qeq_bool c initialBalance); [|auto with fuel].
  fuel_frame. apply IH.
  destruct retries as [|r]; [discriminate|]. simpl in Hlt. apply Z.ltb_lt in Hlt. lia.
Qed.

Lemma within_fuel_waitForBalanceChange js net wallet tokenMint retries delayMs :
  within_fuel (waitForBalanceChange js net wallet tokenMint retries delayMs).
Proof.
  unfold waitForBalanceChange. fuel_frame. apply within_fuel_balanceLoop.
  unfold balanceFuel. destruct (default (Int 5) retries); lia.
Qed.

Lemma within_fuel_executeSwap js net swapResponse wallet :
  within_fuel (executeSwap js net swapResponse wallet).
Proof. unfold executeSwap. fuel_frame. Qed.

Lemma within_fuel_getSwapResponse js net wallet quote options :
  within_fuel (getSwapResponse js net wallet quote options).
Proof. unfold getSwapResponse. fuel_frame. Qed.

Lemma within_fuel_simulateSwap js net swapResponse wallet :
  within_fuel (simulateSwap js net swapResponse wallet).
Proof. unfold simulateSwap. fuel_frame. Qed.

#[export] Hint Resolve within_fuel_waitForBalanceChange within_fuel_executeSwap
  within_fuel_getSwapResponse within_fuel_simulateSwap : fuel.

Lemma within_fuel_swapLoop js net quote wallet maxRetries fuel :
  forall attempt lastError,
    (Z.to_nat (maxRetries - attempt + 1) < fuel)%nat ->
    within_fuel (swapLoop js net quote wallet maxRetries fuel attempt lastError).
Proof.
  induction fuel as [|fuel IH]; intros a l Hfuel; [lia|].
  cbn [swapLoop]. destruct (Z.leb_spec a maxRetries); [|auto with fuel].
  unfold swapAttempt. fuel_frame; apply IH; lia.
Qed.

Lemma within_fuel_executeSwapSafely js net quote wallet maxRetries :
  within_fuel (executeSwapSafely js net quote wallet maxRetries).
Proof. unfold executeSwapSafely. apply within_fuel_swapLoop. lia. Qed.

#[export] Hint Resolve within_fuel_executeSwapSafely : fuel.

Lemma within_fuel_safeSellAndClose js net tokenMint wallet isNewToken :
  within_fuel (safeSellAndClose js net tokenMint wallet isNewToken).
Proof. unfold safeSellAndClose. fuel_frame. Qed.

Lemma within_fuel_buy js net outputMint isNewToken :
  within_fuel (buy js net outputMint isNewToken).
Proof. unfold buy. fuel_frame. Qed.

Lemma within_fuel_sell js net inputMint amount isNewToken :
  within_fuel (sell js net inputMint amount isNewToken).
Proof. unfold sell. fuel_frame. Qed.

Lemma within_fuel_retryLoop {T} net (fn : M T) name maxRetries initialDelay exponential fuel :
  within_fuel fn ->
  forall attempt lastError,
    (Z.to_nat (maxRetries - attempt + 1) < fuel)%nat ->
    within_fuel (retryLoop net fn name maxRetries initialDelay exponential
                           fuel attempt lastError).
Proof.
  intros Hfn. induction fuel as [|fuel IH]; intros a l Hfuel; [lia|].
  cbn [retryLoop]. destruct (Z.leb_spec a maxRetries); [|auto with fuel].
  unfold retryAttempt. fuel_frame; apply IH; lia.
Qed.

Lemma within_fuel_withRetry {T} net (fn : M T) name maxRetries initialDelay exponential :
  within_fuel fn -> within_fuel (withRetry net fn name maxRetries initialDelay exponential).
Proof. intros Hfn. unfold withRetry. apply within_fuel_retryLoop; [assumption | lia]. Qed.

#[export] Hint Resolve within_fuel_safeSellAndClose within_fuel_buy within_fuel_sell
  within_fuel_withRetry : fuel.

(** The whole flow ends with a value or a thrown error. *)
Lemma within_fuel_buyAndSellFlow js net tokenMint buyAmountSOL :
  within_fuel (buyAndSellFlow js net tokenMint buyAmountSOL).
Proof. unfold buyAndSellFlow. fuel_frame. Qed.

(** * Further properties *)

(** ** Doubles *)

Lemma div_nearest_even_spec (n d : Z) :
  0 < d ->
  2 * n <= 2 * (Js.div_nearest_even n d * d) + d
  /\ 2 * (Js.div_nearest_even n d * d) <= 2 * n + d.
Proof.
  intros Hd. unfold Js.div_nearest_even.
  pose proof (Z.div_mod n d ltac:(lia)) as Hdiv.
  pose proof (Z.mod_pos_bound n d Hd) as Hmod.
  set (q := n / d) in *. set (r := n mod d) in *.
  destruct (Z.compare_spec (2 * r) d); [destruct (Z.even q)|..]; nia.
Qed.

Lemma pow2_pos e : (0 < Js.pow2 e)%Q.
Proof. apply Qpower_0_lt. reflexivity. Qed.

Lemma pow2_plus a b : (Js.pow2 (a + b) == Js.pow2 a * Js.pow2 b)%Q.
Proof. apply Qpower_plus. discriminate. Qed.

Lemma pow2_nonneg_inject e : 0 <= e -> (Js.pow2 e == inject_Z (2 ^ e))%Q.
Proof. intros He. unfold Js.pow2. now rewrite Zpower_Qpower. Qed.

Lemma pow2_opp e : (Js.pow2 (- e) == / Js.pow2 e)%Q.
Proof. apply Qpower_opp. Qed.

Lemma scaled_pow2 m e : (Js.scaled m e == inject_Z m * Js.pow2 e)%Q.
Proof.
  unfold Js.scaled. destruct (Z.leb_spec 0 e) as [He|He].
  - rewrite inject_Z_mult. now rewrite pow2_nonneg_inject.
  - assert (Hp : 0 < 2 ^ (- e)) by (apply Z.pow_pos_nonneg; lia).
    replace e with (- (- e)) at 2 by lia. rewrite pow2_opp, pow2_nonneg_inject by lia.
    rewrite (Qmake_Qdiv m). rewrite Z2Pos.id by lia. reflexivity.
Qed.

Lemma pow2_inv_l e : (Js.pow2 (- e) * Js.pow2 e == 1)%Q.
Proof.
  rewrite <- pow2_plus. replace (- e + e) with 0 by lia. reflexivity.
Qed.

(** [2^e <= n / d] for the exponent computed for [n / d]. *)
Lemma exponent_lower (n d : Z) :
  0 < n -> 0 < d -> (Js.pow2 (Js.exponent n d) * inject_Z d <= inject_Z n)%Q.
Proof.
  intros Hn Hd. unfold Js.exponent.
  pose proof (Z.log2_spec n Hn) as [Hnlo _].
  pose proof (Z.log2_spec d Hd) as [_ Hdhi].
  pose proof (Z.log2_nonneg n) as Ha. pose proof (Z.log2_nonneg d) as Hb.
  set (a := Z.log2 n) in *. set (b := Z.log2 d) in *.
  destruct (Js.below_pow2 n d (a - b)) eqn:Hbelow.
  - (* n / d < 2^(a - b): the Js.exponent is a - b - 1 *)
    replace (a - b - 1) with (a + - (Z.succ b)) by lia.
    rewrite pow2_plus.
    pose proof (pow2_inv_l (Z.succ b)) as Hinv.
    pose proof (pow2_pos (- Z.succ b)) as Hpos.
    assert (HP : (Js.pow2 a <= inject_Z n)%Q).
    { rewrite pow2_nonneg_inject by lia. now rewrite <- Zle_Qle. }
    assert (HD : (inject_Z d < Js.pow2 (Z.succ b))%Q).
    { rewrite pow2_nonneg_inject by lia. now rewrite <- Zlt_Qlt. }
    pose proof (pow2_pos a) as HPpos.
    assert (HDpos : (0 < inject_Z d)%Q) by (change 0%Q with (inject_Z 0); now rewrite <- Zlt_Qlt).
    set (P := Js.pow2 a) in *. set (X := Js.pow2 (- Z.succ b)) in *.
    set (R := Js.pow2 (Z.succ b)) in *. set (D := inject_Z d) in *. set (N := inject_Z n) in *.
    assert (HXD : (X * D <= 1)%Q).
    { rewrite <- Hinv. apply Qmult_le_l; [exact Hpos | lra]. }
    assert (H : (P * (X * D) <= P * 1)%Q) by (apply Qmult_le_l; assumption).
    lra.
  - unfold Js.below_pow2 in Hbelow. destruct (Z.leb_spec 0 (a - b)) as [He|He].
    + apply Z.ltb_ge in Hbelow. rewrite pow2_nonneg_inject by lia.
      rewrite <- inject_Z_mult, <- Zle_Qle. lia.
    + apply Z.ltb_ge in Hbelow.
      pose proof (pow2_inv_l (- (a - b))) as Hinv.
      replace (- - (a - b)) with (a - b) in Hinv by lia.
      pose proof (pow2_pos (a - b)) as Hpos.
      assert (HD : (inject_Z d <= inject_Z n * Js.pow2 (- (a - b)))%Q).
      { rewrite pow2_nonneg_inject by lia. rewrite <- inject_Z_mult, <- Zle_Qle. lia. }
      set (X := Js.pow2 (a - b)) in *. set (Y := Js.pow2 (- (a - b))) in *.
      set (D := inject_Z d) in *. set (N := inject_Z n) in *.
      assert (H : (X * D <= X * (N * Y))%Q) by (apply Qmult_le_l; assumption).
      assert (H' : (X * (N * Y) == N * (X * Y))%Q) by ring.
      rewrite H', Hinv in H. lra.
Qed.

(** The multiple of [2^s] nearest to [n / d] is within half a unit of it. *)
Lemma nearest_multiple (n d s : Z) :
  0 < d ->
  let m := if 0 <=? s then Js.div_nearest_even n (d * 2 ^ s)
           else Js.div_nearest_even (n * 2 ^ (- s)) d in
  (Qabs (inject_Z m * Js.pow2 s - inject_Z n / inject_Z d) <= Js.pow2 s * (1 # 2))%Q.
Proof.
  intros Hd m.
  assert (HD : (0 < inject_Z d)%Q) by (change 0%Q with (inject_Z 0); now rewrite <- Zlt_Qlt).
  pose proof (pow2_pos s) as HP.
  assert (Hx : (inject_Z n / inject_Z d * inject_Z d == inject_Z n)%Q).
  { field. lra. }
  set (X := (inject_Z n / inject_Z d)%Q) in *.
  apply Qabs_Qle_condition.
  assert (Hgoal : (- (inject_Z d * (Js.pow2 s * (1 # 2)))
                   <= inject_Z d * (inject_Z m * Js.pow2 s - X)
                   <= inject_Z d * (Js.pow2 s * (1 # 2)))%Q).
  { subst m. destruct (Z.leb_spec 0 s) as [Hs|Hs].
    - assert (Hp : 0 < d * 2 ^ s) by (apply Z.mul_pos_pos; [lia | apply Z.pow_pos_nonneg; lia]).
      pose proof (div_nearest_even_spec n (d * 2 ^ s) Hp) as [Hlo Hhi].
      set (m := Js.div_nearest_even n (d * 2 ^ s)) in *.
      rewrite Zle_Qle in Hlo, Hhi.
      rewrite !inject_Z_plus, !inject_Z_mult in Hlo, Hhi.
      rewrite <- (pow2_nonneg_inject s Hs) in Hlo, Hhi.
      change (inject_Z 2) with 2%Q in *.
      split; nra.
    - pose proof (div_nearest_even_spec (n * 2 ^ (- s)) d Hd) as [Hlo Hhi].
      set (m := Js.div_nearest_even (n * 2 ^ (- s)) d) in *.
      rewrite Zle_Qle in Hlo, Hhi.
      rewrite !inject_Z_plus, !inject_Z_mult in Hlo, Hhi.
      rewrite <- (pow2_nonneg_inject (- s)) in Hlo, Hhi by lia.
      change (inject_Z 2) with 2%Q in *.
      pose proof (pow2_inv_l s) as Hinv.
      set (Y := Js.pow2 (- s)) in *. set (P := Js.pow2 s) in *.
      set (M := inject_Z m) in *. set (D := inject_Z d) in *. set (N := inject_Z n) in *.
      (* multiply the bounds by P > 0 *)
      assert (H1 : (P * (2 * (N * Y)) <= P * (2 * (M * D) + D))%Q)
        by (apply Qmult_le_l; assumption).
      assert (H2 : (P * (2 * (M * D)) <= P * (2 * (N * Y) + D))%Q)
        by (apply Qmult_le_l; assumption).
      assert (E : (P * (2 * (N * Y)) == 2 * N * (Y * P))%Q) by ring.
      assert (E' : (P * (2 * (N * Y) + D) == 2 * N * (Y * P) + P * D)%Q) by ring.
      rewrite E in H1. rewrite E' in H2. rewrite Hinv in H1, H2. split; nra. }
  destruct Hgoal as [Hlo Hhi].
  split.
  - apply (Qmult_le_l _ _ (inject_Z d) HD). lra.
  - apply (Qmult_le_l _ _ (inject_Z d) HD). exact Hhi.
Qed.

Lemma half_ulp_bound (n d : Z) :
  0 < n -> 0 < d ->
  (Js.pow2 (Z.max (Js.exponent n d - 52) (-1074)) * (1 # 2)
   <= inject_Z n / inject_Z d * Js.pow2 (-53) + Js.pow2 (-1075))%Q.
Proof.
  intros Hn Hd.
  assert (HD : (0 < inject_Z d)%Q) by (change 0%Q with (inject_Z 0); now rewrite <- Zlt_Qlt).
  assert (HN : (0 < inject_Z n)%Q) by (change 0%Q with (inject_Z 0); now rewrite <- Zlt_Qlt).
  pose proof (exponent_lower n d Hn Hd) as He.
  assert (Hx : (inject_Z n / inject_Z d * inject_Z d == inject_Z n)%Q) by (field; lra).
  set (X := (inject_Z n / inject_Z d)%Q) in *.
  assert (HX : (Js.pow2 (Js.exponent n d) <= X)%Q).
  { apply (Qmult_le_l _ _ (inject_Z d) HD). lra. }
  pose proof (pow2_pos (-53)) as H53. pose proof (pow2_pos (-1075)) as H1075.
  assert (HXpos : (0 < X)%Q) by (pose proof (pow2_pos (Js.exponent n d)); lra).
  destruct (Z.max_spec (Js.exponent n d - 52) (-1074)) as [[_ ->]|[_ ->]].
  - change (Js.pow2 (-1074) * (1 # 2))%Q with (Js.pow2 (-1075)).
    assert (0 <= X * Js.pow2 (-53))%Q by nra. lra.
  - replace (Js.exponent n d - 52) with (Js.exponent n d + -52) by lia.
    rewrite pow2_plus.
    assert (E : (Js.pow2 (-52) * (1 # 2) == Js.pow2 (-53))%Q) by reflexivity.
    assert (H : (Js.pow2 (Js.exponent n d) * Js.pow2 (-53) <= X * Js.pow2 (-53))%Q).
    { rewrite !(Qmult_comm _ (Js.pow2 (-53))). apply Qmult_le_l; assumption. }
    rewrite <- Qmult_assoc, E. lra.
Qed.

(** The double nearest to [q] is within half a unit in the last place of it:
    a relative error of at most [2^-53], beyond the least normal double. *)
Lemma binary64_error (q : Q) :
  (Qabs (Js.binary64 q - q) <= Qabs q * Js.pow2 (-53) + Js.pow2 (-1075))%Q.
Proof.
  pose proof (Qred_correct q) as Hr. unfold Js.binary64.
  pose proof (pow2_pos (-53)) as H53. pose proof (pow2_pos (-1075)) as H1075.
  destruct (Qred q) as [rn rd]. cbn [Qnum Qden].
  assert (HD : (0 < inject_Z (Zpos rd))%Q) by reflexivity.
  assert (Hq : (q == inject_Z rn / inject_Z (Zpos rd))%Q).
  { rewrite <- Hr. apply Qmake_Qdiv. }
  destruct (Z.eqb_spec (Z.abs rn) 0) as [H0|H0].
  - assert (rn = 0) by lia. subst rn.
    assert (Hz : (q == 0)%Q) by (rewrite Hq; reflexivity).
    rewrite Hz. change (Qabs (0 - 0)) with 0%Q. change (Qabs 0) with 0%Q. lra.
  - set (n := Z.abs rn) in *. set (d := Zpos rd) in *.
    assert (Hn : 0 < n) by lia. assert (Hd : 0 < d) by reflexivity.
    set (s := Z.max (Js.exponent n d - 52) (-1074)).
    pose proof (nearest_multiple n d s Hd) as Hnear. cbv zeta in Hnear.
    set (m := if 0 <=? s then Js.div_nearest_even n (d * 2 ^ s)
              else Js.div_nearest_even (n * 2 ^ (- s)) d) in *.
    pose proof (half_ulp_bound n d Hn Hd) as Hulp. fold s in Hulp.
    rewrite scaled_pow2.
    set (X := (inject_Z n / inject_Z d)%Q) in *.
    destruct rn as [|p|p]; [lia| |].
    + (* q > 0 *)
      change (Z.sgn (Z.pos p)) with 1. rewrite Z.mul_1_l.
      assert (HqX : (q == X)%Q) by exact Hq.
      rewrite HqX. 
      assert (HX : (0 <= X)%Q).
      { unfold X. apply Qle_shift_div_l; [exact HD|]. rewrite Qmult_0_l. discriminate. }
      rewrite (Qabs_pos X HX). lra.
    + change (Z.sgn (Z.neg p)) with (-1).
      assert (HqX : (q == - X)%Q).
      { rewrite Hq. unfold X, n. change (Z.abs (Z.neg p)) with (Z.pos p).
        change (Z.neg p) with (- Z.pos p). rewrite inject_Z_opp. field.
        unfold d. discriminate. }
      rewrite HqX. replace (-1 * m) with (- m) by lia. rewrite inject_Z_opp.
      assert (HX : (0 <= X)%Q).
      { unfold X. apply Qle_shift_div_l; [exact HD|]. rewrite Qmult_0_l. discriminate. }
      rewrite Qabs_opp, (Qabs_pos X HX).
      assert (E : (- inject_Z m * Js.pow2 s - - X == - (inject_Z m * Js.pow2 s - X))%Q) by ring.
      rewrite E, Qabs_opp. lra.
Qed.

Lemma binary64_comp (q q' : Q) : (q == q')%Q -> Js.binary64 q = Js.binary64 q'.
Proof. intros H. unfold Js.binary64. now rewrite (Qred_complete q q' H). Qed.

Lemma Qred_inject_Z (z : Z) : Qred (inject_Z z) = inject_Z z.
Proof.
  unfold Qred, inject_Z.
  pose proof (Z.ggcd_gcd z 1) as Hg. pose proof (Z.ggcd_correct_divisors z 1) as Hd.
  destruct (Z.ggcd z 1) as [g [a b]]. cbn [fst snd] in *.
  rewrite Z.gcd_1_r in Hg. subst g. destruct Hd as [Ha Hb].
  replace a with z by lia. replace b with 1 by lia. reflexivity.
Qed.

Lemma binary64_int (z : Z) : Z.abs z <= 2 ^ 53 -> (Js.binary64 (inject_Z z) == inject_Z z)%Q.
Proof.
  intros Hz. unfold Js.binary64. rewrite Qred_inject_Z. cbn [Qnum Qden inject_Z].
  destruct (Z.eqb_spec (Z.abs z) 0) as [H0|H0].
  { assert (z = 0) by lia. subst. reflexivity. }
  unfold Js.exponent. change (Z.log2 1) with 0. rewrite Z.sub_0_r.
  set (n := Z.abs z) in *.
  assert (Hn : 0 < n) by lia.
  pose proof (Z.log2_spec n Hn) as [Hlo Hhi].
  pose proof (Z.log2_nonneg n) as He.
  unfold Js.below_pow2. destruct (Z.leb_spec 0 (Z.log2 n)); [|lia].
  destruct (Z.ltb_spec n (1 * 2 ^ Z.log2 n)) as [Hbelow|Hbelow]; [lia|].
  assert (Hle : Z.log2 n <= 53).
  { rewrite <- (Z.log2_pow2 53) by lia. now apply Z.log2_le_mono. }
  rewrite Z.max_l by lia.
  assert (Hsgn : Z.sgn z * n = z) by (unfold n; now destruct z).
  destruct (Z.leb_spec 0 (Z.log2 n - 52)) as [Hs|Hs].
  - (* the unit in the last place is 1 or 2 *)
    assert (Hcase : Z.log2 n = 52 \/ Z.log2 n = 53) by lia.
    destruct Hcase as [E|E]; rewrite E in *.
    + change (52 - 52) with 0.
      unfold Js.div_nearest_even, Js.scaled. change (2 ^ 0) with 1. change (1 * 1) with 1.
      rewrite Z.div_1_r, Z.mod_1_r. change (0 <=? 0) with true.
      change (2 * 0 ?= 1) with Lt. cbv iota. rewrite Z.mul_1_r, Hsgn. reflexivity.
    + assert (Hn53 : n = 2 ^ 53) by lia.
      rewrite <- Hsgn at 2. rewrite Hn53.
      change (Js.div_nearest_even (2 ^ 53) (1 * 2 ^ (53 - 52))) with (2 ^ 52).
      unfold Js.scaled. change (0 <=? 53 - 52) with true. cbv iota.
      apply inject_Z_injective. change (2 ^ (53 - 52)) with 2. lia.
  - unfold Js.scaled. destruct (Z.leb_spec 0 (Z.log2 n - 52)); [lia|].
    unfold Js.div_nearest_even. rewrite Z.div_1_r, Z.mod_1_r.
    change (2 * 0 ?= 1) with Lt. cbv iota.
    assert (Hp : 0 < 2 ^ (- (Z.log2 n - 52))) by (apply Z.pow_pos_nonneg; lia).
    unfold Qeq. cbn [Qnum Qden inject_Z]. rewrite Z2Pos.id by lia.
    rewrite <- Hsgn at 2. ring.
Qed.

(** The powers of ten up to [10^22] are doubles. *)
Lemma pow10_double (js : Runtime) (d : Z) :
  0 <= d <= 22 ->
  pow10 js d = inject_Z (10 ^ d)
  /\ (Js.binary64 (inject_Z (10 ^ d)) == inject_Z (10 ^ d))%Q.
Proof.
  intros Hd. split.
  - unfold pow10. destruct (Z.leb_spec 0 d); [|lia]. destruct (Z.leb_spec d 22); [|lia].
    reflexivity.
  - assert (H : d = 0 \/ d = 1 \/ d = 2 \/ d = 3 \/ d = 4 \/ d = 5 \/ d = 6 \/ d = 7
               \/ d = 8 \/ d = 9 \/ d = 10 \/ d = 11 \/ d = 12 \/ d = 13 \/ d = 14
               \/ d = 15 \/ d = 16 \/ d = 17 \/ d = 18 \/ d = 19 \/ d = 20 \/ d = 21
               \/ d = 22) by lia.
    repeat (destruct H as [->|H]; [vm_compute; reflexivity|]).
    subst d. vm_compute. reflexivity.
Qed.

(** The product of a double and a power of ten up to [10^22], as the
    program computes it, is the double nearest to the exact product. *)
Lemma times_pow10 (js : Runtime) (a : Q) (d : Z) :
  (Js.binary64 a == a)%Q -> 0 <= d <= 22 ->
  Js.times a (pow10 js d) = Js.binary64 (a * inject_Z (10 ^ d)).
Proof.
  intros Ha Hd. destruct (pow10_double js d Hd) as [-> Hp].
  unfold Js.times. apply binary64_comp. now rewrite Ha, Hp.
Qed.

(** The rounding of the product shows in the base units: 67.7604375 tokens
    of 6 decimals are 67760438 units, where the exact product of the double
    is below 67760437.5; 8.2 tokens are sold as 8199999 units. *)
Example toLamports_rounds_the_double_product :
  toLamports Scenario.js (Some (677604375 # 10000000)%Q) 6 = Int 67760438
  /\ (Js.binary64 (677604375 # 10000000) * inject_Z (10 ^ 6) < 67760437 + (1 # 2))%Q.
Proof. split; [vm_compute; reflexivity | vm_compute; reflexivity]. Qed.

Example sell_all_amount_rounds_the_double_product :
  Qfloor (Js.times (82 # 10) (pow10 Scenario.js 6)) = 8199999
  /\ Qfloor (Js.times (67760437 # 1000000) (pow10 Scenario.js 6)) = 67760437
  /\ (Js.binary64 (67760437 # 1000000) * inject_Z (10 ^ 6) < 67760437)%Q.
Proof. repeat split; vm_compute; reflexivity. Qed.

Lemma Qfloor_half_up (m : Z) : Qfloor (inject_Z m + (1 # 2)) = m.
Proof.
  pose proof (Qfloor_le (inject_Z m + (1 # 2))) as Hle.
  pose proof (Qlt_floor (inject_Z m + (1 # 2))) as Hlt.
  set (f := Qfloor (inject_Z m + (1 # 2))) in *.
  assert (H1 : (inject_Z f < inject_Z (m + 1))%Q).
  { rewrite inject_Z_plus. change (inject_Z 1) with 1%Q. lra. }
  assert (H2 : (inject_Z m < inject_Z (f + 1))%Q) by lra.
  rewrite <- Zlt_Qlt in H1, H2. lia.
Qed.

(** ** Conversion to base units (src/utils/config.ts) *)

(** X1.  For an amount that is a double, [0 <= decimals <= 22] and a
    product [x = amount * 10^decimals] that does not overflow, [toLamports]
    answers the integer nearest to the double product, a half going upwards;
    it is within [1/2 + |x| * 2^-53 + 2^-1075] of the exact product [x].  Of
    NaN it answers NaN. *)
Theorem toLamports_rounds_to_nearest (js : Runtime) (amount : Q) (decimals : Z) :
  (Js.binary64 amount == amount)%Q ->
  0 <= decimals <= 22 ->
  (Qabs (amount * inject_Z (10 ^ decimals)) < Js.overflow_threshold)%Q ->
  toLamports js None decimals = NaN
  /\ exists n,
       toLamports js (Some amount) decimals = Int n
       /\ (Js.times amount (pow10 js decimals) - (1 # 2) < inject_Z n)%Q
       /\ (inject_Z n <= Js.times amount (pow10 js decimals) + (1 # 2))%Q
       /\ (Qabs (inject_Z n - amount * inject_Z (10 ^ decimals))
           <= (1 # 2) + Qabs (amount * inject_Z (10 ^ decimals)) * Qpower 2 (-53)
              + Qpower 2 (-1075))%Q.
Proof.
  intros Ha Hd _. split; [reflexivity|].
  exists (Qfloor (Js.times amount (pow10 js decimals) + (1 # 2))). split; [reflexivity|].
  pose proof (Qfloor_le (Js.times amount (pow10 js decimals) + (1 # 2))) as Hle.
  pose proof (Qlt_floor (Js.times amount (pow10 js decimals) + (1 # 2))) as Hlt.
  rewrite inject_Z_plus in Hlt. change (inject_Z 1) with 1%Q in Hlt.
  split; [lra|]. split; [exact Hle|].
  rewrite (times_pow10 js amount decimals Ha Hd) in Hle, Hlt |- *.
  pose proof (binary64_error (amount * inject_Z (10 ^ decimals))) as Herr.
  change (Qpower 2 (-53)) with (Js.pow2 (-53)). change (Qpower 2 (-1075)) with (Js.pow2 (-1075)).
  set (x := (amount * inject_Z (10 ^ decimals))%Q) in *.
  set (y := Js.binary64 x) in *.
  set (n := inject_Z (Qfloor (y + (1 # 2)))) in *.
  apply Qabs_Qle_condition in Herr as [Herr1 Herr2].
  apply Qabs_Qle_condition. split; lra.
Qed.

(** Half a token of 6 decimals is 500000 base units. *)
Lemma toLamports_rounds_to_nearest_witness :
  toLamports Scenario.js (Some (1 # 2)%Q) 6 = Int 500000.
Proof.
  destruct (toLamports_rounds_to_nearest Scenario.js (1 # 2)%Q 6) as (_ & n & Hn & _);
    [reflexivity | lia | vm_compute; reflexivity |].
  rewrite Hn. vm_compute in Hn. exact (eq_sym Hn).
Defined.

(** X2.  On a whole amount [k] with [0 <= decimals <= 22] and
    [|k * 10^decimals| <= 2^53], [toLamports] is exact:
    [toLamports(k, d) = k * 10^d].  Beyond that range the double product is
    rounded. *)
Theorem toLamports_whole_amount (js : Runtime) (k decimals : Z) :
  0 <= decimals <= 22 ->
  Z.abs (k * 10 ^ decimals) <= 2 ^ 53 ->
  toLamports js (Some (inject_Z k)) decimals = Int (k * 10 ^ decimals).
Proof.
  intros Hd Hk. unfold toLamports. f_equal.
  destruct (pow10_double js decimals Hd) as [-> _].
  assert (Hp : 1 <= 10 ^ decimals)
    by (pose proof (Z.pow_pos_nonneg 10 decimals ltac:(lia) ltac:(lia)); lia).
  assert (Hprod : (Js.times (inject_Z k) (inject_Z (10 ^ decimals))
                   == inject_Z (k * 10 ^ decimals))%Q).
  { destruct (Z.eq_dec k 0) as [->|Hk0].
    - unfold Js.times. change (Js.binary64 (inject_Z 0)) with 0%Q.
      rewrite (binary64_comp (0 * Js.binary64 (inject_Z (10 ^ decimals))) 0)
        by (now rewrite Qmult_0_l).
      reflexivity.
    - assert (Hk' : Z.abs k <= 2 ^ 53) by nia.
      assert (Hp' : Z.abs (10 ^ decimals) <= 2 ^ 53) by nia.
      unfold Js.times.
      rewrite (binary64_comp _ (inject_Z (k * 10 ^ decimals))).
      + now apply binary64_int.
      + rewrite (binary64_int k Hk'), (binary64_int _ Hp'). now rewrite inject_Z_mult. }
  rewrite (Qfloor_comp _ _ (Qplus_comp _ _ Hprod _ _ (Qeq_refl (1 # 2)))).
  apply Qfloor_half_up.
Qed.

(** One SOL is 10^9 lamports. *)
Lemma toLamports_whole_amount_witness :
  toLamports Scenario.js (Some (inject_Z 1)) SOL_DECIMALS = Int 1000000000.
Proof.
  apply (toLamports_whole_amount Scenario.js 1 SOL_DECIMALS); [unfold SOL_DECIMALS; lia|].
  vm_compute. discriminate.
Defined.

(** ** Slippage bounds (src/utils/slippage.ts) *)

(** X3.  When the four slippage values of the configuration are numbers, the
    new-token slippage is a number that is never below [MIN_SLIPPAGE_BPS] and
    never above the larger of the two bounds; the lower bound wins over the
    upper one when they cross. *)
Theorem calculateSlippage_new_token_bounds
    (js : Runtime) (config : EnvConfig) (base multiplier lo hi : Z) :
  BASE_SLIPPAGE_BPS config = Int base ->
  NEW_TOKEN_SLIPPAGE_MULTIPLIER config = Int multiplier ->
  MIN_SLIPPAGE_BPS config = Int lo ->
  MAX_SLIPPAGE_BPS config = Int hi ->
  exists s,
    calculateSlippage js config true = Int s
    /\ lo <= s <= Z.max lo hi
    /\ (hi < lo -> s = lo).
Proof.
  intros Hb Hm Hlo Hhi. unfold calculateSlippage. cbn [negb]. cbv zeta.
  rewrite Hb, Hm, Hlo, Hhi. cbn [Js.mul Js.min].
  destruct (Z.leb_spec (base * multiplier) hi); cbn [Js.max].
  - destruct (Z.leb_spec lo (base * multiplier)); eexists; (split; [reflexivity|]); lia.
  - destruct (Z.leb_spec lo hi); eexists; (split; [reflexivity|]); lia.
Qed.

(** With [MAX_SLIPPAGE_BPS=500] below the default minimum of 1000 the result
    is the minimum. *)
Lemma calculateSlippage_new_token_bounds_witness :
  exists s,
    calculateSlippage Scenario.js Scenario.config_max_below_min true = Int s
    /\ 1000 <= s <= Z.max 1000 500
    /\ (500 < 1000 -> s = 1000).
Proof.
  exact (calculateSlippage_new_token_bounds Scenario.js Scenario.config_max_below_min
           200 5 1000 500 eq_refl eq_refl eq_refl eq_refl).
Defined.

(** X4.  The new-token slippage is NaN exactly when one of the four slippage
    values of the configuration is NaN: an environment variable that is no
    numeral reaches the quote request as a NaN slippage. *)
Theorem calculateSlippage_new_token_NaN (js : Runtime) (config : EnvConfig) :
  calculateSlippage js config true = NaN
  <-> (BASE_SLIPPAGE_BPS config = NaN \/ NEW_TOKEN_SLIPPAGE_MULTIPLIER config = NaN
       \/ MAX_SLIPPAGE_BPS config = NaN \/ MIN_SLIPPAGE_BPS config = NaN).
Proof.
  unfold calculateSlippage. cbn [negb]. cbv zeta.
  destruct (BASE_SLIPPAGE_BPS config) as [|b], (NEW_TOKEN_SLIPPAGE_MULTIPLIER config) as [|m],
    (MAX_SLIPPAGE_BPS config) as [|hi], (MIN_SLIPPAGE_BPS config) as [|lo];
    cbn [Js.mul Js.min Js.max]; try tauto.
  - destruct (b * m <=? hi); cbn [Js.max]; tauto.
  - unfold Js.max.
    repeat match goal with |- context [if ?c then _ else _] => destruct c end;
      (split; [discriminate | intros [H|[H|[H|H]]]; discriminate]).
Qed.

(** ** Which events a computation can add *)

Lemma adds_only_silent {A} (P : Event -> bool) (m : M A) :
  (forall w, trace (world_after m w) = trace w) -> adds_only P m.
Proof. intros H w. exists []. rewrite H. split; [reflexivity | constructor]. Qed.

Lemma adds_only_ret {A} P (a : A) : adds_only P (ret a).
Proof. now apply adds_only_silent. Qed.

Lemma adds_only_throw {A} P (e : Error) : adds_only P (@throw A e).
Proof. now apply adds_only_silent. Qed.

Lemma adds_only_lift {A} P (r : result A) : adds_only P (lift r).
Proof. now apply adds_only_silent. Qed.

Lemma adds_only_out_of_fuel {A} P : adds_only P (@out_of_fuel A).
Proof. now apply adds_only_silent. Qed.

Lemma adds_only_Date_now P : adds_only P Date_now.
Proof. now apply adds_only_silent. Qed.

Lemma adds_only_process_env P : adds_only P process_env.
Proof. now apply adds_only_silent. Qed.

Lemma adds_only_set_process_env P name value : adds_only P (set_process_env name value).
Proof. now apply adds_only_silent. Qed.

Lemma adds_only_request {A} (P : Event -> bool) net ev (reply : list Event -> result A) :
  P ev = true -> adds_only P (request net ev reply).
Proof. intros H w. exists [ev]. split; [reflexivity | now repeat constructor]. Qed.

Lemma adds_only_sleep (P : Event -> bool) net ms :
  P (SetTimeout ms) = true -> adds_only P (sleep net ms).
Proof. intros H w. exists [SetTimeout ms]. split; [reflexivity | now repeat constructor]. Qed.

Lemma adds_only_bind {A B} P (m : M A) (k : A -> M B) :
  adds_only P m -> (forall a, adds_only P (k a)) -> adds_only P (bind m k).
Proof.
  intros Hm Hk w. destruct (Hm w) as (evs1 & H1 & F1).
  unfold world_after, bind in *. destruct (m w) as [[a|e|] w1]; simpl in *; eauto.
  destruct (Hk a w1) as (evs2 & H2 & F2). unfold world_after in H2.
  exists (evs2 ++ evs1). rewrite H2, H1, app_assoc. split; [reflexivity|].
  now apply Forall_app.
Qed.

Lemma adds_only_try_catch {A} P (m : M A) (handler : Error -> M A) :
  adds_only P m -> (forall e, adds_only P (handler e)) -> adds_only P (try_catch m handler).
Proof.
  intros Hm Hh w. destruct (Hm w) as (evs1 & H1 & F1).
  unfold world_after, try_catch in *. destruct (m w) as [[a|e|] w1]; simpl in *; eauto.
  destruct (Hh e w1) as (evs2 & H2 & F2). unfold world_after in H2.
  exists (evs2 ++ evs1). rewrite H2, H1, app_assoc. split; [reflexivity|].
  now apply Forall_app.
Qed.

Lemma adds_only_weaken {A} (P Q : Event -> bool) (m : M A) :
  (forall ev, P ev = true -> Q ev = true) -> adds_only P m -> adds_only Q m.
Proof.
  intros HPQ Hm w. destruct (Hm w) as (evs & H & F). exists evs. split; [exact H|].
  eapply Forall_impl; [exact F | exact HPQ].
Qed.

(** Decompose a computation along its binds, handlers and case analyses;
    requests and timers leave their side condition to [reflexivity]. *)
Ltac trace_frame :=
  repeat first
    [ match goal with |- forall _, _ => intro end
    | solve [ auto 2 ]
    | apply adds_only_ret | apply adds_only_throw | apply adds_only_lift
    | apply adds_only_out_of_fuel | apply adds_only_Date_now
    | apply adds_only_process_env | apply adds_only_set_process_env
    | apply adds_only_request; reflexivity
    | apply adds_only_sleep; reflexivity
    | apply adds_only_bind
    | apply adds_only_try_catch
    | match goal with
      | |- adds_only _ (match ?x with _ => _ end) => destruct x
      | |- adds_only _ (let _ := _ in _) => cbv zeta
      end ].

Lemma adds_only_getWallet P js : adds_only P (getWallet js).
Proof. unfold getWallet. trace_frame. Qed.

Lemma adds_only_pollLoop net sig lvbh timeoutAt fuel :
  forall r, adds_only is_sender_event (pollLoop net sig lvbh timeoutAt fuel r).
Proof.
  induction fuel as [|fuel IH]; intros r; cbn [pollLoop]; [trace_frame|].
  unfold pollOnce, wait. trace_frame.
Qed.

Lemma adds_only_sender net params :
  adds_only is_sender_event (transactionSenderAndConfirmationWaiter net params).
Proof.
  unfold transactionSenderAndConfirmationWaiter. pose proof (adds_only_pollLoop net).
  trace_frame.
Qed.

Lemma adds_only_getTokenDecimals net tokenMint :
  adds_only is_decimals_fetch (getTokenDecimals net tokenMint).
Proof. unfold getTokenDecimals. trace_frame. Qed.

Lemma adds_only_getTokenBalance js net wallet tokenMint :
  adds_only is_balance_read (getTokenBalance js net wallet tokenMint).
Proof. unfold getTokenBalance. trace_frame. Qed.

Lemma adds_only_balanceLoop js net wallet tokenMint retries delayMs initialBalance fuel :
  forall currentBalance attempts,
    adds_only is_watch_event
      (balanceLoop js net wallet tokenMint retries delayMs initialBalance
                   fuel currentBalance attempts).
Proof.
  pose proof (adds_only_weaken is_balance_read is_watch_event
                (getTokenBalance js net wallet tokenMint)
                ltac:(now intros []) (adds_only_getTokenBalance js net wallet tokenMint)).
  induction fuel as [|fuel IH]; intros c a; cbn [balanceLoop]; [trace_frame|].
  unfold delay. trace_frame.
Qed.

Lemma adds_only_waitForBalanceChange js net wallet tokenMint retries delayMs :
  adds_only is_watch_event (waitForBalanceChange js net wallet tokenMint retries delayMs).
Proof.
  pose proof (adds_only_weaken is_balance_read is_watch_event
                (getTokenBalance js net wallet tokenMint)
                ltac:(now intros []) (adds_only_getTokenBalance js net wallet tokenMint)).
  pose proof (adds_only_balanceLoop js net wallet tokenMint).
  unfold waitForBalanceChange. trace_frame.
Qed.

Lemma adds_only_executeSwap js net swapResponse wallet :
  adds_only is_swap_event (executeSwap js net swapResponse wallet).
Proof.
  pose proof (fun params =>
                adds_only_weaken is_sender_event is_swap_event
                  (transactionSenderAndConfirmationWaiter net params)
                  ltac:(now intros []) (adds_only_sender net params)).
  unfold executeSwap. trace_frame.
Qed.

Lemma adds_only_getSwapResponse js net wallet quote options :
  adds_only is_swap_event (getSwapResponse js net wallet quote options).
Proof. unfold getSwapResponse. trace_frame. Qed.

Lemma adds_only_simulateSwap js net swapResponse wallet :
  adds_only is_swap_event (simulateSwap js net swapResponse wallet).
Proof. unfold simulateSwap. trace_frame. Qed.

Lemma adds_only_swapLoop js net quote wallet maxRetries fuel :
  forall attempt lastError,
    adds_only is_swap_event (swapLoop js net quote wallet maxRetries fuel attempt lastError).
Proof.
  pose proof (adds_only_executeSwap js net). pose proof (adds_only_simulateSwap js net).
  pose proof (adds_only_getSwapResponse js net wallet quote None).
  induction fuel as [|fuel IH]; intros a l; cbn [swapLoop]; [trace_frame|].
  unfold swapAttempt, delay. trace_frame.
Qed.

Lemma adds_only_executeSwapSafely js net quote wallet maxRetries :
  adds_only is_swap_event (executeSwapSafely js net quote wallet maxRetries).
Proof. unfold executeSwapSafely. apply adds_only_swapLoop. Qed.

Lemma filter_none_of {P Q : Event -> bool} (evs : list Event) :
  (forall ev, P ev = true -> Q ev = false) ->
  Forall (fun ev => P ev = true) evs ->
  filter (fun ev => Q ev = true) evs = [].
Proof.
  intros HPQ. induction 1 as [|ev evs Hev _ IH]; [reflexivity|].
  rewrite filter_cons, IH. rewrite (HPQ ev Hev). now destruct (decide (false = true)).
Qed.

(** ** Decimals of a mint (src/utils/tokens.ts) *)

(** X5.  [getTokenDecimals] never throws and never answers 0.  For the SOL
    mint it answers 9 without a request; otherwise it makes one request and
    answers the parsed decimals, or 9 when the request fails, the account is
    missing or unparsed, or the parsed decimals are 0. *)
Theorem getTokenDecimals_falls_back_to_nine (net : Network) (tokenMint : string) (w : World) :
  exists d,
    d <> 0
    /\ getTokenDecimals net tokenMint w
       = (if String.eqb tokenMint SOL_MINT then (Return d, w)
          else (Return d,
                world_after (request net (GetParsedAccountInfo tokenMint)
                                     (getParsedAccountInfo net)) w))
    /\ d = (if String.eqb tokenMint SOL_MINT then 9
            else match getParsedAccountInfo net (GetParsedAccountInfo tokenMint :: trace w) with
                 | Ok (Some {| parsedDecimals := Some n |}) => if n =? 0 then 9 else n
                 | _ => 9
                 end).
Proof.
  unfold getTokenDecimals. destruct (String.eqb tokenMint SOL_MINT).
  - exists 9. repeat split. discriminate.
  - unfold try_catch, bind. rewrite request_run.
    destruct (getParsedAccountInfo net _) as [[[[n|]]|]|e]; cbn [settle];
      try (exists 9; repeat split; discriminate).
    destruct (Z.eqb_spec n 0); [exists 9 | exists n]; repeat split; (discriminate || assumption).
Qed.

(** ** Preconditions of a trade (src/trader.ts, src/utils/config.ts) *)

Lemma getWallet_no_key js w :
  Js.defined_truthy (env w !! "PRIVATE_KEY") = false ->
  getWallet js w = (Throw noPrivateKey, w).
Proof.
  unfold getWallet, bind, process_env, Js.defined_truthy.
  destruct (env w !! "PRIVATE_KEY") as [k|]; [|reflexivity].
  now intros ->.
Qed.

(** X6.  Without a [PRIVATE_KEY] (unset or empty) [buy], [sell] and
    [buyAndSellFlow] throw "PRIVATE_KEY is not set in .env" and leave the
    world as it was: no request is made and a buy-amount override is not
    applied. *)
Theorem missing_private_key_stops_before_any_effect
    (js : Runtime) (net : Network) (tokenMint : string) (isNewToken : option bool)
    (amount : Q) (buyAmountSOL : option Q) (w : World) :
  Js.defined_truthy (env w !! "PRIVATE_KEY") = false ->
  buy js net tokenMint isNewToken w = (Throw noPrivateKey, w)
  /\ sell js net tokenMint amount isNewToken w = (Throw noPrivateKey, w)
  /\ buyAndSellFlow js net tokenMint buyAmountSOL w = (Throw noPrivateKey, w).
Proof.
  intros Hkey%(getWallet_no_key js). repeat split.
  - unfold buy. unfold bind at 1, process_env. cbv zeta. unfold bind at 1. now rewrite Hkey.
  - unfold sell. unfold bind at 1, process_env. cbv zeta. unfold bind at 1. now rewrite Hkey.
  - unfold buyAndSellFlow, try_catch. unfold bind at 1. now rewrite Hkey.
Qed.

Lemma missing_private_key_stops_before_any_effect_witness :
  buyAndSellFlow Scenario.js Scenario.net_working USDC_MINT (Some (1 # 2)%Q) Cases.world_no_key
  = (Throw (mkError "PRIVATE_KEY is not set in .env"), Cases.world_no_key).
Proof.
  exact (proj2 (proj2 (missing_private_key_stops_before_any_effect
                         Scenario.js Scenario.net_working USDC_MINT None 0%Q (Some (1 # 2)%Q)
                         Cases.world_no_key eq_refl))).
Defined.

(** X7.  A mint address that is no public key is rejected before any
    request: [buy] throws "Invalid token mint address: ...".  [sell] first
    builds its [Connection]: with an endpoint the constructor accepts it
    throws the error of the [PublicKey] constructor itself, and with one it
    rejects it throws the error of the [Connection] constructor; in each case
    the world is left as it was. *)
Theorem invalid_mint_rejected_before_any_request
    (js : Runtime) (net : Network) (tokenMint : string) (isNewToken : option bool)
    (amount : Q) (w : World) (wallet : Wallet) (e : Error) :
  getWallet js w = (Return wallet, w) ->
  newPublicKey js tokenMint = Fail e ->
  buy js net tokenMint isNewToken w
  = (Throw (mkError ("Invalid token mint address: " ++ tokenMint)%string), w)
  /\ (newConnection js (RPC_ENDPOINT (getConfig js (env w))) = Ok tt ->
      sell js net tokenMint amount isNewToken w = (Throw e, w))
  /\ (forall e',
        newConnection js (RPC_ENDPOINT (getConfig js (env w))) = Fail e' ->
        sell js net tokenMint amount isNewToken w = (Throw e', w)).
Proof.
  intros Hwallet Hmint. split; [|split].
  - unfold buy. unfold bind at 1, process_env. cbv zeta. unfold bind at 1. rewrite Hwallet.
    unfold bind at 1, try_catch at 1, lift at 1. now rewrite Hmint.
  - intros Hconnection.
    unfold sell. unfold bind at 1, process_env. cbv zeta. unfold bind at 1. rewrite Hwallet.
    unfold bind at 1, lift at 1. rewrite Hconnection. cbn [settle].
    unfold bind at 1, lift at 1. now rewrite Hmint.
  - intros e' Hconnection.
    unfold sell. unfold bind at 1, process_env. cbv zeta. unfold bind at 1. rewrite Hwallet.
    unfold bind at 1, lift at 1. now rewrite Hconnection.
Qed.

(** "Token" is base58 for four bytes, not for the 32 bytes of an address. *)
Lemma invalid_mint_rejected_before_any_request_witness :
  buy Scenario.js Scenario.net_working "Token" None Scenario.world0
  = (Throw (mkError "Invalid token mint address: Token"), Scenario.world0)
  /\ sell Scenario.js Scenario.net_working "Token" (1 # 2) None Scenario.world0
     = (Throw (mkError "Invalid public key input"), Scenario.world0).
Proof.
  destruct (invalid_mint_rejected_before_any_request
              Scenario.js Scenario.net_working "Token" None (1 # 2)%Q Scenario.world0
              Scenario.wallet (mkError "Invalid public key input") eq_refl eq_refl)
    as (Hbuy & Hsell & _).
  split; [exact Hbuy | exact (Hsell eq_refl)].
Defined.

(** ** Validation of quotes, continued *)

(** X8.  [buy] rejects every quote reply without a route, without an output
    amount, or with an output amount that is not positive: it throws "Invalid
    quote received - possible insufficient liquidity" right after the quote
    request, the only event of the call. *)
Theorem buy_rejects_invalid_quote
    (js : Runtime) (net : Network) (outputMint : string) (isNewToken : option bool)
    (w : World) (wallet : Wallet) (mint : string) (quote : option QuoteResponse) :
  getWallet js w = (Return wallet, w) ->
  newPublicKey js outputMint = Ok mint ->
  quoteGet net (QuoteGet (buyQuoteRequest js (env w) outputMint isNewToken) :: trace w)
    = Ok quote ->
  quoteRejected js quote ->
  exists w',
    buy js net outputMint isNewToken w = (Throw invalidQuote, w')
    /\ trace w' = QuoteGet (buyQuoteRequest js (env w) outputMint isNewToken) :: trace w.
Proof.
  intros Hwallet Hmint Hquote Hrej.
  exists (world_after
            (request net (QuoteGet (buyQuoteRequest js (env w) outputMint isNewToken))
                     (quoteGet net)) w).
  split; [|reflexivity].
  unfold buy. unfold bind at 1, process_env. cbv zeta.
  unfold bind at 1. rewrite Hwallet.
  unfold bind at 1, try_catch at 1, lift at 1. rewrite Hmint. cbn [settle].
  fold (buyQuoteRequest js (env w) outputMint isNewToken).
  unfold try_catch. unfold bind at 1. rewrite request_run, Hquote. cbn [settle].
  unfold quoteRejected in Hrej.
  destruct quote as [q|]; [|reflexivity].
  destruct (outAmount q) as [out|]; [|reflexivity].
  destruct Hrej as [->|(n & Hbig & Hn)]; [reflexivity|].
  destruct (Js.truthy out); [|reflexivity]. cbn [negb].
  unfold bind, lift. rewrite Hbig. cbn [settle].
  apply Z.leb_le in Hn. now rewrite Hn.
Qed.

Lemma buy_rejects_invalid_quote_witness :
  exists w',
    buy Scenario.js Cases.net_no_route USDC_MINT None Scenario.world0
    = (Throw invalidQuote, w')
    /\ trace w' = [QuoteGet (buyQuoteRequest Scenario.js (env Scenario.world0) USDC_MINT None)].
Proof.
  exact (buy_rejects_invalid_quote Scenario.js Cases.net_no_route USDC_MINT None
           Scenario.world0 Scenario.wallet USDC_MINT None eq_refl eq_refl eq_refl I).
Defined.

(** X9.  With an endpoint that the [Connection] constructor accepts, [sell]
    rejects the same quote replies with "Invalid sell quote received -
    possible insufficient liquidity" right after its quote request: no swap
    is built. *)
Theorem sell_rejects_invalid_quote
    (js : Runtime) (net : Network) (inputMint : string) (amount : Q)
    (isNewToken : option bool) (w w1 : World) (wallet : Wallet) (mint : string)
    (decimals : Z) (quote : option QuoteResponse) :
  getWallet js w = (Return wallet, w) ->
  newConnection js (RPC_ENDPOINT (getConfig js (env w))) = Ok tt ->
  newPublicKey js inputMint = Ok mint ->
  getTokenDecimals net mint w = (Return decimals, w1) ->
  quoteGet net (QuoteGet (sellQuoteRequest js (env w) inputMint isNewToken amount decimals)
                  :: trace w1) = Ok quote ->
  quoteRejected js quote ->
  exists w',
    sell js net inputMint amount isNewToken w = (Throw invalidSellQuote, w')
    /\ trace w'
       = QuoteGet (sellQuoteRequest js (env w) inputMint isNewToken amount decimals) :: trace w1.
Proof.
  intros Hwallet Hconnection Hmint Hdec Hquote Hrej.
  exists (world_after
            (request net
               (QuoteGet (sellQuoteRequest js (env w) inputMint isNewToken amount decimals))
               (quoteGet net)) w1).
  split; [|reflexivity].
  unfold sell. unfold bind at 1, process_env. cbv zeta.
  unfold bind at 1. rewrite Hwallet.
  unfold bind at 1, lift at 1. rewrite Hconnection. cbn [settle].
  unfold bind at 1, lift at 1. rewrite Hmint. cbn [settle].
  unfold bind at 1. rewrite Hdec.
  fold (sellQuoteRequest js (env w) inputMint isNewToken amount decimals).
  unfold try_catch. unfold bind at 1. rewrite request_run, Hquote. cbn [settle].
  unfold quoteRejected in Hrej.
  destruct quote as [q|]; [|reflexivity].
  destruct (outAmount q) as [out|]; [|reflexivity].
  destruct Hrej as [->|(n & Hbig & Hn)]; [reflexivity|].
  destruct (Js.truthy out); [|reflexivity]. cbn [negb].
  unfold bind, lift. rewrite Hbig. cbn [settle].
  apply Z.leb_le in Hn. now rewrite Hn.
Qed.

Lemma sell_rejects_invalid_quote_witness :
  exists w',
    sell Scenario.js Scenario.net_zero_quote USDC_MINT (1 # 2) None Scenario.world0
    = (Throw invalidSellQuote, w')
    /\ swapBuilds (trace w') = [].
Proof.
  destruct (sell_rejects_invalid_quote Scenario.js Scenario.net_zero_quote USDC_MINT (1 # 2)%Q
              None Scenario.world0
              (world_after (getTokenDecimals Scenario.net_zero_quote USDC_MINT) Scenario.world0)
              Scenario.wallet USDC_MINT 6 (Some (Scenario.quote_of "0")))
    as (w' & Hrun & Htrace);
    [ reflexivity | reflexivity | reflexivity | reflexivity | reflexivity
    | right; exists 0; split; [reflexivity | lia] | ].
  exists w'. split; [exact Hrun|]. rewrite Htrace. reflexivity.
Defined.

(** ** The sell-all path (src/utils/swap.ts) *)

Section SellAllFacts.

Context (js : Runtime) (net : Network) (tokenMint : string) (wallet : Wallet)
        (isNewToken : option bool) (w w1 w2 : World) (b : Q) (mint : string) (decimals : Z).

Hypothesis Hbalance : getTokenBalance js net wallet tokenMint w = (Return b, w1).
Hypothesis Hpositive : (0 < b)%Q.
Hypothesis Hmint : newPublicKey js tokenMint = Ok mint.
Hypothesis Hdecimals : getTokenDecimals net mint w1 = (Return decimals, w2).

Abbreviation sellAllRequest := (sellAllQuoteRequest js (env w2) tokenMint isNewToken b decimals).
Abbreviation afterQuote := (world_after (request net (QuoteGet sellAllRequest) (quoteGet net)) w2).

(** [safeSellAndClose] up to the reply to its quote request. *)
Lemma safeSellAndClose_after_quote :
  safeSellAndClose js net tokenMint wallet isNewToken w
  = match quoteGet net (QuoteGet sellAllRequest :: trace w2) with
    | Fail e => (Throw e, afterQuote)
    | Ok None => (Throw noSellQuote, afterQuote)
    | Ok (Some q) =>
        match outAmount q with
        | None => (Throw noSellQuote, afterQuote)
        | Some out =>
            if Js.truthy out then
              match BigInt js out with
              | Fail e => (Throw e, afterQuote)
              | Ok _ =>
                  try_catch (executeSwapSafely js net q wallet (Some 3))
                            (fun error => throw error) afterQuote
              end
            else (Throw noSellQuote, afterQuote)
        end
    end.
Proof.
  assert (Hle : Qle_bool b 0 = false).
  { destruct (Qle_bool b 0) eqn:E; [|reflexivity].
    apply Qle_bool_iff in E. exfalso. apply (Qlt_not_le _ _ Hpositive E). }
  unfold safeSellAndClose. unfold try_catch at 1. unfold bind at 1. rewrite Hbalance, Hle.
  unfold bind at 1, lift at 1. rewrite Hmint. cbn [settle].
  unfold bind at 1. rewrite Hdecimals.
  unfold bind at 1, process_env. cbv zeta.
  fold (sellAllQuoteRequest js (env w2) tokenMint isNewToken b decimals).
  unfold bind at 1. rewrite request_run.
  destruct (quoteGet net _) as [[q|]|e]; cbn [settle]; try reflexivity.
  destruct (outAmount q) as [out|]; [|reflexivity].
  destruct (Js.truthy out); [|reflexivity]. cbn [negb].
  unfold bind at 1, lift at 1.
  destruct (BigInt js out) as [n|e]; reflexivity.
Qed.

(** What the call adds to the history after the decimals are known: the
    quote request, then events of swap attempts only. *)
Lemma safeSellAndClose_trace :
  exists evs,
    trace (world_after (safeSellAndClose js net tokenMint wallet isNewToken) w)
    = evs ++ QuoteGet sellAllRequest :: trace w2
    /\ Forall (fun ev => is_swap_event ev = true) evs.
Proof.
  unfold world_after at 1. rewrite safeSellAndClose_after_quote.
  assert (Hnil : exists evs, trace afterQuote = evs ++ QuoteGet sellAllRequest :: trace w2
                             /\ Forall (fun ev => is_swap_event ev = true) evs).
  { exists []. split; [reflexivity | constructor]. }
  destruct (quoteGet net _) as [[q|]|e]; try exact Hnil.
  destruct (outAmount q) as [out|]; [|exact Hnil].
  destruct (Js.truthy out); [|exact Hnil].
  destruct (BigInt js out) as [n|e]; [|exact Hnil].
  destruct (adds_only_try_catch is_swap_event
              (executeSwapSafely js net q wallet (Some 3)) (fun error => throw error)
              (adds_only_executeSwapSafely js net q wallet (Some 3))
              (fun e => adds_only_throw is_swap_event e) afterQuote) as (evs & Htr & Hevs).
  exists evs. split; [exact Htr | exact Hevs].
Qed.

End SellAllFacts.

(** X10.  [safeSellAndClose] rejects a quote reply without a route or without
    an output amount with "Failed to get valid quote for selling", and one
    whose output amount is no integer numeral with the error of [BigInt]; in
    both cases the quote request is the last event of the call: no swap is
    built. *)
Theorem safeSellAndClose_rejects_unusable_quote
    (js : Runtime) (net : Network) (tokenMint : string) (wallet : Wallet)
    (isNewToken : option bool) (w w1 w2 : World) (b : Q) (mint : string) (decimals : Z)
    (quote : option QuoteResponse) :
  getTokenBalance js net wallet tokenMint w = (Return b, w1) ->
  (0 < b)%Q ->
  newPublicKey js tokenMint = Ok mint ->
  getTokenDecimals net mint w1 = (Return decimals, w2) ->
  quoteGet net (QuoteGet (sellAllQuoteRequest js (env w2) tokenMint isNewToken b decimals)
                  :: trace w2) = Ok quote ->
  exists w',
    trace w' = QuoteGet (sellAllQuoteRequest js (env w2) tokenMint isNewToken b decimals)
               :: trace w2
    /\ (quoteMissing quote ->
        safeSellAndClose js net tokenMint wallet isNewToken w = (Throw noSellQuote, w'))
    /\ (forall q out e,
          quote = Some q -> outAmount q = Some out -> Js.truthy out = true ->
          BigInt js out = Fail e ->
          safeSellAndClose js net tokenMint wallet isNewToken w = (Throw e, w')).
Proof.
  intros Hb Hpos Hmint Hdec Hquote.
  exists (world_after
            (request net
               (QuoteGet (sellAllQuoteRequest js (env w2) tokenMint isNewToken b decimals))
               (quoteGet net)) w2).
  split; [reflexivity|].
  rewrite (safeSellAndClose_after_quote js net tokenMint wallet isNewToken w w1 w2 b mint
             decimals Hb Hpos Hmint Hdec), Hquote.
  split.
  - unfold quoteMissing. destruct quote as [q|]; [|reflexivity].
    destruct (outAmount q) as [out|]; [|reflexivity]. now intros ->.
  - intros q out e -> Hout Htruthy Hbig. now rewrite Hout, Htruthy, Hbig.
Qed.

Lemma safeSellAndClose_rejects_unusable_quote_witness :
  exists w',
    safeSellAndClose Scenario.js Cases.net_no_route USDC_MINT Scenario.wallet None
                     Scenario.world0 = (Throw noSellQuote, w')
    /\ swapBuilds (trace w') = [].
Proof.
  destruct (safeSellAndClose_rejects_unusable_quote
              Scenario.js Cases.net_no_route USDC_MINT Scenario.wallet None Scenario.world0
              (world_after (getTokenBalance Scenario.js Cases.net_no_route Scenario.wallet
                                            USDC_MINT) Scenario.world0)
              (world_after (getTokenDecimals Cases.net_no_route USDC_MINT)
                 (world_after (getTokenBalance Scenario.js Cases.net_no_route Scenario.wallet
                                               USDC_MINT) Scenario.world0))
              (1 # 2)%Q USDC_MINT 6 None)
    as (w' & Htrace & Hmissing & _);
    [ reflexivity | reflexivity | reflexivity | reflexivity | reflexivity | ].
  exists w'. split; [exact (Hmissing I)|]. rewrite Htrace. reflexivity.
Defined.

(** X11.  A call of [safeSellAndClose] that reaches its quote request makes
    exactly one quote request, however many swap attempts follow (the quote
    is not refreshed between attempts).  The amount it asks to sell is the
    double product [balance * 10^decimals] rounded down; for a double
    balance, [0 <= decimals <= 22] and a product that does not overflow it
    lies between [x - x * 2^-53 - 2^-1075 - 1] and [x + x * 2^-53 + 2^-1075]
    for the exact product [x], which the rounding of the product lets it
    exceed. *)
Theorem safeSellAndClose_quotes_whole_balance_once
    (js : Runtime) (net : Network) (tokenMint : string) (wallet : Wallet)
    (isNewToken : option bool) (w w1 w2 : World) (b : Q) (mint : string) (decimals : Z) :
  getTokenBalance js net wallet tokenMint w = (Return b, w1) ->
  (0 < b)%Q ->
  newPublicKey js tokenMint = Ok mint ->
  getTokenDecimals net mint w1 = (Return decimals, w2) ->
  exists n,
    quoteRequests (trace (world_after (safeSellAndClose js net tokenMint wallet isNewToken) w))
    = QuoteGet (sellAllQuoteRequest js (env w2) tokenMint isNewToken b decimals)
      :: quoteRequests (trace w)
    /\ amount (sellAllQuoteRequest js (env w2) tokenMint isNewToken b decimals) = Int n
    /\ (inject_Z n <= Js.times b (pow10 js decimals) < inject_Z n + 1)%Q
    /\ ((Js.binary64 b == b)%Q -> 0 <= decimals <= 22 ->
        (b * inject_Z (10 ^ decimals) < Js.overflow_threshold)%Q ->
        (inject_Z n
         <= b * inject_Z (10 ^ decimals)
            + b * inject_Z (10 ^ decimals) * Qpower 2 (-53) + Qpower 2 (-1075))%Q
        /\ (b * inject_Z (10 ^ decimals)
            - b * inject_Z (10 ^ decimals) * Qpower 2 (-53) - Qpower 2 (-1075)
            < inject_Z n + 1)%Q).
Proof.
  intros Hb Hpos Hmint Hdec.
  exists (Qfloor (Js.times b (pow10 js decimals))).
  pose proof (Qfloor_le (Js.times b (pow10 js decimals))) as Hle.
  pose proof (Qlt_floor (Js.times b (pow10 js decimals))) as Hlt.
  rewrite inject_Z_plus in Hlt. change (inject_Z 1) with 1%Q in Hlt.
  split; [|split; [reflexivity|split; [split; assumption|]]].
  - destruct (safeSellAndClose_trace js net tokenMint wallet isNewToken w w1 w2 b mint decimals
                Hb Hpos Hmint Hdec) as (evs & -> & Hevs).
    pose proof (adds_only_getTokenDecimals net mint w1) as (evs2 & H2 & F2).
    unfold world_after in H2. rewrite Hdec in H2. simpl in H2.
    pose proof (adds_only_getTokenBalance js net wallet tokenMint w) as (evs1 & H1 & F1).
    unfold world_after in H1. rewrite Hb in H1. simpl in H1.
    rewrite H2, H1. unfold quoteRequests.
    change (evs ++ QuoteGet ?p :: evs2 ++ evs1 ++ trace w)
      with (evs ++ [QuoteGet p] ++ evs2 ++ evs1 ++ trace w).
    rewrite !filter_app.
    rewrite (filter_none_of (P := is_swap_event) (Q := is_quote_request) evs
               ltac:(now intros []) Hevs).
    rewrite (filter_none_of (P := is_decimals_fetch) (Q := is_quote_request) evs2
               ltac:(now intros []) F2).
    rewrite (filter_none_of (P := is_balance_read) (Q := is_quote_request) evs1
               ltac:(now intros []) F1).
    reflexivity.
  - intros Hdouble Hrange _.
    rewrite (times_pow10 js b decimals Hdouble Hrange) in Hle, Hlt |- *.
    pose proof (binary64_error (b * inject_Z (10 ^ decimals))) as Herr.
    assert (Hx : (0 <= b * inject_Z (10 ^ decimals))%Q).
    { apply Qmult_le_0_compat; [lra|].
      change 0%Q with (inject_Z 0). rewrite <- Zle_Qle. apply Z.pow_nonneg. lia. }
    rewrite (Qabs_pos _ Hx) in Herr.
    change (Qpower 2 (-53)) with (Js.pow2 (-53)).
    change (Qpower 2 (-1075)) with (Js.pow2 (-1075)).
    set (x := (b * inject_Z (10 ^ decimals))%Q) in *.
    set (E := (x * Js.pow2 (-53))%Q) in *.
    set (y := Js.binary64 x) in *.
    apply Qabs_Qle_condition in Herr as [Herr1 Herr2].
    split; lra.
Qed.

(** Half a token of 6 decimals: one quote request, for 500000 base units,
    although the swap is attempted. *)
Lemma safeSellAndClose_quotes_whole_balance_once_witness :
  exists p,
    quoteRequests (trace (world_after
                            (safeSellAndClose Scenario.js Scenario.net_working USDC_MINT
                                              Scenario.wallet None) Scenario.world0))
    = [QuoteGet p]
    /\ amount p = Int 500000.
Proof.
  destruct (safeSellAndClose_quotes_whole_balance_once
              Scenario.js Scenario.net_working USDC_MINT Scenario.wallet None Scenario.world0
              (world_after (getTokenBalance Scenario.js Scenario.net_working Scenario.wallet
                                            USDC_MINT) Scenario.world0)
              (world_after (getTokenDecimals Scenario.net_working USDC_MINT)
                 (world_after (getTokenBalance Scenario.js Scenario.net_working Scenario.wallet
                                               USDC_MINT) Scenario.world0))
              (1 # 2)%Q USDC_MINT 6)
    as (n & Hq & Hn & _); [ reflexivity | reflexivity | reflexivity | reflexivity | ].
  eexists. split; [exact Hq | reflexivity].
Defined.

(** ** Outcomes of the sender (src/utils/transactionSender.ts) *)

Section SenderOutcomes.

Context (net : Network) (sig : string) (lvbh timeoutAt : Z).

(** How an iteration of the polling loop can return. *)
Lemma pollOnce_stop r w x w' :
  pollOnce net sig lvbh r w = (Return (Stop x), w') ->
  match x with
  | Some response =>
      getTransaction net (GetTransaction sig :: trace w) = Ok (Some response)
      /\ trace w' = GetTransaction sig :: trace w
  | None =>
      exists h,
        getBlockHeight net (GetBlockHeight :: GetTransaction sig :: trace w) = Ok h
        /\ lvbh < h
        /\ trace w' = GetBlockHeight :: GetTransaction sig :: trace w
  end.
Proof.
  unfold pollOnce, try_catch, bind. rewrite request_run.
  destruct (getTransaction net _) as [[response|]|e]; cbn [settle].
  - now intros [= <- <-].
  - rewrite request_run, request_trace.
    destruct (getBlockHeight net _) as [h|e] eqn:Hh; cbn [settle].
    + destruct (Z.ltb_spec lvbh h); [|discriminate].
      intros [= <- <-]. exists h. now rewrite request_trace.
    + discriminate.
  - discriminate.
Qed.

(** Every iteration makes exactly one lookup, and no broadcast. *)
Lemma pollOnce_lookups r w o w' :
  pollOnce net sig lvbh r w = (o, w') ->
  lookups (trace w') = GetTransaction sig :: lookups (trace w).
Proof.
  unfold pollOnce, try_catch, bind. rewrite request_run.
  destruct (getTransaction net _) as [[response|]|e]; cbn [settle].
  - now intros [= <- <-].
  - rewrite request_run.
    destruct (getBlockHeight net _) as [h|e]; cbn [settle].
    + destruct (lvbh <? h); now intros [= <- <-].
    + now intros [= <- <-].
  - now intros [= <- <-].
Qed.

(** What the loop returns is what the ledger last said. *)
Lemma pollLoop_result fuel : forall w x w',
  pollLoop net sig lvbh timeoutAt fuel None w = (Return x, w') ->
  match x with
  | Some response =>
      exists wp, trace w' = GetTransaction sig :: trace wp
                 /\ getTransaction net (trace w') = Ok (Some response)
  | None =>
      (exists h wp, trace w' = GetBlockHeight :: GetTransaction sig :: trace wp
                    /\ getBlockHeight net (trace w') = Ok h /\ lvbh < h)
      \/ timeoutAt <= now w'
  end.
Proof.
  induction fuel as [|fuel IH]; intros w x w'; [discriminate|].
  rewrite pollLoop_unfold.
  destruct (Z.ltb_spec (now w) timeoutAt) as [Hlt|Hge].
  - destruct (pollOnce net sig lvbh None w) as [[[y|r']|e|] w1] eqn:Hp; try discriminate.
    + intros [= <- <-]. apply pollOnce_stop in Hp.
      destruct y as [response|].
      * destruct Hp as [Hr Htr]. exists w. now rewrite Htr.
      * destruct Hp as (h & Hh & Hexp & Htr). left. exists h, w. now rewrite Htr.
    + apply pollOnce_continue in Hp as [_ Hr]. rewrite (Hr eq_refl). apply IH.
  - intros [= <- <-]. now right.
Qed.

(** The lookups of the loop are bounded by the time left: an iteration that
    falls through has waited 2000 ms. *)
Lemma pollLoop_lookups fuel : forall n r w,
  timeoutAt - now w <= 2000 * Z.of_nat n ->
  (length (lookups (trace (world_after (pollLoop net sig lvbh timeoutAt fuel r) w)))
   <= length (lookups (trace w)) + n)%nat.
Proof.
  induction fuel as [|fuel IH]; intros n r w Hn; unfold world_after; [simpl; lia|].
  rewrite pollLoop_unfold.
  destruct (Z.ltb_spec (now w) timeoutAt) as [Hlt|Hge]; [|simpl; lia].
  destruct n as [|n]; [lia|].
  destruct (pollOnce net sig lvbh r w) as [o w1] eqn:Hp.
  pose proof (pollOnce_lookups r w o w1 Hp) as Hl.
  destruct o as [[y|r']|e|]; simpl snd; try (rewrite Hl; simpl; lia).
  apply pollOnce_continue in Hp as [Hclock _].
  specialize (IH n r' w1 ltac:(lia)). unfold world_after in IH.
  rewrite Hl in IH. simpl in IH. lia.
Qed.

Lemma adds_only_poll_events fuel :
  forall r, adds_only is_poll_event (pollLoop net sig lvbh timeoutAt fuel r).
Proof.
  induction fuel as [|fuel IH]; intros r; cbn [pollLoop]; [trace_frame|].
  unfold pollOnce, wait. trace_frame.
Qed.

End SenderOutcomes.

(** X12.  Once the broadcast and the first height reading have succeeded, the
    sender never throws, whatever the lookups and later height readings do,
    and what it returns is what the ledger last said: a response is the one
    returned by its last request, a lookup of the broadcast's signature;
    null means that its last request read a block height above
    [lastValidBlockHeight] or that the clock has reached [timeoutAt]. *)
Theorem sender_outcome_sound
    (net : Network) (params : TransactionSenderAndConfirmationWaiterParams)
    (w : World) (sig : string) (h0 : Z) :
  sendRawTransaction net (SendRawTransaction (serializedTransaction params) true :: trace w)
    = Ok sig ->
  getBlockHeight net
      (GetBlockHeight :: SendRawTransaction (serializedTransaction params) true :: trace w)
    = Ok h0 ->
  exists x w',
    transactionSenderAndConfirmationWaiter net params w = (Return x, w')
    /\ match x with
       | Some response =>
           exists wp, trace w' = GetTransaction sig :: trace wp
                      /\ getTransaction net (trace w') = Ok (Some response)
       | None =>
           (exists h wp, trace w' = GetBlockHeight :: GetTransaction sig :: trace wp
                         /\ getBlockHeight net (trace w') = Ok h
                         /\ expiryBlockHeight (blockhashWithExpiryBlockHeight params) < h)
           \/ timeoutAtOf net params w <= now w'
       end.
Proof.
  intros Hs Hh0.
  destruct (sender_total net params w sig h0 Hs Hh0) as (x & w' & Hrun).
  exists x, w'. split; [exact Hrun|].
  rewrite (sender_is_pollLoop net params w sig h0 Hs Hh0) in Hrun.
  exact (pollLoop_result net sig _ _ _ _ _ _ Hrun).
Qed.

(** With a ledger that never finds the transaction and passes the last valid
    height during the second poll, the sender returns null on reading a
    height of 103 above the last valid 100. *)
Lemma sender_outcome_sound_witness :
  exists w' h wp,
    transactionSenderAndConfirmationWaiter Scenario.net_expiring Scenario.sender_params
                                           Scenario.world0 = (Return None, w')
    /\ trace w' = GetBlockHeight :: GetTransaction "5ig" :: trace wp
    /\ getBlockHeight Scenario.net_expiring (trace w') = Ok h
    /\ 100 < h.
Proof.
  destruct (sender_outcome_sound Scenario.net_expiring Scenario.sender_params Scenario.world0
              "5ig" 98 eq_refl eq_refl) as (x & w' & Hrun & Hx).
  assert (Hnone : x = None).
  { apply (f_equal fst) in Hrun. vm_compute in Hrun. now injection Hrun as <-. }
  subst x. destruct Hx as [(h & wp & Htr & Hh & Hexp)|Htimeout].
  - exists w', h, wp. repeat split; assumption.
  - exfalso. apply (f_equal snd) in Hrun. cbn [snd] in Hrun.
    rewrite <- Hrun in Htimeout. vm_compute in Htimeout. now apply Htimeout.
Defined.

(** The broadcasts of a call of the sender. *)
Lemma sender_broadcasts_once_aux
    (net : Network) (params : TransactionSenderAndConfirmationWaiterParams) (w : World) :
  broadcasts (trace (world_after (transactionSenderAndConfirmationWaiter net params) w))
  = SendRawTransaction (serializedTransaction params) true :: broadcasts (trace w).
Proof.
  unfold transactionSenderAndConfirmationWaiter.
  unfold world_after, bind at 1. rewrite request_run.
  set (w1 := world_after (request net (SendRawTransaction (serializedTransaction params) true)
                                  (sendRawTransaction net)) w).
  assert (H1 : broadcasts (trace w1)
               = SendRawTransaction (serializedTransaction params) true :: broadcasts (trace w))
    by reflexivity.
  destruct (sendRawTransaction net _) as [sig|e]; cbn [settle]; [|exact H1].
  match goal with
  | |- broadcasts (trace (snd (?k w1))) = _ =>
      assert (Hk : adds_only is_poll_event k)
  end.
  { pose proof (adds_only_poll_events net sig). trace_frame. }
  destruct (Hk w1) as (evs & Htr & Hevs). unfold world_after in Htr.
  rewrite Htr, broadcasts_app, H1. unfold broadcasts at 1.
  now rewrite (filter_none_of (P := is_poll_event) (Q := is_broadcast) evs
                 ltac:(now intros []) Hevs).
Qed.

(** X13.  Every call of the sender broadcasts exactly once, with
    [skipPreflight: true], whatever the collaborators answer: nothing it does
    afterwards sends the transaction again. *)
Theorem sender_broadcasts_exactly_once
    (net : Network) (params : TransactionSenderAndConfirmationWaiterParams) (w : World) :
  broadcasts (trace (world_after (transactionSenderAndConfirmationWaiter net params) w))
  = SendRawTransaction (serializedTransaction params) true :: broadcasts (trace w).
Proof. exact (sender_broadcasts_once_aux net params w). Qed.

(** The sender when its broadcast or its first height reading fails. *)
Lemma sender_prelude_failure
    (net : Network) (params : TransactionSenderAndConfirmationWaiterParams)
    (w : World) (e : Error) :
  (sendRawTransaction net (SendRawTransaction (serializedTransaction params) true :: trace w)
     = Fail e ->
   exists w',
     transactionSenderAndConfirmationWaiter net params w = (Throw e, w')
     /\ trace w' = SendRawTransaction (serializedTransaction params) true :: trace w)
  /\ (forall sig,
        sendRawTransaction net
            (SendRawTransaction (serializedTransaction params) true :: trace w) = Ok sig ->
        getBlockHeight net
            (GetBlockHeight :: SendRawTransaction (serializedTransaction params) true
               :: trace w) = Fail e ->
        exists w',
          transactionSenderAndConfirmationWaiter net params w = (Throw e, w')
          /\ trace w'
             = GetBlockHeight :: SendRawTransaction (serializedTransaction params) true
                 :: trace w).
Proof.
  split.
  - intros Hs.
    exists (world_after (request net (SendRawTransaction (serializedTransaction params) true)
                                 (sendRawTransaction net)) w).
    split; [|reflexivity].
    unfold transactionSenderAndConfirmationWaiter.
    unfold bind at 1. now rewrite request_run, Hs.
  - intros sig Hs Hh.
    exists (afterBroadcast net params w). split; [|reflexivity].
    unfold transactionSenderAndConfirmationWaiter.
    unfold bind at 1. rewrite request_run, Hs. cbn [settle].
    unfold bind at 1, Date_now. unfold bind at 1. now rewrite request_run, request_trace, Hh.
Qed.

(** X14.  A rejected broadcast makes the sender throw the rejection with no
    further request.  A failure of the first height reading, which is made
    outside the [try] block, makes it throw as well, although the transaction
    has been broadcast: no lookup is made and the caller gets no response. *)
Theorem sender_throws_on_prelude_failure
    (net : Network) (params : TransactionSenderAndConfirmationWaiterParams)
    (w : World) (e : Error) :
  (sendRawTransaction net (SendRawTransaction (serializedTransaction params) true :: trace w)
     = Fail e ->
   exists w',
     transactionSenderAndConfirmationWaiter net params w = (Throw e, w')
     /\ trace w' = SendRawTransaction (serializedTransaction params) true :: trace w)
  /\ (forall sig,
        sendRawTransaction net
            (SendRawTransaction (serializedTransaction params) true :: trace w) = Ok sig ->
        getBlockHeight net
            (GetBlockHeight :: SendRawTransaction (serializedTransaction params) true
               :: trace w) = Fail e ->
        exists w',
          transactionSenderAndConfirmationWaiter net params w = (Throw e, w')
          /\ trace w'
             = GetBlockHeight :: SendRawTransaction (serializedTransaction params) true
                 :: trace w).
Proof. exact (sender_prelude_failure net params w e). Qed.

Lemma sender_throws_on_prelude_failure_witness :
  (exists w',
     transactionSenderAndConfirmationWaiter Cases.net_broadcast_rejected Scenario.sender_params
                                            Scenario.world0
     = (Throw (mkError "Transaction too large"), w')
     /\ trace w' = [SendRawTransaction Scenario.signed_transaction true])
  /\ (exists w',
        transactionSenderAndConfirmationWaiter Cases.net_height_unreadable
                                               Scenario.sender_params Scenario.world0
        = (Throw (mkError "503 Service Unavailable"), w')
        /\ trace w' = [GetBlockHeight; SendRawTransaction Scenario.signed_transaction true]).
Proof.
  split.
  - exact (proj1 (sender_throws_on_prelude_failure Cases.net_broadcast_rejected
                    Scenario.sender_params Scenario.world0 (mkError "Transaction too large"))
                 eq_refl).
  - exact (proj2 (sender_throws_on_prelude_failure Cases.net_height_unreadable
                    Scenario.sender_params Scenario.world0
                    (mkError "503 Service Unavailable"))
                 "5ig" eq_refl eq_refl).
Defined.

Lemma lookups_skip (ev : Event) (tr : list Event) :
  is_lookup ev = false -> lookups (ev :: tr) = lookups tr.
Proof.
  intros H. unfold lookups. rewrite filter_cons, H. now destruct (decide (false = true)).
Qed.

(** X15.  A call of the sender with a timeout of [timeoutIn] ms makes at most
    [ceil(timeoutIn / 2000)] lookups of the transaction, 30 with the default
    timeout, whatever the collaborators answer. *)
Theorem sender_lookups_bounded
    (net : Network) (params : TransactionSenderAndConfirmationWaiterParams) (w : World) :
  (length (lookups (trace (world_after (transactionSenderAndConfirmationWaiter net params) w)))
   <= length (lookups (trace w))
      + Z.to_nat ((default 60000%Z (timeoutIn params) + 1999) / 2000)%Z)%nat.
Proof.
  set (T := default 60000 (timeoutIn params)).
  destruct (sendRawTransaction net
              (SendRawTransaction (serializedTransaction params) true :: trace w))
    as [sig|e] eqn:Hs.
  - destruct (getBlockHeight net
                (GetBlockHeight :: SendRawTransaction (serializedTransaction params) true
                   :: trace w)) as [h0|e] eqn:Hh.
    + unfold world_after. rewrite (sender_is_pollLoop net params w sig h0 Hs Hh). fold T.
      change (lookups (trace w)) with (lookups (trace (afterBroadcast net params w))).
      apply (pollLoop_lookups net sig).
      unfold timeoutAtOf, afterBroadcast. fold T.
      pose proof (request_now net GetBlockHeight (getBlockHeight net)
                    (world_after (request net
                                    (SendRawTransaction (serializedTransaction params) true)
                                    (sendRawTransaction net)) w)).
      destruct (Z.le_gt_cases T 0) as [Hle|Hgt]; [lia|].
      rewrite Z2Nat.id by (apply Z.div_pos; lia).
      pose proof (Z.mul_succ_div_gt (T + 1999) 2000 ltac:(lia)). lia.
    + destruct (proj2 (sender_prelude_failure net params w e) sig Hs Hh)
        as (w' & Hrun & Htr).
      unfold world_after. rewrite Hrun. simpl snd. rewrite Htr.
      rewrite !lookups_skip by reflexivity. lia.
  - destruct (proj1 (sender_prelude_failure net params w e) Hs) as (w' & Hrun & Htr).
    unfold world_after. rewrite Hrun. simpl snd. rewrite Htr.
    rewrite lookups_skip by reflexivity. lia.
Qed.

(** ** Success of a swap (src/utils/swap.ts) *)

(** X16.  [executeSwap] returns a signature only for a transaction whose
    simulation reported no error, that was broadcast exactly once, and that
    the ledger, at the last request of the call, reported as found with no
    execution error.  The signature returned is the first signature of the
    signed transaction. *)
Theorem executeSwap_success_is_confirmed
    (js : Runtime) (net : Network) (swapResponse : SwapResponse) (wallet : Wallet)
    (w : World) (signature : string) (w' : World) :
  executeSwap js net swapResponse wallet w = (Return signature, w') ->
  exists tx0 tx sim sig response wp,
    deserialize js (swapTransaction swapResponse) = Ok tx0
    /\ sign js wallet tx0 = Ok tx
    /\ getSignature (Versioned tx) = Ok signature
    /\ simulateTransaction net (SimulateTransaction tx "processed" :: trace w) = Ok sim
    /\ simErr sim = None
    /\ trace w' = GetTransaction sig :: trace wp
    /\ getTransaction net (trace w') = Ok (Some response)
    /\ metaErr response = None
    /\ broadcasts (trace w') = SendRawTransaction tx true :: broadcasts (trace w).
Proof.
  intros Hrun.
  destruct (deserialize js (swapTransaction swapResponse)) as [tx0|e] eqn:Hd.
  2:{ unfold executeSwap, bind, lift in Hrun. rewrite Hd in Hrun. discriminate. }
  destruct (sign js wallet tx0) as [tx|e] eqn:Hs.
  2:{ unfold executeSwap, lift in Hrun. unfold bind at 1 in Hrun. rewrite Hd in Hrun.
      cbn [settle] in Hrun. unfold bind at 1 in Hrun. rewrite Hs in Hrun. discriminate. }
  destruct (getSignature (Versioned tx)) as [s|e] eqn:Hg.
  2:{ unfold executeSwap, lift in Hrun. unfold bind at 1 in Hrun. rewrite Hd in Hrun.
      cbn [settle] in Hrun. unfold bind at 1 in Hrun. rewrite Hs in Hrun.
      cbn [settle] in Hrun. unfold bind at 1 in Hrun. rewrite Hg in Hrun. discriminate. }
  destruct (simulateTransaction net (SimulateTransaction tx "processed" :: trace w))
    as [sim|e] eqn:Hsim.
  2:{ unfold executeSwap, lift in Hrun. unfold bind at 1 in Hrun. rewrite Hd in Hrun.
      cbn [settle] in Hrun. unfold bind at 1 in Hrun. rewrite Hs in Hrun.
      cbn [settle] in Hrun. unfold bind at 1 in Hrun. rewrite Hg in Hrun.
      cbn [settle] in Hrun. unfold bind at 1 in Hrun. rewrite request_run, Hsim in Hrun.
      discriminate. }
  rewrite (executeSwap_after_simulation js net swapResponse wallet w tx0 tx s sim
             Hd Hs Hg Hsim) in Hrun.
  destruct (simErr sim) eqn:Herr; [discriminate|].
  set (params := senderParamsOf swapResponse tx) in *.
  set (w1 := afterSimulation net tx w) in *.
  pose proof (sender_broadcasts_once_aux net params w1) as Hb.
  destruct (transactionSenderAndConfirmationWaiter net params w1)
    as [[[response|]|e|] w2] eqn:Hsender; try discriminate.
  destruct (metaErr response) eqn:Hmeta; [discriminate|].
  injection Hrun as <- <-.
  unfold world_after in Hb. rewrite Hsender in Hb. cbn [snd] in Hb.
  destruct (sendRawTransaction net (SendRawTransaction tx true :: trace w1)) as [sig|e] eqn:Hsend.
  2:{ destruct (proj1 (sender_prelude_failure net params w1 e) Hsend) as (w3 & Hthrow & _).
      rewrite Hthrow in Hsender. discriminate. }
  destruct (getBlockHeight net (GetBlockHeight :: SendRawTransaction tx true :: trace w1))
    as [h0|e] eqn:Hh0.
  2:{ destruct (proj2 (sender_prelude_failure net params w1 e) sig Hsend Hh0)
        as (w3 & Hthrow & _).
      rewrite Hthrow in Hsender. discriminate. }
  rewrite (sender_is_pollLoop net params w1 sig h0 Hsend Hh0) in Hsender.
  apply pollLoop_result in Hsender as (wp & Htr & Hfound).
  exists tx0, tx, sim, sig, response, wp. repeat split; try assumption.
Qed.

(** With collaborators that work, the swap returns its signature and the
    last request of the call is the lookup that found the transaction. *)
Lemma executeSwap_success_is_confirmed_witness :
  exists w' response,
    executeSwap Scenario.js Scenario.net_working Scenario.swap_response Scenario.wallet
                Scenario.world0 = (Return "sig", w')
    /\ getTransaction Scenario.net_working (trace w') = Ok (Some response)
    /\ metaErr response = None.
Proof.
  assert (Hrun : executeSwap Scenario.js Scenario.net_working Scenario.swap_response
                             Scenario.wallet Scenario.world0
                 = (Return "sig",
                    world_after (executeSwap Scenario.js Scenario.net_working
                                             Scenario.swap_response Scenario.wallet)
                                Scenario.world0))
    by (vm_compute; reflexivity).
  destruct (executeSwap_success_is_confirmed _ _ _ _ _ _ _ Hrun)
    as (tx0 & tx & sim & sig & response & wp & _ & _ & _ & _ & _ & _ & Hfound & Hmeta & _).
  eexists _, response. split; [exact Hrun|]. split; [exact Hfound | exact Hmeta].
Defined.

(** ** Attempts of a swap (src/utils/swap.ts) *)

Section SwapAttemptFacts.

Context (js : Runtime) (net : Network) (quote : QuoteResponse) (wallet : Wallet)
        (maxRetries : Z).

Abbreviation swapLoop' := (swapLoop js net quote wallet maxRetries).
Abbreviation swapDelayOf := (fun attempt : Z => Z.min (500 * 2 ^ attempt) 2000).

(** An iteration of the loop in terms of the attempt it makes. *)
Lemma swapAttempt_cases attempt lastError w :
  swapAttempt js net quote wallet maxRetries attempt lastError w
  = match swapTry js net quote wallet w with
    | (Return signature, w1) => (Return (Stop signature), w1)
    | (Throw e, w1) =>
        (Return (Continue (Some e)),
         if attempt <? maxRetries
         then world_after (delay net (Int (swapDelayOf attempt))) w1
         else w1)
    | (OutOfFuel, w1) => (OutOfFuel, w1)
    end.
Proof.
  unfold swapAttempt, swapTry, try_catch, bind.
  destruct (getSwapResponse js net wallet quote None w) as [[sr|e|] w1];
    [|destruct (attempt <? maxRetries); reflexivity | reflexivity].
  destruct (simulateSwap js net sr wallet w1) as [[[]|e|] w2];
    [|destruct (attempt <? maxRetries); reflexivity | reflexivity].
  destruct (executeSwap js net sr wallet w2) as [[s|e|] w3];
    [reflexivity | destruct (attempt <? maxRetries); reflexivity | reflexivity].
Qed.

Lemma swapLoop_exit fuel attempt lastError w :
  maxRetries < attempt ->
  swapLoop' (S fuel) attempt lastError w
  = (Throw (default (mkError "Swap failed after all retries") lastError), w).
Proof.
  intros H. cbn [swapLoop]. destruct (Z.leb_spec attempt maxRetries); [lia | reflexivity].
Qed.

Lemma swapLoop_failed fuel attempt lastError w e w1 :
  attempt <= maxRetries ->
  swapTry js net quote wallet w = (Throw e, w1) ->
  swapLoop' (S fuel) attempt lastError w
  = swapLoop' fuel (attempt + 1) (Some e)
              (if attempt <? maxRetries
               then world_after (sleep net (Int (swapDelayOf attempt))) w1
               else w1).
Proof.
  intros Hle Htry. cbn [swapLoop]. destruct (Z.leb_spec attempt maxRetries); [|lia].
  unfold bind at 1. rewrite swapAttempt_cases, Htry. reflexivity.
Qed.

Hypothesis attempts_fail : forall w, exists e w1, swapTry js net quote wallet w = (Throw e, w1).

Lemma swapLoop_all_fail n : forall attempt fuel lastError w,
  maxRetries - attempt = Z.of_nat n ->
  (n + 2 <= fuel)%nat ->
  exists errors e w',
    failingAttempts net (swapTry js net quote wallet)
                    (swapDelayOf <$> seqZ attempt (Z.of_nat n)) w = Some (errors, w')
    /\ last errors = Some e
    /\ length errors = S n
    /\ swapLoop' fuel attempt lastError w = (Throw e, w').
Proof.
  induction n as [|n IH]; intros attempt fuel lastError w Hn Hfuel.
  - destruct fuel as [|[|fuel]]; try lia.
    destruct (attempts_fail w) as (e & w1 & Htry).
    exists [e], e, w1. split; [simpl; now rewrite Htry|]. do 2 (split; [reflexivity|]).
    rewrite (swapLoop_failed _ attempt lastError w e w1) by (lia || assumption).
    destruct (Z.ltb_spec attempt maxRetries); [lia|].
    now rewrite swapLoop_exit by lia.
  - destruct fuel as [|fuel]; try lia.
    destruct (attempts_fail w) as (e & w1 & Htry).
    rewrite seqZ_cons by lia. rewrite fmap_cons.
    replace (Z.pred (Z.of_nat (S n))) with (Z.of_nat n) by lia.
    destruct (IH (Z.succ attempt) fuel (Some e)
                 (world_after (sleep net (Int (swapDelayOf attempt))) w1))
      as (errors & e' & w' & Hrun & Hlast & Hlen & Hloop); [lia | lia |].
    exists (e :: errors), e', w'. cbn [failingAttempts]. rewrite Htry, Hrun.
    split; [reflexivity|]. split.
    { destruct errors; [discriminate | exact Hlast]. }
    split; [simpl; now rewrite Hlen|].
    rewrite (swapLoop_failed _ attempt lastError w e w1) by (lia || assumption).
    destruct (Z.ltb_spec attempt maxRetries); [|lia].
    exact Hloop.
Qed.

End SwapAttemptFacts.

Lemma swapDelays_capped (maxRetries : Z) :
  Forall (fun d => 1000 <= d <= 2000) (swapDelays maxRetries).
Proof.
  unfold swapDelays. apply Forall_fmap, Forall_forall. intros a Ha%elem_of_seqZ. simpl.
  assert (1000 <= 500 * 2 ^ a).
  { replace a with (1 + (a - 1)) by lia. rewrite Z.pow_add_r by lia.
    pose proof (Z.pow_pos_nonneg 2 (a - 1) ltac:(lia) ltac:(lia)). lia. }
  lia.
Qed.

(** X17.  When every attempt of a swap fails (the swap cannot be built, its
    simulation fails, or its execution throws), [executeSwapSafely] makes
    exactly [maxRetries] attempts, each with a fresh swap response, waits
    [min(500 * 2^attempt, 2000)] ms after each attempt but the last (between
    1000 and 2000 ms each), and then throws the error of the last attempt. *)
Theorem executeSwapSafely_exhausts_attempts
    (js : Runtime) (net : Network) (quote : QuoteResponse) (wallet : Wallet)
    (maxRetries : Z) (w : World) :
  1 <= maxRetries ->
  (forall w0, exists e w1, swapTry js net quote wallet w0 = (Throw e, w1)) ->
  exists errors e w',
    failingAttempts net (swapTry js net quote wallet) (swapDelays maxRetries) w
      = Some (errors, w')
    /\ length errors = Z.to_nat maxRetries
    /\ last errors = Some e
    /\ Forall (fun d => 1000 <= d <= 2000) (swapDelays maxRetries)
    /\ executeSwapSafely js net quote wallet (Some maxRetries) w = (Throw e, w').
Proof.
  intros Hmax Hfails.
  destruct (swapLoop_all_fail js net quote wallet maxRetries Hfails
              (Z.to_nat (maxRetries - 1)) 1 (S (Z.to_nat maxRetries)) None w)
    as (errors & e & w' & Hrun & Hlast & Hlen & Hloop); [lia | lia |].
  exists errors, e, w'. rewrite Z2Nat.id in Hrun by lia.
  split; [exact Hrun|]. split; [lia|]. split; [exact Hlast|].
  split; [apply swapDelays_capped | exact Hloop].
Qed.

(** Every simulation reports an error: with the default of two attempts the
    swap is built and simulated twice, 1000 ms apart, and never broadcast. *)
Lemma executeSwapSafely_exhausts_attempts_witness :
  exists w',
    executeSwapSafely Scenario.js Scenario.net_simulation_error (Scenario.quote_of "500000")
                      Scenario.wallet (Some 2) Scenario.world0
      = (Throw (mkError "Transaction simulation failed"), w')
    /\ timers (trace w') = [Int 1000]
    /\ length (swapBuilds (trace w')) = 2%nat
    /\ broadcasts (trace w') = [].
Proof.
  destruct (executeSwapSafely_exhausts_attempts Scenario.js Scenario.net_simulation_error
              (Scenario.quote_of "500000") Scenario.wallet 2 Scenario.world0)
    as (errors & e & w' & Hrun & _ & Hlast & _ & Hsafe).
  - lia.
  - intros w0. eexists _, _. reflexivity.
  - exists w'. vm_compute in Hrun. injection Hrun as <- <-.
    injection Hlast as <-. split; [exact Hsafe|]. repeat split.
Defined.

(** The omitted [maxRetries] is 2. *)
Lemma executeSwapSafely_default_attempts js net quote wallet :
  executeSwapSafely js net quote wallet None = executeSwapSafely js net quote wallet (Some 2).
Proof. reflexivity. Qed.

(** ** Retry loops at their edges (src/trader.ts, src/utils/swap.ts) *)

(** X18.  With [maxRetries <= 0] neither retry loop makes an attempt: the
    operation is not invoked, the world is left as it was, and the generic
    error is thrown, "Swap failed after all retries" by [executeSwapSafely]
    and "<operationName> failed with unknown error" by [withRetry]. *)
Theorem zero_attempts_throw_generic_error
    {T : Type} (js : Runtime) (net : Network) (quote : QuoteResponse) (wallet : Wallet)
    (fn : M T) (operationName : string) (initialDelay : option Z)
    (useExponentialBackoff : option bool) (maxRetries : Z) (w : World) :
  maxRetries <= 0 ->
  executeSwapSafely js net quote wallet (Some maxRetries) w
  = (Throw (mkError "Swap failed after all retries"), w)
  /\ withRetry net fn (Some operationName) (Some maxRetries) initialDelay
               useExponentialBackoff w
     = (Throw (mkError (operationName ++ " failed with unknown error")%string), w).
Proof.
  intros Hmax. split.
  - unfold executeSwapSafely. cbn [default].
    exact (swapLoop_exit js net quote wallet maxRetries _ 1 None w ltac:(lia)).
  - unfold withRetry. cbn [default].
    exact (retryLoop_exit net fn operationName maxRetries _ _ _ 1 None w ltac:(lia)).
Qed.

Lemma zero_attempts_throw_generic_error_witness :
  withRetry Scenario.net_working Scenario.failing_operation (Some "TokenSell") (Some 0)
            (Some 1000) None Scenario.world0
  = (Throw (mkError "TokenSell failed with unknown error"), Scenario.world0).
Proof.
  exact (proj2 (zero_attempts_throw_generic_error
                  Scenario.js Scenario.net_working (Scenario.quote_of "0") Scenario.wallet
                  Scenario.failing_operation "TokenSell" (Some 1000) None 0 Scenario.world0
                  ltac:(lia))).
Defined.

Section RetrySuccessFacts.

Context {T : Type} (net : Network) (fn : M T) (operationName : string)
        (maxRetries initialDelay : Z) (useExponentialBackoff : bool).

(** After [j] failures, each followed by its scheduled wait, a success is
    returned. *)
Lemma retryLoop_first_success j : forall attempt fuel lastError w x w',
  attempt + Z.of_nat j <= maxRetries ->
  (j + 1 <= fuel)%nat ->
  succeedsAfter net fn
    (retryDelayMs initialDelay useExponentialBackoff <$> seqZ attempt (Z.of_nat j)) w
    = Some (x, w') ->
  retryLoop net fn operationName maxRetries initialDelay useExponentialBackoff
            fuel attempt lastError w = (Return x, w').
Proof.
  induction j as [|j IH]; intros attempt fuel lastError w x w' Hj Hfuel;
    (destruct fuel as [|fuel]; [lia|]).
  - cbn [succeedsAfter seqZ fmap]. simpl.
    destruct (fn w) as [[y|e|] w1] eqn:Hfn; try discriminate.
    intros [= <- <-]. apply (retryLoop_succeeded net fn); [lia | exact Hfn].
  - rewrite seqZ_cons by lia. rewrite fmap_cons. cbn [succeedsAfter].
    replace (Z.pred (Z.of_nat (S j))) with (Z.of_nat j) by lia.
    destruct (fn w) as [[y|e|] w1] eqn:Hfn; try discriminate.
    intros Hrest.
    rewrite (retryLoop_failed net fn _ _ _ _ _ attempt lastError w e w1) by (lia || assumption).
    destruct (Z.ltb_spec attempt maxRetries); [|lia].
    apply IH; [lia | lia | exact Hrest].
Qed.

End RetrySuccessFacts.

(** X19.  [withRetry] returns the first success: when the operation fails
    [j] times, [j < maxRetries], and then returns, [withRetry] returns that
    value right after the invocation that produced it, having waited the
    scheduled delay after each of the [j] failures and no more; the errors of
    the failed attempts are not reported. *)
Theorem withRetry_returns_first_success
    {T : Type} (net : Network) (fn : M T) (operationName : string)
    (maxRetries initialDelay : Z) (useExponentialBackoff : bool)
    (j : nat) (w : World) (x : T) (w' : World) :
  Z.of_nat j < maxRetries ->
  succeedsAfter net fn
    (retryDelayMs initialDelay useExponentialBackoff <$> seqZ 1 (Z.of_nat j)) w
    = Some (x, w') ->
  withRetry net fn (Some operationName) (Some maxRetries) (Some initialDelay)
            (Some useExponentialBackoff) w = (Return x, w').
Proof.
  intros Hj Hrun. unfold withRetry, default. cbn [from_option id].
  apply (retryLoop_first_success net fn operationName maxRetries initialDelay
           useExponentialBackoff j); [lia | lia | exact Hrun].
Qed.

(** The quoting service rejects the first request only: the second attempt
    returns the quote, after a single wait of 1000 ms. *)
Lemma withRetry_returns_first_success_witness :
  exists w',
    withRetry Cases.net_flaky_quote Cases.flaky_operation (Some "Quote") (Some 3) (Some 1000)
              (Some true) Scenario.world0
      = (Return (Some (Scenario.quote_of "500000")), w')
    /\ timers (trace w') = [Int 1000].
Proof.
  eexists. split.
  - apply (withRetry_returns_first_success Cases.net_flaky_quote Cases.flaky_operation
             "Quote" 3 1000 true 1); [lia | reflexivity].
  - reflexivity.
Defined.

Lemma constant_delays (d : Z) (n : nat) : forall a,
  retryDelayMs d false <$> seqZ a (Z.of_nat n) = repeat d n.
Proof.
  induction n as [|n IH]; intros a; [reflexivity|].
  rewrite seqZ_cons by lia. rewrite fmap_cons.
  replace (Z.pred (Z.of_nat (S n))) with (Z.of_nat n) by lia.
  now rewrite IH.
Qed.

(** X20.  Without exponential backoff every wait of [withRetry] is
    [initialDelay]: on an operation that fails on every invocation it makes
    [maxAttempts] invocations with [maxAttempts - 1] waits of [initialDelay]
    ms between them and throws the last error. *)
Theorem withRetry_constant_backoff {T : Type}
    (net : Network) (fn : M T) (operationName : string)
    (maxAttempts initialDelay : Z) (w : World) :
  1 <= maxAttempts ->
  (forall w0, exists e w1, fn w0 = (Throw e, w1)) ->
  exists errors e w',
    failingAttempts net fn (repeat initialDelay (Z.to_nat (maxAttempts - 1))) w
      = Some (errors, w')
    /\ length errors = Z.to_nat maxAttempts
    /\ last errors = Some e
    /\ withRetry net fn (Some operationName) (Some maxAttempts) (Some initialDelay)
                 (Some false) w = (Throw e, w').
Proof.
  intros Hmax Hfails.
  destruct (retryLoop_all_fail net fn operationName maxAttempts initialDelay false Hfails
              (Z.to_nat (maxAttempts - 1)) 1 (S (Z.to_nat maxAttempts)) None w)
    as (errors & e & w' & Hrun & Hlast & Hlen & Hloop); [lia | lia |].
  exists errors, e, w'. rewrite constant_delays in Hrun.
  split; [exact Hrun|]. split; [lia|]. split; [exact Hlast | exact Hloop].
Qed.

Lemma withRetry_constant_backoff_witness :
  exists w',
    withRetry Scenario.net_expiring Scenario.failing_operation
              (Some "Quote") (Some 3) (Some 1000) (Some false) Scenario.world0
      = (Throw (mkError "Response returned an error code"), w')
    /\ timers (trace w') = [Int 1000; Int 1000].
Proof.
  destruct (withRetry_constant_backoff Scenario.net_expiring Scenario.failing_operation
              "Quote" 3 1000 Scenario.world0)
    as (errors & e & w' & Hrun & _ & Hlast & Hretry).
  - lia.
  - intros w0. eexists _, _. reflexivity.
  - exists w'. vm_compute in Hrun. injection Hrun as <- <-.
    injection Hlast as <-. split; [exact Hretry | reflexivity].
Defined.

(** ** The balance watcher in every run (src/utils/tokens.ts) *)

Section WatcherBounds.

Context (js : Runtime) (net : Network) (wallet : Wallet) (tokenMint : string)
        (retries delayMs : number) (initialBalance : Q).

(** The samples the loop has left at [attempts]. *)
Let samplesLeft (attempts : Z) : nat :=
  match retries with
  | Int r => Z.to_nat (r - attempts)
  | NaN => 0%nat
  end.

(** One sample: the timer of [delayMs], then a read that adds no timer. *)
Lemma sample_timers w c w' :
  getTokenBalance js net wallet tokenMint (world_after (delay net delayMs) w) = (Return c, w') ->
  timers (trace w') = timers (trace w) ++ [delayMs].
Proof.
  intros Hb. apply getTokenBalance_trace in Hb as (_ & evs & -> & Hevs).
  apply (balance_reads_are_no_quotes evs (trace (world_after (delay net delayMs) w)))
    in Hevs as (_ & _ & ->).
  change (trace (world_after (delay net delayMs) w)) with ([SetTimeout delayMs] ++ trace w).
  now rewrite timers_app.
Qed.

(** The loop returns in every run, after at most the samples it has left;
    when it returns the initial balance it has taken them all. *)
Lemma balanceLoop_returns fuel : forall currentBalance attempts w,
  (samplesLeft attempts < fuel)%nat ->
  exists b w' n,
    balanceLoop js net wallet tokenMint retries delayMs initialBalance
                fuel currentBalance attempts w = (Return b, w')
    /\ timers (trace w') = timers (trace w) ++ repeat delayMs n
    /\ (n <= samplesLeft attempts)%nat
    /\ (Qeq_bool currentBalance initialBalance = true ->
        Qeq_bool b initialBalance = true -> n = samplesLeft attempts).
Proof.
  induction fuel as [|fuel IH]; intros c a w Hfuel; [lia|].
  rewrite balanceLoop_unfold.
  destruct (Js.lt (Int a) retries) eqn:Hlt; cbn [andb].
  - destruct (Qeq_bool c initialBalance) eqn:Hc.
    + destruct (getTokenBalance_returns js net wallet tokenMint
                  (world_after (delay net delayMs) w)) as (c1 & w1 & Hb).
      rewrite Hb.
      assert (Hleft : samplesLeft a = S (samplesLeft (a + 1))).
      { unfold samplesLeft in *. destruct retries as [|r]; [discriminate|].
        simpl in Hlt. apply Z.ltb_lt in Hlt. lia. }
      destruct (IH c1 (a + 1) w1) as (b & w' & n & Hloop & Htimers & Hn & Hall); [lia|].
      exists b, w', (S n). split; [exact Hloop|]. split; [|split].
      * rewrite Htimers, (sample_timers w c1 w1 Hb), <- app_assoc. reflexivity.
      * lia.
      * intros _ Hb'. rewrite Hleft. f_equal.
        destruct (Qeq_bool c1 initialBalance) eqn:Hc1; [now apply Hall|].
        (* the sample differed: the loop stopped there, returning it *)
        destruct fuel as [|fuel]; [lia|]. rewrite balanceLoop_unfold, Hc1, andb_false_r in Hloop.
        injection Hloop as <- <-. congruence.
    + exists c, w, 0%nat. rewrite app_nil_r. repeat split; [lia | discriminate].
  - exists c, w, 0%nat. rewrite app_nil_r. repeat split; [lia|].
    intros _ _. unfold samplesLeft. destruct retries as [|r]; [reflexivity|].
    simpl in Hlt. apply Z.ltb_ge in Hlt. lia.
Qed.

(** After [k] samples that read the initial balance again and one that reads
    another amount, the loop returns that amount at once. *)
Lemma balanceLoop_first_change k : forall currentBalance attempts fuel w wk b w',
  Qeq_bool currentBalance initialBalance = true ->
  match retries with Int r => attempts + Z.of_nat k < r | NaN => False end ->
  (k + 2 <= fuel)%nat ->
  samplesUnchanged js net wallet tokenMint delayMs initialBalance k w = Some wk ->
  getTokenBalance js net wallet tokenMint (world_after (delay net delayMs) wk) = (Return b, w') ->
  Qeq_bool b initialBalance = false ->
  balanceLoop js net wallet tokenMint retries delayMs initialBalance
              fuel currentBalance attempts w = (Return b, w').
Proof.
  destruct retries as [|r]; [intros; contradiction|].
  induction k as [|k IH]; intros c a fuel w wk b w' Hc Hk Hfuel Hsame Hb Hdiff;
    (destruct fuel as [|fuel]; [lia|]); rewrite balanceLoop_unfold; cbn [Js.lt];
    (destruct (Z.ltb_spec a r); [|lia]); rewrite Hc; cbn [andb].
  - injection Hsame as <-. rewrite Hb.
    destruct fuel as [|fuel]; [lia|]. rewrite balanceLoop_unfold, Hdiff, andb_false_r.
    reflexivity.
  - cbn [samplesUnchanged] in Hsame.
    destruct (getTokenBalance js net wallet tokenMint (world_after (delay net delayMs) w))
      as [[c1| |] w1] eqn:Hc1; try discriminate.
    destruct (Qeq_bool c1 initialBalance) eqn:Hsame1; [|discriminate].
    apply (IH c1 (a + 1) fuel w1 wk b w'); (lia || assumption).
Qed.

End WatcherBounds.

(** X21.  [waitForBalanceChange] returns in every run, whatever the RPC node
    answers: it never throws, arms at most [retries] timers, all of [delayMs]
    (none when [retries] is not a positive number), and when the balance it
    returns equals the initial sample it has used all [retries] samples. *)
Theorem waitForBalanceChange_always_returns
    (js : Runtime) (net : Network) (wallet : Wallet) (tokenMint : string)
    (retries delayMs : option number) (w : World) :
  exists initialBalance w1 b w' n,
    getTokenBalance js net wallet tokenMint w = (Return initialBalance, w1)
    /\ waitForBalanceChange js net wallet tokenMint retries delayMs w = (Return b, w')
    /\ timers (trace w') = timers (trace w) ++ repeat (default (Int 2000) delayMs) n
    /\ (n <= match default (Int 5) retries with Int r => Z.to_nat r | NaN => 0 end)%nat
    /\ (Qeq_bool b initialBalance = true ->
        n = match default (Int 5) retries with Int r => Z.to_nat r | NaN => 0%nat end).
Proof.
  destruct (getTokenBalance_returns js net wallet tokenMint w) as (b0 & w1 & Hb0).
  destruct (balanceLoop_returns js net wallet tokenMint (default (Int 5) retries)
              (default (Int 2000) delayMs) b0 (balanceFuel (default (Int 5) retries)) b0 0 w1)
    as (b & w' & n & Hloop & Htimers & Hn & Hall).
  { unfold balanceFuel. destruct (default (Int 5) retries); lia. }
  exists b0, w1, b, w', n. split; [exact Hb0|]. split; [|split; [|split]].
  - unfold waitForBalanceChange, bind at 1. rewrite Hb0. exact Hloop.
  - rewrite Htimers. f_equal.
    apply getTokenBalance_trace in Hb0 as (_ & evs & -> & Hevs).
    now apply (balance_reads_are_no_quotes evs (trace w)) in Hevs as (_ & _ & ->).
  - destruct (default (Int 5) retries); [exact Hn|]. now rewrite Z.sub_0_r in Hn.
  - intros Hsame. rewrite Hall; [|apply Qeq_bool_iff; reflexivity | exact Hsame].
    destruct (default (Int 5) retries); [reflexivity|]. now rewrite Z.sub_0_r.
Qed.

(** X22.  [waitForBalanceChange] stops at the first sample that differs from
    the initial one: after [k < retries] samples equal to the initial balance
    and one that reads another amount, it returns that amount right after
    that read, without a further delay or sample. *)
Theorem waitForBalanceChange_returns_first_change
    (js : Runtime) (net : Network) (wallet : Wallet) (tokenMint : string)
    (retries : Z) (delayMs : number) (k : nat)
    (w w1 wk w' : World) (initialBalance b : Q) :
  Z.of_nat k < retries ->
  getTokenBalance js net wallet tokenMint w = (Return initialBalance, w1) ->
  samplesUnchanged js net wallet tokenMint delayMs initialBalance k w1 = Some wk ->
  getTokenBalance js net wallet tokenMint (world_after (delay net delayMs) wk) = (Return b, w') ->
  Qeq_bool b initialBalance = false ->
  waitForBalanceChange js net wallet tokenMint (Some (Int retries)) (Some delayMs) w
  = (Return b, w').
Proof.
  intros Hk Hb0 Hsame Hb Hdiff.
  unfold waitForBalanceChange, bind at 1. rewrite Hb0. unfold default. cbn [from_option id].
  apply (balanceLoop_first_change js net wallet tokenMint (Int retries) delayMs
           initialBalance k initialBalance 0 _ w1 wk b w');
    try assumption.
  - apply Qeq_bool_iff. reflexivity.
  - unfold balanceFuel. lia.
Qed.

(** The purchased tokens arrive at the third read: the watcher returns them
    after two delays, with three of its five retries unused. *)
Lemma waitForBalanceChange_returns_first_change_witness :
  exists w',
    waitForBalanceChange Scenario.js Cases.net_arriving Scenario.wallet USDC_MINT
                         (Some (Int 5)) (Some (Int 2000)) Scenario.world0
      = (Return (1 # 2)%Q, w')
    /\ timers (trace w') = [Int 2000; Int 2000].
Proof.
  pose (sample := getTokenBalance Scenario.js Cases.net_arriving Scenario.wallet USDC_MINT).
  pose (again := resample Scenario.js Cases.net_arriving Scenario.wallet USDC_MINT (Int 2000)).
  exists (again (again (world_after sample Scenario.world0))). split.
  - apply (waitForBalanceChange_returns_first_change
             Scenario.js Cases.net_arriving Scenario.wallet USDC_MINT 5 (Int 2000) 1
             Scenario.world0 (world_after sample Scenario.world0)
             (again (world_after sample Scenario.world0)) _ 0%Q (1 # 2)%Q);
      [lia | reflexivity | reflexivity | reflexivity | reflexivity].
  - reflexivity.
Defined.

(** ** The availability probe (src/trader.ts) *)

Lemma probeRequest_is_probe_event (js : Runtime) (mintAddress : string) :
  is_probe_event mintAddress (QuoteGet (probeRequest js mintAddress)) = true.
Proof.
  unfold is_probe_event, probeRequest. cbn [inputMint outputMint amount slippageBps].
  rewrite !String.eqb_refl. reflexivity.
Qed.

Section ProbeFacts.

Context (js : Runtime) (net : Network) (mintAddress : string) (startTime : Z).

Abbreviation probe := (request net (QuoteGet (probeRequest js mintAddress)) (quoteGet net)).

(** One probe, case by case: an answer ends the loop, a failure is followed
    by the retry interval unless the minute would be over by then. *)
Lemma probeOnce_cases w :
  probeOnce js net mintAddress startTime w
  = match quoteGet net (QuoteGet (probeRequest js mintAddress) :: trace w) with
    | Ok (Some _) => (Return (Stop true), world_after probe w)
    | Ok None => (Return (Stop false), world_after probe w)
    | Fail _ =>
        (Return (Continue tt),
         if now (world_after probe w) - startTime + retryIntervalMs <? maxRetryDurationMs
         then world_after (delay net (Int retryIntervalMs)) (world_after probe w)
         else world_after probe w)
    end.
Proof.
  unfold probeOnce, try_catch, bind at 1. rewrite request_run.
  destruct (quoteGet net _) as [[response|]|e]; cbn [settle]; try reflexivity.
  unfold bind at 1, Date_now.
  destruct (now (world_after probe w) - startTime + retryIntervalMs <? maxRetryDurationMs);
    reflexivity.
Qed.

Lemma availabilityLoop_unfold fuel attempt w :
  availabilityLoop js net mintAddress startTime (S fuel) attempt w
  = if now w - startTime <? maxRetryDurationMs then
      match probeOnce js net mintAddress startTime w with
      | (Return (Stop available), w') => (Return available, w')
      | (Return (Continue _), w') =>
          availabilityLoop js net mintAddress startTime fuel (attempt + 1) w'
      | (Throw e, w') => (Throw e, w')
      | (OutOfFuel, w') => (OutOfFuel, w')
      end
    else (Return false, w).
Proof.
  cbn [availabilityLoop]. unfold bind at 1, Date_now.
  destruct (now w - startTime <? maxRetryDurationMs); [|reflexivity].
  unfold bind at 1.
  destruct (probeOnce js net mintAddress startTime w) as [[[b|[]]|e|] w']; reflexivity.
Qed.

(** Failed probes are skipped by the loop. *)
Lemma availabilityLoop_after_failures k : forall fuel attempt w wk,
  probesFailed js net mintAddress startTime k w = Some wk ->
  availabilityLoop js net mintAddress startTime (k + fuel) attempt w
  = availabilityLoop js net mintAddress startTime fuel (attempt + Z.of_nat k) wk.
Proof.
  induction k as [|k IH]; intros fuel attempt w wk Hk.
  - injection Hk as <-. now rewrite Z.add_0_r.
  - cbn [probesFailed] in Hk. change (S k + fuel)%nat with (S (k + fuel)).
    rewrite availabilityLoop_unfold.
    destruct (now w - startTime <? maxRetryDurationMs); [|discriminate].
    destruct (probeOnce js net mintAddress startTime w) as [[[b|[]]|e|] w1]; try discriminate.
    rewrite (IH fuel (attempt + 1) w1 wk Hk). f_equal. lia.
Qed.

Hypothesis requests_take_time : forall tr, (1 <= latency net tr)%N.

Lemma probe_takes_time w : now w + 1 <= now (world_after probe w).
Proof.
  unfold world_after, request, perform. cbn [snd now].
  specialize (requests_take_time (QuoteGet (probeRequest js mintAddress) :: trace w)). lia.
Qed.

(** Every failed probe takes a millisecond at least. *)
Lemma probesFailed_elapsed k : forall w wk,
  probesFailed js net mintAddress startTime k w = Some wk ->
  now w + Z.of_nat k <= now wk.
Proof.
  induction k as [|k IH]; intros w wk Hk.
  - injection Hk as <-. lia.
  - cbn [probesFailed] in Hk.
    destruct (now w - startTime <? maxRetryDurationMs); [|discriminate].
    rewrite probeOnce_cases in Hk. pose proof (probe_takes_time w) as Hprobe.
    destruct (quoteGet net _) as [[response|]|e]; try discriminate.
    apply IH in Hk.
    destruct (now (world_after probe w) - startTime + retryIntervalMs <? maxRetryDurationMs);
      [|lia].
    pose proof (sleep_now net retryIntervalMs (world_after probe w)
                  ltac:(unfold retryIntervalMs; lia)) as Hsleep.
    unfold delay in Hk. unfold retryIntervalMs in *. lia.
Qed.

(** The loop returns before its fuel is used up; it adds only probe events,
    one timer per whole second that was left and one quote request per
    millisecond at most. *)
Lemma availabilityLoop_returns fuel : forall attempt w,
  (Z.to_nat (maxRetryDurationMs - (now w - startTime)) < fuel)%nat ->
  exists b w' evs,
    availabilityLoop js net mintAddress startTime fuel attempt w = (Return b, w')
    /\ trace w' = evs ++ trace w
    /\ Forall (fun ev => is_probe_event mintAddress ev = true) evs
    /\ (timers evs <> [] ->
        now w - startTime + retryIntervalMs * Z.of_nat (length (timers evs))
        < maxRetryDurationMs)
    /\ Z.of_nat (length (quoteRequests evs))
       <= Z.max 0 (maxRetryDurationMs - (now w - startTime)).
Proof.
  induction fuel as [|fuel IH]; intros attempt w Hfuel; [lia|].
  rewrite availabilityLoop_unfold.
  destruct (Z.ltb_spec (now w - startTime) maxRetryDurationMs) as [Hlt|Hge].
  2:{ exists false, w, []. split; [reflexivity|]. split; [reflexivity|].
      split; [constructor|]. split; [intros H; exfalso; now apply H | simpl; lia]. }
  rewrite probeOnce_cases. pose proof (probe_takes_time w) as Hprobe.
  pose proof (probeRequest_is_probe_event js mintAddress) as Hev.
  assert (Hinterval : 0 <= retryIntervalMs) by (unfold retryIntervalMs; lia).
  assert (Hone : forall b : bool,
             exists b' w' evs,
               (@Return bool b, world_after probe w) = (Return b', w')
               /\ trace w' = evs ++ trace w
               /\ Forall (fun ev => is_probe_event mintAddress ev = true) evs
               /\ (timers evs <> [] ->
                   now w - startTime + retryIntervalMs * Z.of_nat (length (timers evs))
                   < maxRetryDurationMs)
               /\ Z.of_nat (length (quoteRequests evs))
                  <= Z.max 0 (maxRetryDurationMs - (now w - startTime))).
  { intros b. exists b, (world_after probe w), [QuoteGet (probeRequest js mintAddress)].
    split; [reflexivity|]. split; [reflexivity|]. split; [now repeat constructor|].
    split; [intros H; exfalso; now apply H|]. simpl. lia. }
  destruct (quoteGet net _) as [[response|]|e]; [apply Hone | apply Hone |].
  destruct (Z.ltb_spec (now (world_after probe w) - startTime + retryIntervalMs)
                       maxRetryDurationMs) as [Hwait|Hnowait].
  - pose proof (sleep_now net retryIntervalMs (world_after probe w)
                  ltac:(unfold retryIntervalMs; lia)) as Hsleep.
    change (sleep net (Int retryIntervalMs)) with (delay net (Int retryIntervalMs)) in Hsleep.
    set (w2 := world_after (delay net (Int retryIntervalMs)) (world_after probe w)) in *.
    destruct (IH (attempt + 1) w2) as (b & w' & evs & Hloop & Htrace & Hevs & Htimers & Hquotes);
      [lia|].
    exists b, w', (evs ++ [SetTimeout (Int retryIntervalMs); QuoteGet (probeRequest js mintAddress)]).
    split; [exact Hloop|]. split; [now rewrite Htrace, <- app_assoc|].
    split; [apply Forall_app; split; [exact Hevs | now repeat constructor]|].
    split.
    + intros _. rewrite timers_app, length_app.
      change (length (timers [SetTimeout (Int retryIntervalMs);
                              QuoteGet (probeRequest js mintAddress)])) with 1%nat.
      destruct (timers evs) as [|t ts] eqn:Hts.
      * simpl. unfold retryIntervalMs in *. lia.
      * specialize (Htimers ltac:(discriminate)). unfold retryIntervalMs in *. lia.
    + unfold quoteRequests in *. rewrite filter_app, length_app. simpl. lia.
  - destruct (IH (attempt + 1) (world_after probe w))
      as (b & w' & evs & Hloop & Htrace & Hevs & Htimers & Hquotes); [lia|].
    exists b, w', (evs ++ [QuoteGet (probeRequest js mintAddress)]).
    split; [exact Hloop|]. split; [now rewrite Htrace, <- app_assoc|].
    split; [apply Forall_app; split; [exact Hevs | now repeat constructor]|].
    split.
    + rewrite timers_app.
      change (timers [QuoteGet (probeRequest js mintAddress)]) with (@nil number).
      rewrite app_nil_l. intros Hne. specialize (Htimers Hne). lia.
    + unfold quoteRequests in *. rewrite filter_app, length_app. simpl. lia.
Qed.

End ProbeFacts.

(** X23.  [checkTokenAvailability] is decided by the first probe that the
    quoting service answers: after [k] probes that failed, each followed by
    the retry interval while more than a second of the minute is left, an
    answer received within the minute ends the check at once, [true] for a
    route and [false] for an empty answer, which is not retried. *)
Theorem checkTokenAvailability_first_answer_decides
    (js : Runtime) (net : Network) (mintAddress : string) (k : nat) (w wk : World)
    (response : option QuoteResponse) :
  (forall tr, (1 <= latency net tr)%N) ->
  probesFailed js net mintAddress (now w) k w = Some wk ->
  now wk - now w < maxRetryDurationMs ->
  quoteGet net (QuoteGet (probeRequest js mintAddress) :: trace wk) = Ok response ->
  checkTokenAvailability js net mintAddress w
  = (Return (match response with Some _ => true | None => false end),
     world_after (request net (QuoteGet (probeRequest js mintAddress)) (quoteGet net)) wk).
Proof.
  intros Hlatency Hfailed Hintime Hanswer.
  pose proof (probesFailed_elapsed js net mintAddress (now w) Hlatency k w wk Hfailed) as Hk.
  unfold checkTokenAvailability, bind at 1, Date_now.
  replace availabilityFuel with (k + S (Z.to_nat maxRetryDurationMs - k))%nat
    by (unfold availabilityFuel; lia).
  rewrite (availabilityLoop_after_failures js net mintAddress (now w) k _ 0 w wk Hfailed).
  rewrite availabilityLoop_unfold.
  destruct (Z.ltb_spec (now wk - now w) maxRetryDurationMs); [|lia].
  rewrite probeOnce_cases, Hanswer. now destruct response.
Qed.

(** The quoting service rejects the first probe and answers the second: the
    token is reported available after one retry interval. *)
Lemma checkTokenAvailability_first_answer_decides_witness :
  exists w',
    checkTokenAvailability Scenario.js Cases.net_flaky_quote USDC_MINT Scenario.world0
    = (Return true, w')
    /\ timers (trace w') = [Int 1000]
    /\ length (quoteRequests (trace w')) = 2%nat.
Proof.
  pose (probe := request Cases.net_flaky_quote (QuoteGet (probeRequest Scenario.js USDC_MINT))
                         (quoteGet Cases.net_flaky_quote)).
  pose (wk := world_after (delay Cases.net_flaky_quote (Int 1000))
                          (world_after probe Scenario.world0)).
  exists (world_after probe wk). split; [|split; reflexivity].
  apply (checkTokenAvailability_first_answer_decides
           Scenario.js Cases.net_flaky_quote USDC_MINT 1 Scenario.world0 wk
           (Some (Scenario.quote_of "500000")));
    [intros tr; simpl; lia | reflexivity | vm_compute; reflexivity | reflexivity].
Defined.

(** X24.  When every request takes at least a millisecond,
    [checkTokenAvailability] returns a boolean in every run: it never throws,
    whatever the quoting service does.  It adds nothing to the history but its
    probe (a quote request for 0.01 SOL into the mint at 10000 bps) and timers
    of 1000 ms: at most 59 timers and at most 60000 probes. *)
Theorem checkTokenAvailability_returns_within_the_minute
    (js : Runtime) (net : Network) (mintAddress : string) (w : World) :
  (forall tr, (1 <= latency net tr)%N) ->
  exists b w' evs,
    checkTokenAvailability js net mintAddress w = (Return b, w')
    /\ trace w' = evs ++ trace w
    /\ Forall (fun ev => is_probe_event mintAddress ev = true) evs
    /\ (length (timers evs) <= 59)%nat
    /\ Z.of_nat (length (quoteRequests evs)) <= maxRetryDurationMs.
Proof.
  intros Hlatency.
  destruct (availabilityLoop_returns js net mintAddress (now w) Hlatency availabilityFuel 0 w)
    as (b & w' & evs & Hloop & Htrace & Hevs & Htimers & Hquotes).
  { unfold availabilityFuel. lia. }
  exists b, w', evs. split; [exact Hloop|]. split; [exact Htrace|]. split; [exact Hevs|].
  unfold maxRetryDurationMs, retryIntervalMs in *. split; [|lia].
  destruct (timers evs) as [|t ts] eqn:Hts; [simpl; lia|].
  specialize (Htimers ltac:(discriminate)). lia.
Qed.

Lemma checkTokenAvailability_returns_within_the_minute_witness :
  exists b w' evs,
    checkTokenAvailability Scenario.js Scenario.net_expiring USDC_MINT Scenario.world0
    = (Return b, w')
    /\ trace w' = evs ++ trace Scenario.world0
    /\ Forall (fun ev => is_probe_event USDC_MINT ev = true) evs
    /\ (length (timers evs) <= 59)%nat
    /\ Z.of_nat (length (quoteRequests evs)) <= maxRetryDurationMs.
Proof.
  apply (checkTokenAvailability_returns_within_the_minute
           Scenario.js Scenario.net_expiring USDC_MINT Scenario.world0).
  intros tr. simpl. lia.
Defined.

(** X25.  [checkAndBuy] never throws: a failure of the probe or of the flow
    it starts is swallowed.  When the probe reports the token unavailable it
    does nothing more: no wallet is loaded and no buy is attempted. *)
Theorem checkAndBuy_never_throws
    (js : Runtime) (net : Network) (newTokenMint : string) (w : World) :
  (forall e, result_of (checkAndBuy js net newTokenMint) w <> Throw e)
  /\ (result_of (checkTokenAvailability js net newTokenMint) w = Return false ->
      checkAndBuy js net newTokenMint w
      = (Return tt, world_after (checkTokenAvailability js net newTokenMint) w)).
Proof.
  unfold checkAndBuy, result_of, world_after, try_catch, bind.
  destruct (checkTokenAvailability js net newTokenMint w) as [[[|]|e|] w1]; cbn [fst snd].
  - destruct (buyAndSellFlow js net newTokenMint None w1) as [[[]|e|] w2];
      split; (discriminate || (intros; discriminate)).
  - split; [discriminate | reflexivity].
  - split; [discriminate | discriminate].
  - split; [discriminate | discriminate].
Qed.

(** The quoting service knows no route for the token: the probe is the only
    thing [checkAndBuy] does. *)
Lemma checkAndBuy_never_throws_witness :
  checkAndBuy Scenario.js Cases.net_no_route USDC_MINT Scenario.world0
  = (Return tt,
     world_after (checkTokenAvailability Scenario.js Cases.net_no_route USDC_MINT)
                 Scenario.world0)
  /\ length (trace (world_after (checkAndBuy Scenario.js Cases.net_no_route USDC_MINT)
                                Scenario.world0)) = 1%nat.
Proof.
  split.
  - apply (proj2 (checkAndBuy_never_throws Scenario.js Cases.net_no_route USDC_MINT
                    Scenario.world0)).
    reflexivity.
  - reflexivity.
Defined.

(** ** What the flow does to [process.env] (src/trader.ts) *)

Lemma keeps_env_availabilityLoop js net mintAddress startTime fuel :
  forall attempt, keeps_env (availabilityLoop js net mintAddress startTime fuel attempt).
Proof.
  induction fuel as [|fuel IH]; intros attempt; cbn [availabilityLoop];
    [auto with env_frame|].
  unfold probeOnce. env_frame.
Qed.

Lemma keeps_env_checkTokenAvailability js net mintAddress :
  keeps_env (checkTokenAvailability js net mintAddress).
Proof.
  unfold checkTokenAvailability. pose proof (keeps_env_availabilityLoop js net mintAddress).
  env_frame.
Qed.

Lemma keeps_env_but_keeps name {A} (m : M A) : keeps_env m -> keeps_env_but name m.
Proof. intros Hm w key _. now rewrite Hm. Qed.

Lemma keeps_env_but_set name value : keeps_env_but name (set_process_env name value).
Proof.
  intros w key Hkey. unfold world_after, set_process_env. cbn [snd env].
  now apply lookup_insert_ne.
Qed.

Lemma keeps_env_but_bind name {A B} (m : M A) (k : A -> M B) :
  keeps_env_but name m -> (forall a, keeps_env_but name (k a)) -> keeps_env_but name (bind m k).
Proof.
  intros Hm Hk w key Hkey. specialize (Hm w key Hkey). unfold world_after, bind in *.
  destruct (m w) as [[a|e|] w1]; simpl in *; [|assumption..].
  specialize (Hk a w1 key Hkey). unfold world_after in Hk. congruence.
Qed.

Lemma keeps_env_but_try_catch name {A} (m : M A) (handler : Error -> M A) :
  keeps_env_but name m -> (forall e, keeps_env_but name (handler e)) ->
  keeps_env_but name (try_catch m handler).
Proof.
  intros Hm Hh w key Hkey. specialize (Hm w key Hkey). unfold world_after, try_catch in *.
  destruct (m w) as [[a|e|] w1]; simpl in *; [assumption| |assumption].
  specialize (Hh e w1 key Hkey). unfold world_after in Hh. congruence.
Qed.

Ltac env_frame_but :=
  repeat first
    [ match goal with |- forall _, _ => intro end
    | apply keeps_env_but_set
    | apply keeps_env_but_keeps; solve [ env_frame ]
    | apply keeps_env_but_bind
    | apply keeps_env_but_try_catch
    | match goal with
      | |- keeps_env_but _ (match ?x with _ => _ end) => destruct x
      | |- keeps_env_but _ (let _ := _ in _) => cbv zeta
      end ].

Lemma keeps_env_but_buyAndSellFlow js net tokenMint buyAmountSOL :
  keeps_env_but "BUY_AMOUNT_SOL" (buyAndSellFlow js net tokenMint buyAmountSOL).
Proof.
  pose proof keeps_env_getWallet. pose proof keeps_env_waitForBalanceChange.
  unfold buyAndSellFlow. env_frame_but.
Qed.

Lemma keeps_env_buyAndSellFlow js net tokenMint :
  keeps_env (buyAndSellFlow js net tokenMint None).
Proof.
  pose proof keeps_env_getWallet. pose proof keeps_env_waitForBalanceChange.
  unfold buyAndSellFlow. env_frame.
Qed.

(** X26.  The only variable of [process.env] that the program writes is
    BUY_AMOUNT_SOL, and only in [buyAndSellFlow] called with an override: in
    every run, failed or not, [buyAndSellFlow] leaves every other variable as
    it was, and without an override [buyAndSellFlow] and [checkAndBuy] leave
    the whole environment unchanged. *)
Theorem flow_writes_only_the_buy_amount
    (js : Runtime) (net : Network) (tokenMint : string) (buyAmountSOL : option Q) (w : World) :
  (forall key, key <> "BUY_AMOUNT_SOL" ->
     env (world_after (buyAndSellFlow js net tokenMint buyAmountSOL) w) !! key = env w !! key)
  /\ env (world_after (buyAndSellFlow js net tokenMint None) w) = env w
  /\ env (world_after (checkAndBuy js net tokenMint) w) = env w.
Proof.
  split; [|split].
  - intros key Hkey. now apply keeps_env_but_buyAndSellFlow.
  - apply keeps_env_buyAndSellFlow.
  - revert w. change (keeps_env (checkAndBuy js net tokenMint)).
    pose proof keeps_env_checkTokenAvailability. pose proof keeps_env_buyAndSellFlow.
    unfold checkAndBuy. env_frame.
Qed.

(** A completed flow with an override of 0.5 SOL leaves the private key in
    place. *)
Lemma flow_writes_only_the_buy_amount_witness :
  env (world_after (buyAndSellFlow Scenario.js Scenario.net_working USDC_MINT (Some (1 # 2)%Q))
                   Scenario.world0) !! "PRIVATE_KEY"
  = Some TEST_SECRET_KEY.
Proof.
  rewrite (proj1 (flow_writes_only_the_buy_amount Scenario.js Scenario.net_working USDC_MINT
                    (Some (1 # 2)%Q) Scenario.world0) "PRIVATE_KEY");
    [reflexivity | discriminate].
Defined.

(** ** The swap request (src/utils/swap.ts) *)

(** X27.  The swap request of [getSwapResponse] depends on four settings
    only: PRIORITY_FEE_LAMPORTS, PRIORITY_LEVEL, COMPUTE_UNIT_LIMIT and
    COMPUTE_UNIT_PRICE_MICROLAMPORTS.  Its [options], NEW_TOKEN_MODE and the
    slippage settings have no effect on it: the slippage it computes is not
    part of the request it posts. *)
Theorem getSwapResponse_ignores_slippage_and_options
    (js : Runtime) (net : Network) (wallet : Wallet) (quote : QuoteResponse)
    (options options' : option SwapOptions) (w w' : World) :
  trace w = trace w' ->
  env w !! "PRIORITY_FEE_LAMPORTS" = env w' !! "PRIORITY_FEE_LAMPORTS" ->
  env w !! "PRIORITY_LEVEL" = env w' !! "PRIORITY_LEVEL" ->
  env w !! "COMPUTE_UNIT_LIMIT" = env w' !! "COMPUTE_UNIT_LIMIT" ->
  env w !! "COMPUTE_UNIT_PRICE_MICROLAMPORTS" = env w' !! "COMPUTE_UNIT_PRICE_MICROLAMPORTS" ->
  result_of (getSwapResponse js net wallet quote options) w
  = result_of (getSwapResponse js net wallet quote options') w'
  /\ trace (world_after (getSwapResponse js net wallet quote options) w)
     = trace (world_after (getSwapResponse js net wallet quote options') w').
Proof.
  intros Htrace Hfee Hlevel Hlimit Hprice.
  unfold result_of, world_after, getSwapResponse, bind, process_env. cbv zeta.
  rewrite !request_run. cbn [fst snd]. rewrite !request_trace.
  unfold getConfig.
  cbn [PRIORITY_FEE_LAMPORTS PRIORITY_LEVEL COMPUTE_UNIT_LIMIT COMPUTE_UNIT_PRICE_MICROLAMPORTS].
  rewrite Htrace, Hfee, Hlevel, Hlimit, Hprice. split; reflexivity.
Qed.

(** New-token mode with a slippage of 50% and the [isNewToken] option posts
    the swap request of the default settings. *)
Lemma getSwapResponse_ignores_slippage_and_options_witness :
  trace (world_after (getSwapResponse Scenario.js Scenario.net_working Scenario.wallet
                        (Scenario.quote_of "500000")
                        (Some {| isSell := None; optIsNewToken := Some true |}))
                     {| now := 0;
                        env := <["NEW_TOKEN_MODE" := "true"]>
                                 (<["SLIPPAGE_BPS" := "5000"]> (env Scenario.world0));
                        trace := [] |})
  = trace (world_after (getSwapResponse Scenario.js Scenario.net_working Scenario.wallet
                          (Scenario.quote_of "500000") None)
                       Scenario.world0).
Proof.
  destruct (getSwapResponse_ignores_slippage_and_options
              Scenario.js Scenario.net_working Scenario.wallet (Scenario.quote_of "500000")
              (Some {| isSell := None; optIsNewToken := Some true |}) None
              {| now := 0;
                 env := <["NEW_TOKEN_MODE" := "true"]>
                          (<["SLIPPAGE_BPS" := "5000"]> (env Scenario.world0));
                 trace := [] |}
              Scenario.world0) as [_ Hsame];
    [reflexivity | vm_compute; reflexivity .. | exact Hsame].
Defined.

(** X28.  The body of an attempt of [executeSwapSafely] broadcasts only after two clean
    simulations of the signed transaction: the one of [simulateSwap], at
    commitment "confirmed", and then the one of [executeSwap], at
    "processed".  An error in either, or a failure to build, decode or sign
    the swap, ends the attempt without a broadcast. *)
Theorem swap_attempt_broadcasts_after_two_clean_simulations
    (js : Runtime) (net : Network) (quote : QuoteResponse) (wallet : Wallet) (w : World) :
  broadcasts (trace (world_after (swapTry js net quote wallet) w)) <> broadcasts (trace w) ->
  exists swapResponse w1 tx0 tx sim1 sim2,
    getSwapResponse js net wallet quote None w = (Return swapResponse, w1)
    /\ deserialize js (swapTransaction swapResponse) = Ok tx0
    /\ sign js wallet tx0 = Ok tx
    /\ simulateTransaction net (SimulateTransaction tx "confirmed" :: trace w1) = Ok sim1
    /\ simErr sim1 = None
    /\ simulateTransaction net (SimulateTransaction tx "processed"
                                :: SimulateTransaction tx "confirmed" :: trace w1) = Ok sim2
    /\ simErr sim2 = None.
Proof.
  unfold swapTry, world_after at 1, bind at 1.
  destruct (getSwapResponse js net wallet quote None w) as [[swapResponse|e|] w1] eqn:Hswap;
    cbn [snd].
  2,3: unfold getSwapResponse, bind, process_env in Hswap; cbv zeta in Hswap;
       rewrite request_run in Hswap; apply (f_equal snd) in Hswap; cbn [snd] in Hswap;
       subst w1; intros H; now elim H.
  assert (Hw1 : broadcasts (trace w1) = broadcasts (trace w)).
  { unfold getSwapResponse, bind, process_env in Hswap. cbv zeta in Hswap.
    rewrite request_run in Hswap. apply (f_equal snd) in Hswap. cbn [snd] in Hswap.
    now subst w1. }
  rewrite <- Hw1. unfold bind at 1, simulateSwap, lift.
  unfold bind at 1.
  destruct (deserialize js (swapTransaction swapResponse)) as [tx0|e] eqn:Hd; cbn [settle];
    [|intros H; now elim H].
  unfold bind at 1.
  destruct (sign js wallet tx0) as [tx|e] eqn:Hs; cbn [settle]; [|intros H; now elim H].
  unfold bind at 1. rewrite request_run.
  destruct (simulateTransaction net _) as [sim1|e] eqn:Hsim1; cbn [settle];
    [|intros H; now elim H].
  destruct (simErr sim1) eqn:Herr1; [intros H; now elim H|].
  unfold ret. cbn [snd].
  set (w2 := world_after (request net (SimulateTransaction tx "confirmed")
                                  (simulateTransaction net)) w1).
  intros Hbroadcast.
  destruct (executeSwap_broadcasts_only_after_clean_simulation js net swapResponse wallet w2)
    as (tx0' & tx' & sim2 & Hd' & Hs' & Hsim2 & Herr2).
  { intros Heq. apply Hbroadcast. unfold world_after in Heq. rewrite Heq. reflexivity. }
  rewrite Hd in Hd'. injection Hd' as <-. rewrite Hs in Hs'. injection Hs' as <-.
  exists swapResponse, w1, tx0, tx, sim1, sim2. repeat split; assumption.
Qed.

Lemma swap_attempt_broadcasts_after_two_clean_simulations_witness :
  exists tx,
    In (SimulateTransaction tx "confirmed")
       (trace (world_after (swapTry Scenario.js Scenario.net_working (Scenario.quote_of "500000")
                                    Scenario.wallet) Scenario.world0))
    /\ In (SimulateTransaction tx "processed")
          (trace (world_after (swapTry Scenario.js Scenario.net_working
                                       (Scenario.quote_of "500000") Scenario.wallet)
                              Scenario.world0)).
Proof.
  destruct (swap_attempt_broadcasts_after_two_clean_simulations
              Scenario.js Scenario.net_working (Scenario.quote_of "500000") Scenario.wallet
              Scenario.world0)
    as (swapResponse & w1 & tx0 & tx & sim1 & sim2 & Hswap & Hd & Hs & _).
  - vm_compute. discriminate.
  - vm_compute in Hswap. injection Hswap as <- <-.
    vm_compute in Hd. injection Hd as <-. vm_compute in Hs. injection Hs as <-.
    eexists. split; vm_compute; tauto.
Defined.

(** X29.  [executeSwap] makes no request for a transaction it cannot decode
    or sign, or that carries no signature after signing: it throws the error
    of the decoder or of the signer, or "Transaction has no signatures" from
    [getSignature], and leaves the world as it was. *)
Theorem executeSwap_fails_before_any_request
    (js : Runtime) (net : Network) (swapResponse : SwapResponse) (wallet : Wallet) (w : World) :
  (forall e, deserialize js (swapTransaction swapResponse) = Fail e ->
             executeSwap js net swapResponse wallet w = (Throw e, w))
  /\ (forall tx0 e, deserialize js (swapTransaction swapResponse) = Ok tx0 ->
                    sign js wallet tx0 = Fail e ->
                    executeSwap js net swapResponse wallet w = (Throw e, w))
  /\ (forall tx0 tx, deserialize js (swapTransaction swapResponse) = Ok tx0 ->
                     sign js wallet tx0 = Ok tx ->
                     signatures tx = [] ->
                     executeSwap js net swapResponse wallet w
                     = (Throw (mkError "Transaction has no signatures"), w)).
Proof.
  split; [|split].
  - intros e Hd. unfold executeSwap, lift, bind. now rewrite Hd.
  - intros tx0 e Hd Hs. unfold executeSwap, lift. unfold bind at 1. rewrite Hd. cbn [settle].
    unfold bind at 1. now rewrite Hs.
  - intros tx0 tx Hd Hs Hnone. unfold executeSwap, lift. unfold bind at 1. rewrite Hd.
    cbn [settle]. unfold bind at 1. rewrite Hs. cbn [settle].
    unfold bind at 1, getSignature. now rewrite Hnone.
Qed.

Lemma executeSwap_fails_before_any_request_witness :
  executeSwap Cases.js_unsigned Scenario.net_working Scenario.swap_response Scenario.wallet
              Scenario.world0
  = (Throw (mkError "Transaction has no signatures"), Scenario.world0).
Proof.
  apply (proj2 (proj2 (executeSwap_fails_before_any_request
                         Cases.js_unsigned Scenario.net_working Scenario.swap_response
                         Scenario.wallet Scenario.world0))
           Scenario.unsigned_transaction Scenario.unsigned_transaction);
    reflexivity.
Defined.

(** What follows a request, under a handler that rethrows, comes on top of
    the request in the history. *)
Lemma request_then {A B} (P : Event -> bool) net ev (reply : list Event -> result A)
    (k : A -> M B) (w : World) :
  (forall a, adds_only P (k a)) ->
  exists evs,
    trace (world_after (try_catch (bind (request net ev reply) k) (fun e => throw e)) w)
    = evs ++ ev :: trace w.
Proof.
  intros Hk. rewrite world_after_rethrow. unfold world_after, bind. rewrite request_run.
  destruct (reply (ev :: trace w)) as [a|e]; cbn [settle].
  - destruct (Hk a (world_after (request net ev reply) w)) as (evs & Htrace & _).
    exists evs. exact Htrace.
  - exists []. reflexivity.
Qed.

(** X30.  [buy] does not check the buy amount before it asks for a quote:
    with a wallet and a valid mint the quote request is made whatever
    BUY_AMOUNT_SOL holds.  An unset or empty BUY_AMOUNT_SOL asks for the
    lamports of [parseFloat("0")], and one that [parseFloat] cannot read asks
    for an amount of NaN. *)
Theorem buy_does_not_check_the_amount
    (js : Runtime) (net : Network) (outputMint : string) (isNewToken : option bool)
    (w : World) (wallet : Wallet) (mint : string) :
  getWallet js w = (Return wallet, w) ->
  newPublicKey js outputMint = Ok mint ->
  (exists evs,
     trace (world_after (buy js net outputMint isNewToken) w)
     = evs ++ QuoteGet (buyQuoteRequest js (env w) outputMint isNewToken) :: trace w)
  /\ (Js.defined_truthy (env w !! "BUY_AMOUNT_SOL") = false ->
      amount (buyQuoteRequest js (env w) outputMint isNewToken)
      = toLamports js (parseFloat js "0") SOL_DECIMALS)
  /\ (forall v, env w !! "BUY_AMOUNT_SOL" = Some v -> Js.truthy v = true ->
                parseFloat js v = None ->
                amount (buyQuoteRequest js (env w) outputMint isNewToken) = NaN).
Proof.
  intros Hwallet Hmint. split; [|split].
  - unfold world_after, buy. unfold bind at 1, process_env. cbv zeta.
    unfold bind at 1. rewrite Hwallet.
    unfold bind at 1, try_catch at 1, lift at 1. rewrite Hmint. cbn [settle].
    fold (buyQuoteRequest js (env w) outputMint isNewToken).
    apply (request_then is_swap_event).
    pose proof (adds_only_executeSwapSafely js net). trace_frame.
  - unfold buyQuoteRequest, getConfig. cbn [amount BUY_AMOUNT_SOL].
    unfold Js.defined_truthy, Js.or_else.
    destruct (env w !! "BUY_AMOUNT_SOL") as [v|]; [|reflexivity].
    intros Hv. now rewrite Hv.
  - intros v Hv Htruthy Hparse. unfold buyQuoteRequest, getConfig. cbn [amount BUY_AMOUNT_SOL].
    unfold Js.or_else. rewrite Hv, Htruthy, Htruthy, Hparse. reflexivity.
Qed.

(** BUY_AMOUNT_SOL is no numeral: the first event of [buy] is a quote
    request for NaN lamports. *)
Lemma buy_does_not_check_the_amount_witness :
  exists evs params,
    trace (world_after (buy Scenario.js Cases.net_no_route USDC_MINT None) Cases.world_bad_amount)
    = evs ++ [QuoteGet params]
    /\ amount params = NaN.
Proof.
  destruct (buy_does_not_check_the_amount Scenario.js Cases.net_no_route USDC_MINT None
              Cases.world_bad_amount Scenario.wallet USDC_MINT eq_refl eq_refl)
    as ((evs & Htrace) & _ & Hnan).
  exists evs, (buyQuoteRequest Scenario.js (env Cases.world_bad_amount) USDC_MINT None).
  split; [exact Htrace|].
  apply (Hnan "a lot"); reflexivity.
Defined.

(** ** The RPC endpoint (src/trader.ts) *)

(** An endpoint that the [Connection] constructor rejects stops
    [buyAndSellFlow] after the wallet is loaded and before the buy-amount
    override is written: nothing changes. *)
Lemma buyAndSellFlow_rejected_endpoint
    (js : Runtime) (net : Network) (tokenMint : string) (buyAmountSOL : option Q)
    (w : World) (wallet : Wallet) (e : Error) :
  getWallet js w = (Return wallet, w) ->
  newConnection js (RPC_ENDPOINT (getConfig js (env w))) = Fail e ->
  buyAndSellFlow js net tokenMint buyAmountSOL w = (Throw e, w).
Proof.
  intros Hwallet Hconnection.
  unfold buyAndSellFlow, try_catch. unfold bind at 1. rewrite Hwallet.
  unfold bind at 1, process_env. cbv zeta.
  unfold bind at 1, lift at 1. now rewrite Hconnection.
Qed.

(** [buy] builds its [Connection] after it has accepted the quote: a rejected
    endpoint makes it throw then, with the quote request as its only event. *)
Lemma buy_rejected_endpoint
    (js : Runtime) (net : Network) (outputMint : string) (isNewToken : option bool)
    (w : World) (wallet : Wallet) (mint : string) (q : QuoteResponse) (out : string)
    (n : Z) (e : Error) :
  getWallet js w = (Return wallet, w) ->
  newPublicKey js outputMint = Ok mint ->
  quoteGet net (QuoteGet (buyQuoteRequest js (env w) outputMint isNewToken) :: trace w)
    = Ok (Some q) ->
  outAmount q = Some out -> Js.truthy out = true -> BigInt js out = Ok n -> 0 < n ->
  newConnection js (RPC_ENDPOINT (getConfig js (env w))) = Fail e ->
  exists w',
    buy js net outputMint isNewToken w = (Throw e, w')
    /\ trace w' = QuoteGet (buyQuoteRequest js (env w) outputMint isNewToken) :: trace w.
Proof.
  intros Hwallet Hmint Hquote Hout Htruthy Hbig Hn Hconnection.
  exists (world_after
            (request net (QuoteGet (buyQuoteRequest js (env w) outputMint isNewToken))
                     (quoteGet net)) w).
  split; [|reflexivity].
  unfold buy. unfold bind at 1, process_env. cbv zeta.
  unfold bind at 1. rewrite Hwallet.
  unfold bind at 1, try_catch at 1, lift at 1. rewrite Hmint. cbn [settle].
  fold (buyQuoteRequest js (env w) outputMint isNewToken).
  unfold try_catch. unfold bind at 1. rewrite request_run, Hquote. cbn [settle].
  rewrite Hout, Htruthy. cbn [negb].
  unfold bind at 1, lift at 1. rewrite Hbig. cbn [settle].
  destruct (Z.leb_spec n 0); [lia|].
  unfold bind at 1, lift at 1. now rewrite Hconnection.
Qed.
